(** * FlexPhone SIP service: a shallow embedding and its properties

    The development follows [src/services/SIPService.js] (the simulated
    SIP client used by the desktop application) and the [sendDTMF] path of
    the SIP.js based [EnhancedSIPService].

    Conventions of the embedding:
    - a JavaScript value that may be [undefined]/[null] is an [option];
    - [new Date()] is an explicit argument [now] (milliseconds, an integer);
    - [crypto.randomBytes(8)] is an explicit argument (the bytes drawn);
    - a method that is [async] but only awaits already-settled promises runs
      to completion before any other task of the event loop, and is one
      function here; [connect], which awaits real timers, is split at its
      suspension point;
    - [try { ... } catch (error) { return {success:false, error:error.message} }]
      is written out: every [throw] of the source is the branch that builds
      the failure result;
    - the listeners of the emitted events are taken not to throw, except
      in [connect_with], which is given what its listeners do;
    - a number that [Math.min] and [Math.max] clamp is a [JS.Num], which
      has [NaN] and the infinities;
    - [console.log] and the oscillator objects of the Web Audio API are not
      part of the state; emitted events and dispatched DTMF tones are
      returned as a list of effects. *)

From Stdlib Require Import ZArith QArith Qminmax String Ascii List Bool Lia Sorted.
From stdpp Require Import base list.
Import ListNotations.
Local Open Scope string_scope.
Local Open Scope Z_scope.

(** ** JavaScript idioms *)

Module JS.

(** [!!x] for a string that may be undefined: the empty string is falsy. *)
Definition truthy_str (x : option string) : bool :=
  match x with
  | Some s => negb (String.eqb s "")
  | None => false
  end.

(** [!!x] for a number that may be undefined: zero is falsy. *)
Definition truthy_num (x : option Z) : bool :=
  match x with
  | Some n => negb (Z.eqb n 0)
  | None => false
  end.

(** [a || b] on strings and on numbers. *)
Definition or_str (a b : option string) : option string :=
  if truthy_str a then a else b.

Definition or_num (a b : option Z) : option Z :=
  if truthy_num a then a else b.

(** A [Map] keeps its entries in insertion order and has one entry per
    key; it is an association list here. *)
Section MapOps.
Context {V : Type}.

Fixpoint map_get (k : string) (m : list (string * V)) : option V :=
  match m with
  | [] => None
  | (k', v) :: m' => if String.eqb k k' then Some v else map_get k m'
  end.

Definition map_has (k : string) (m : list (string * V)) : bool :=
  match map_get k m with Some _ => true | None => false end.

(** [set] overwrites the value of an existing key in place and appends
    a new key at the end. *)
Fixpoint map_set (k : string) (v : V) (m : list (string * V))
  : list (string * V) :=
  match m with
  | [] => [(k, v)]
  | (k', v') :: m' =>
      if String.eqb k k' then (k', v) :: m' else (k', v') :: map_set k v m'
  end.

Fixpoint map_delete (k : string) (m : list (string * V))
  : list (string * V) :=
  match m with
  | [] => []
  | (k', v') :: m' =>
      if String.eqb k k' then map_delete k m' else (k', v') :: map_delete k m'
  end.

Definition map_size (m : list (string * V)) : nat := length m.

Definition map_keys (m : list (string * V)) : list string := map fst m.

Definition map_values (m : list (string * V)) : list V := map snd m.
End MapOps.

(** [buffer.toString('hex')]: two lower-case hexadecimal digits a byte. *)
Definition hex_digit (n : N) : ascii :=
  match n with
  | 0%N => "0" | 1%N => "1" | 2%N => "2" | 3%N => "3"
  | 4%N => "4" | 5%N => "5" | 6%N => "6" | 7%N => "7"
  | 8%N => "8" | 9%N => "9" | 10%N => "a" | 11%N => "b"
  | 12%N => "c" | 13%N => "d" | 14%N => "e" | _ => "f"
  end%char.

Fixpoint to_hex (bs : list Byte.byte) : string :=
  match bs with
  | [] => EmptyString
  | b :: bs' =>
      let n := Byte.to_N b in
      String (hex_digit (N.div n 16)) (String (hex_digit (N.modulo n 16)) (to_hex bs'))
  end.

(** A number, as [Math.min] and [Math.max] tell numbers apart. An
    argument that is not a number is converted first: [undefined] and a
    string that is not a numeral become [NaN]. *)
Inductive Num := NaN | NegInfinity | Finite (q : Q) | Infinity.

(** [Math.min(a, b)] and [Math.max(a, b)]: [NaN] if either is [NaN]. *)
Definition Math_min (a b : Num) : Num :=
  match a, b with
  | NaN, _ | _, NaN => NaN
  | NegInfinity, _ | _, NegInfinity => NegInfinity
  | Infinity, x | x, Infinity => x
  | Finite p, Finite q => Finite (Qmin p q)
  end.

Definition Math_max (a b : Num) : Num :=
  match a, b with
  | NaN, _ | _, NaN => NaN
  | Infinity, _ | _, Infinity => Infinity
  | NegInfinity, x | x, NegInfinity => x
  | Finite p, Finite q => Finite (Qmax p q)
  end.

End JS.

(** ** Data model of [SIPService] *)

Module Provider.
(** An entry of [sipProviders]. Every field is optional because a key
    that is inherited from [Object.prototype] also answers the lookup
    [this.sipProviders[config.provider]], with none of them defined. *)
Record t := mk {
  name : option string;
  defaultServer : option string;
  defaultPort : option Z;
  transport : option string;
  features : option (list string)
}.
End Provider.

Module Config.
(** The argument of [connect]. *)
Record t := mk {
  provider : option string;
  server : option string;
  port : option Z;
  username : option string;
  password : option string;
  displayName : option string;
  transport : option string
}.
End Config.

Module SipConfig.
(** The object built by [connect] and kept in [currentConfig]. *)
Record t := mk {
  provider : option string;
  server : option string;
  port : option Z;
  username : option string;
  password : option string;
  displayName : option string;
  transport : option string;
  features : option (list string)
}.
End SipConfig.

Module Validation.
(** [{ valid, error }] as returned by [validateConfig]. *)
Record t := mk { valid : bool; error : option string }.
End Validation.

Inductive Direction := outbound | inbound.

Inductive CallStatus := connecting | ringing | connected | ended.

Inductive RegistrationState := unregistered | registered | failed.

#[global] Instance CallStatus_eq_dec : EqDecision CallStatus.
Proof. solve_decision. Defined.

Definition CallStatus_eqb (a b : CallStatus) : bool :=
  match a, b with
  | connecting, connecting | ringing, ringing
  | connected, connected | ended, ended => true
  | _, _ => false
  end.

(** The text of a status, as interpolated into error messages. *)
Definition status_text (st : CallStatus) : string :=
  match st with
  | connecting => "connecting"
  | ringing => "ringing"
  | connected => "connected"
  | ended => "ended"
  end.

Module Call.
Record t := mk {
  id : string;
  direction : Direction;
  remoteNumber : string;
  remoteName : option string;
  localNumber : option string;
  status : CallStatus;
  startTime : Z;
  connectTime : option Z;
  endTime : option Z;
  duration : Z;
  provider : option string;
  options : list (string * string)
}.

Definition set_status (st : CallStatus) (c : t) : t :=
  mk (id c) (direction c) (remoteNumber c) (remoteName c) (localNumber c)
     st (startTime c) (connectTime c) (endTime c) (duration c)
     (provider c) (options c).

Definition set_connectTime (ct : option Z) (c : t) : t :=
  mk (id c) (direction c) (remoteNumber c) (remoteName c) (localNumber c)
     (status c) (startTime c) ct (endTime c) (duration c)
     (provider c) (options c).

Definition set_endTime (et : option Z) (c : t) : t :=
  mk (id c) (direction c) (remoteNumber c) (remoteName c) (localNumber c)
     (status c) (startTime c) (connectTime c) et (duration c)
     (provider c) (options c).

Definition set_duration (d : Z) (c : t) : t :=
  mk (id c) (direction c) (remoteNumber c) (remoteName c) (localNumber c)
     (status c) (startTime c) (connectTime c) (endTime c) d
     (provider c) (options c).
End Call.

Module Result.
(** The result object of a public operation; a property the operation
    does not set is [None]. *)
Record t := mk {
  success : bool;
  error : option string;
  message : option string;
  callId : option string;
  duration : option Z;
  config : option SipConfig.t
}.

(** [{ success: false, error: error.message }] *)
Definition failure (msg : string) : t :=
  mk false (Some msg) None None None None.
End Result.

(** Events handed to [emit], and tones handed to [simulateDTMFTone]. *)
Inductive Payload :=
| PConnected (provider server username : option string)
             (features : option (list string))
| PError (message : string)
| PTimestamp (now : Z)
| PCall (call : Call.t)
| PDtmf (callId : option string) (digits : string).

Inductive Effect :=
| Emit (event : string) (payload : Payload)
| Tone (digit : ascii) (frequencies : option (Z * Z)).

(** A pending [setTimeout] callback that touches the service. The call is
    captured by reference, as in the closure of the source. *)
Inductive Callback :=
| CbRinging (ref : nat)
| CbConnected (ref : nat)
| CbAutoHangup (callId : string) (ref : nat).

Module Timer.
Record t := mk { due : Z; callback : Callback }.
End Timer.

Module Service.
(** The fields of a [SIPService] instance, the call objects it has
    allocated ([store], addressed by reference) and the timers it has
    armed. [activeCalls] and the timers hold references: a call object is
    shared between the map and the closures. [callHistory] holds the
    shallow copies made by [{ ...call }]. *)
Record t := mk {
  isConnected : bool;
  currentConfig : option SipConfig.t;
  registrationState : RegistrationState;
  activeCalls : list (string * nat);
  callHistory : list Call.t;
  audioContext : bool;
  localStream : bool;
  store : list Call.t;
  timers : list Timer.t
}.
End Service.

(** ** The operations of [SIPService] *)

Module SIPService.
Import JS.

Definition own (name server : string) (port : Z) (transport : string)
           (features : list string) : Provider.t :=
  Provider.mk (Some name) (Some server) (Some port) (Some transport)
              (Some features).

(** [this.sipProviders], own properties. *)
Definition sipProviders : list (string * Provider.t) :=
  [ ("FLEXPBX", own "FlexPBX" "flexpbx.local" 5070 "UDP"
                    ["calls"; "sms"; "presence"; "conference"]);
    ("CALLCENTRIC", own "CallCentric" "sip.callcentric.com" 5060 "UDP"
                        ["calls"; "sms"]);
    ("VOIPMS", own "VoIP.ms" "server.voip.ms" 5060 "UDP" ["calls"; "sms"]);
    ("TWILIO", own "Twilio" "edge.twilio.com" 5060 "TLS"
                   ["calls"; "sms"; "video"]);
    ("GOOGLE_VOICE", own "Google Voice" "voice.google.com" 5060 "TLS"
                         ["calls"; "sms"; "voicemail"]);
    ("CUSTOM", own "Custom SIP Provider" "" 5060 "UDP" ["calls"]) ].

(** What a property read finds on [Object.prototype]: a function, whose
    [name] is its own name and which has none of the provider fields
    ([__proto__] answers with the prototype object, which has no [name]). *)
Definition inherited (name : option string) : Provider.t :=
  Provider.mk name None None None None.

Definition objectPrototype : list (string * Provider.t) :=
  [ ("constructor", inherited (Some "Object"));
    ("__defineGetter__", inherited (Some "__defineGetter__"));
    ("__defineSetter__", inherited (Some "__defineSetter__"));
    ("hasOwnProperty", inherited (Some "hasOwnProperty"));
    ("__lookupGetter__", inherited (Some "__lookupGetter__"));
    ("__lookupSetter__", inherited (Some "__lookupSetter__"));
    ("isPrototypeOf", inherited (Some "isPrototypeOf"));
    ("propertyIsEnumerable", inherited (Some "propertyIsEnumerable"));
    ("toString", inherited (Some "toString"));
    ("valueOf", inherited (Some "valueOf"));
    ("__proto__", inherited None);
    ("toLocaleString", inherited (Some "toLocaleString")) ].

(** [this.sipProviders[key]]; [None] is [undefined]. An undefined key
    reads the property named "undefined", which does not exist. *)
Definition getProvider (key : option string) : option Provider.t :=
  match key with
  | None => None
  | Some k =>
      match map_get k sipProviders with
      | Some p => Some p
      | None => map_get k objectPrototype
      end
  end.

Definition invalid (msg : string) : Validation.t :=
  Validation.mk false (Some msg).

Definition validateConfig (config : Config.t) : Validation.t :=
  if negb (truthy_str (Config.provider config)) then
    invalid "Provider is required"
  else if negb (bool_decide (is_Some (getProvider (Config.provider config)))) then
    invalid "Unknown provider"
  else if negb (truthy_str (Config.username config)) then
    invalid "Username is required"
  else if negb (truthy_str (Config.password config)) then
    invalid "Password is required"
  else if match Config.provider config with
          | Some p => String.eqb p "CUSTOM"
          | None => false
          end && negb (truthy_str (Config.server config)) then
    invalid "Server is required for custom provider"
  else Validation.mk true None.

(** [`${x}`] for a string that may be undefined. *)
Definition interpolate (x : option string) : string :=
  match x with Some s => s | None => "undefined" end.

(** The [catch] block of [connect]. *)
Definition connect_catch (msg : string) (s : Service.t)
  : Service.t * Result.t * list Effect :=
  (Service.mk false (Service.currentConfig s) failed
              (Service.activeCalls s) (Service.callHistory s)
              (Service.audioContext s) (Service.localStream s)
              (Service.store s) (Service.timers s),
   Result.failure msg,
   [Emit "connection-failed" (PError msg)]).

Definition sipConfig_of (config : Config.t) (provider : Provider.t)
  : SipConfig.t :=
  SipConfig.mk
    (Config.provider config)
    (or_str (Config.server config) (Provider.defaultServer provider))
    (or_num (Config.port config) (Provider.defaultPort provider))
    (Config.username config)
    (Config.password config)
    (or_str (Config.displayName config) (Config.username config))
    (or_str (Config.transport config) (Provider.transport provider))
    (Provider.features provider).

(** [connect] up to [await this.simulateSIPRegistration(sipConfig)]: the
    operation either has returned (left) or is suspended with the
    captured [sipConfig] and [provider] (right). *)
Definition connect_begin (config : Config.t) (s : Service.t)
  : Service.t * (Result.t * list Effect + SipConfig.t * Provider.t) :=
  let validationResult := validateConfig config in
  if negb (Validation.valid validationResult) then
    let '(s', r, e) :=
      connect_catch ("Invalid config: "
                       ++ interpolate (Validation.error validationResult)) s in
    (s', inl (r, e))
  else
    match getProvider (Config.provider config) with
    | None =>
        let '(s', r, e) :=
          connect_catch
            "Cannot read properties of undefined (reading 'defaultServer')" s in
        (s', inl (r, e))
    | Some provider =>
        let sipConfig := sipConfig_of config provider in
        (Service.mk (Service.isConnected s) (Some sipConfig)
                    (Service.registrationState s)
                    (Service.activeCalls s) (Service.callHistory s)
                    (Service.audioContext s) (Service.localStream s)
                    (Service.store s) (Service.timers s),
         inr (sipConfig, provider))
    end.

(** [connect] from the point where the simulated registration, which
    only waits, has resolved. *)
Definition connect_finish (k : SipConfig.t * Provider.t) (s : Service.t)
  : Service.t * Result.t * list Effect :=
  let '(sipConfig, provider) := k in
  (Service.mk true (Service.currentConfig s) registered
              (Service.activeCalls s) (Service.callHistory s)
              (Service.audioContext s) (Service.localStream s)
              (Service.store s) (Service.timers s),
   Result.mk true None
             (Some ("Connected to " ++ interpolate (Provider.name provider)))
             None None (Some sipConfig),
   [Emit "connected"
         (PConnected (SipConfig.provider sipConfig) (SipConfig.server sipConfig)
                     (SipConfig.username sipConfig)
                     (SipConfig.features sipConfig))]).

(** [connect] when nothing else runs while it waits. *)
Definition connect (config : Config.t) (s : Service.t)
  : Service.t * Result.t * list Effect :=
  match connect_begin config s with
  | (s', inl (r, e)) => (s', r, e)
  | (s', inr k) => connect_finish k s'
  end.

(** [emit] calls the listeners of the event one after the other, on the
    emitter's stack: an error thrown by a listener comes out of [emit].
    [Listeners] tells, for an event, the message of the error its
    listeners throw, if they throw. *)
Definition Listeners := string -> option string.

(** Listeners that never throw. *)
Definition quiet : Listeners := fun _ => None.

(** How the promise of an operation settles. *)
Inductive Outcome :=
| Returned (result : Result.t)
| Rejected (message : string).

(** The [catch] block of [connect]: its own [emit] is not guarded, so an
    error thrown by a listener of [connection-failed] rejects the
    promise, after the flags are written. *)
Definition connect_catch_with (throws : Listeners) (msg : string)
           (s : Service.t) : Service.t * Outcome * list Effect :=
  let '(s', r, e) := connect_catch msg s in
  match throws "connection-failed" with
  | Some msg' => (s', Rejected msg', e)
  | None => (s', Returned r, e)
  end.

(** The resumption of [connect]: [emit('connected', ...)] is inside the
    [try], after the flags are written, so an error thrown by a listener
    of [connected] is caught by the [catch] block of [connect]. *)
Definition connect_finish_with (throws : Listeners)
           (k : SipConfig.t * Provider.t) (s : Service.t)
  : Service.t * Outcome * list Effect :=
  let '(s', r, e) := connect_finish k s in
  match throws "connected" with
  | None => (s', Returned r, e)
  | Some msg =>
      let '(s'', o, e') := connect_catch_with throws msg s' in
      (s'', o, (e ++ e')%list)
  end.

(** [connect] with its listeners, when nothing else runs while it
    waits. *)
Definition connect_with (throws : Listeners) (config : Config.t)
           (s : Service.t) : Service.t * Outcome * list Effect :=
  match connect_begin config s with
  | (s', inl (r, e)) =>
      (s',
       match throws "connection-failed" with
       | Some msg' => Rejected msg'
       | None => Returned r
       end,
       e)
  | (s', inr k) => connect_finish_with throws k s'
  end.

Definition generateCallId (randomBytes : list Byte.byte) : string :=
  "call_" ++ to_hex randomBytes.

(** [this.activeCalls.get(callId)]: the reference and the object. *)
Definition getCall (callId : string) (s : Service.t)
  : option (nat * Call.t) :=
  match map_get callId (Service.activeCalls s) with
  | None => None
  | Some r =>
      match Service.store s !! r with
      | Some c => Some (r, c)
      | None => None
      end
  end.

Definition makeCall (number : string) (options : list (string * string))
           (randomBytes : list Byte.byte) (now : Z) (s : Service.t)
  : Service.t * Result.t * list Effect :=
  if negb (Service.isConnected s) then
    (s, Result.failure "Not connected to SIP server", [])
  else
    let callId := generateCallId randomBytes in
    match Service.currentConfig s with
    | None =>
        (s, Result.failure "Cannot read properties of null (reading 'username')",
         [])
    | Some cfg =>
        let call :=
          Call.mk callId outbound number None (SipConfig.username cfg)
                  connecting now None None 0 (SipConfig.provider cfg) options in
        let r := length (Service.store s) in
        (Service.mk (Service.isConnected s) (Service.currentConfig s)
                    (Service.registrationState s)
                    (map_set callId r (Service.activeCalls s))
                    (Service.callHistory s)
                    (Service.audioContext s) (Service.localStream s)
                    (Service.store s ++ [call])
                    (Service.timers s
                       ++ [Timer.mk (now + 1000) (CbRinging r);
                           Timer.mk (now + 3000) (CbConnected r)]),
         Result.mk true None (Some ("Calling " ++ number ++ "...")) (Some callId)
                   None None,
         [Emit "call-initiated" (PCall call)])
    end.

(** [media] says what [initializeCallAudio] meets: no
    [navigator.mediaDevices] ([None]), or a [getUserMedia] that resolves
    ([Some true]) or rejects ([Some false]). *)
Definition answerCall (callId : string) (media : option bool) (now : Z)
           (s : Service.t) : Service.t * Result.t * list Effect :=
  match getCall callId s with
  | None => (s, Result.failure "Call not found", [])
  | Some (r, call) =>
      if negb (CallStatus_eqb (Call.status call) ringing) then
        (s, Result.failure ("Cannot answer call in state: "
                              ++ status_text (Call.status call)), [])
      else
        let call' :=
          Call.set_connectTime (Some now) (Call.set_status connected call) in
        (Service.mk (Service.isConnected s) (Service.currentConfig s)
                    (Service.registrationState s)
                    (Service.activeCalls s) (Service.callHistory s)
                    (Service.audioContext s)
                    (match media with
                     | Some true => true
                     | _ => Service.localStream s
                     end)
                    (<[r := call']> (Service.store s))
                    (Service.timers s),
         Result.mk true None (Some "Call answered") (Some callId) None None,
         [Emit "call-answered" (PCall call')])
  end.

Definition hangupCall (callId : string) (now : Z) (s : Service.t)
  : Service.t * Result.t * list Effect :=
  match getCall callId s with
  | None => (s, Result.failure "Call not found", [])
  | Some (r, call) =>
      let call1 := Call.set_endTime (Some now) (Call.set_status ended call) in
      let call2 :=
        match Call.connectTime call1 with
        | Some connectTime => Call.set_duration (now - connectTime) call1
        | None => call1
        end in
      (Service.mk (Service.isConnected s) (Service.currentConfig s)
                  (Service.registrationState s)
                  (map_delete callId (Service.activeCalls s))
                  (Service.callHistory s ++ [call2])
                  (Service.audioContext s)
                  false
                  (<[r := call2]> (Service.store s))
                  (Service.timers s),
       Result.mk true None None (Some callId) (Some (Call.duration call2)) None,
       [Emit "call-ended" (PCall call2)])
  end.

(** The table of [simulateDTMFTone]. *)
Definition dtmfFreqs (digit : ascii) : option (Z * Z) :=
  match digit with
  | "1" => Some (697, 1209) | "2" => Some (697, 1336) | "3" => Some (697, 1477)
  | "4" => Some (770, 1209) | "5" => Some (770, 1336) | "6" => Some (770, 1477)
  | "7" => Some (852, 1209) | "8" => Some (852, 1336) | "9" => Some (852, 1477)
  | "*" => Some (941, 1209) | "0" => Some (941, 1336) | "#" => Some (941, 1477)
  | _ => None
  end%char.

(** One call of [simulateDTMFTone(digit)]: the digit is dispatched, and
    a tone sounds when there is an audio context and the table has the
    digit. *)
Definition simulateDTMFTone (audioContext : bool) (digit : ascii) : Effect :=
  Tone digit (if audioContext then dtmfFreqs digit else None).

(** [sendDTMF] takes the digits only and addresses the first active
    call. Its loop waits 100 ms after each digit; what it reads of the
    service while it runs is [audioContext], taken here as it is when the
    loop starts. *)
Definition sendDTMF (digits : string) (s : Service.t)
  : Service.t * Result.t * list Effect :=
  if Nat.eqb (map_size (Service.activeCalls s)) 0 then
    (s, Result.failure "No active calls", [])
  else
    let activeCall :=
      match map_values (Service.activeCalls s) with
      | r :: _ => Service.store s !! r
      | [] => None
      end in
    (s,
     Result.mk true None (Some ("DTMF sent: " ++ digits)) None None None,
     (map (simulateDTMFTone (Service.audioContext s))
          (list_ascii_of_string digits)
        ++ [Emit "dtmf-sent" (PDtmf (Call.id <$> activeCall) digits)])%list).

(** [simulateIncomingCall] is not wrapped in [try]: without a current
    config the read of [username] throws and nothing has changed. *)
Definition simulateIncomingCall (fromNumber : string)
           (fromName : option string) (randomBytes : list Byte.byte)
           (now : Z) (s : Service.t)
  : Service.t * option Call.t * list Effect :=
  let callId := generateCallId randomBytes in
  match Service.currentConfig s with
  | None => (s, None, [])
  | Some cfg =>
      let call :=
        Call.mk callId inbound fromNumber fromName (SipConfig.username cfg)
                ringing now None None 0 (SipConfig.provider cfg) [] in
      let r := length (Service.store s) in
      (Service.mk (Service.isConnected s) (Service.currentConfig s)
                  (Service.registrationState s)
                  (map_set callId r (Service.activeCalls s))
                  (Service.callHistory s)
                  (Service.audioContext s) (Service.localStream s)
                  (Service.store s ++ [call])
                  (Service.timers s
                     ++ [Timer.mk (now + 30000) (CbAutoHangup callId r)]),
       Some call,
       [Emit "incoming-call" (PCall call)])
  end.

(** The loop of [disconnect]: one [hangupCall] for each key of the map. *)
Fixpoint hangupAll (callIds : list string) (now : Z) (s : Service.t)
  : Service.t * list Effect :=
  match callIds with
  | [] => (s, [])
  | callId :: rest =>
      let '(s1, _, e1) := hangupCall callId now s in
      let '(s2, e2) := hangupAll rest now s1 in
      (s2, (e1 ++ e2)%list)
  end.

Definition disconnect (now : Z) (s : Service.t)
  : Service.t * Result.t * list Effect :=
  if negb (Service.isConnected s) then
    (s, Result.mk true None (Some "Not connected") None None None, [])
  else
    let '(s1, e1) := hangupAll (map_keys (Service.activeCalls s)) now s in
    (Service.mk false None unregistered
                (Service.activeCalls s1) (Service.callHistory s1)
                (Service.audioContext s1) (Service.localStream s1)
                (Service.store s1) (Service.timers s1),
     Result.mk true None (Some "Disconnected successfully") None None None,
     (e1 ++ [Emit "disconnected" (PTimestamp now)])%list).

(** [initialize]: an audio context is created where the environment has
    [window.AudioContext]. *)
Definition initialize (hasAudioContext : bool) (s : Service.t) : Service.t :=
  if hasAudioContext then
    Service.mk (Service.isConnected s) (Service.currentConfig s)
               (Service.registrationState s)
               (Service.activeCalls s) (Service.callHistory s)
               true (Service.localStream s)
               (Service.store s) (Service.timers s)
  else s.

(** [this.callHistory.sort((a, b) => b.startTime - a.startTime)]: the
    array is sorted in place, most recent start first, entries with equal
    start times keeping their order. *)
Fixpoint insertByStart (c : Call.t) (l : list Call.t) : list Call.t :=
  match l with
  | [] => [c]
  | x :: l' =>
      if Z.leb (Call.startTime x) (Call.startTime c)
      then c :: x :: l'
      else x :: insertByStart c l'
  end.

Fixpoint sortByStart (l : list Call.t) : list Call.t :=
  match l with
  | [] => []
  | c :: l' => insertByStart c (sortByStart l')
  end.

(** [array.slice(0, limit)]; a negative [limit] counts from the end. *)
Definition slice0 (limit : Z) (l : list Call.t) : list Call.t :=
  take (Z.to_nat (if Z.ltb limit 0
                  then Z.max (Z.of_nat (length l) + limit) 0
                  else limit)) l.

Definition getCallHistory (limit : Z) (s : Service.t)
  : Service.t * list Call.t :=
  let sorted := sortByStart (Service.callHistory s) in
  (Service.mk (Service.isConnected s) (Service.currentConfig s)
              (Service.registrationState s)
              (Service.activeCalls s) sorted
              (Service.audioContext s) (Service.localStream s)
              (Service.store s) (Service.timers s),
   slice0 limit sorted).

(** The state left by the constructor. *)
Definition initial : Service.t :=
  Service.mk false None unregistered [] [] false false [] [].

(** *** Timers *)

Definition mutate (r : nat) (f : Call.t -> Call.t) (s : Service.t)
  : Service.t :=
  match Service.store s !! r with
  | None => s
  | Some call =>
      Service.mk (Service.isConnected s) (Service.currentConfig s)
                 (Service.registrationState s)
                 (Service.activeCalls s) (Service.callHistory s)
                 (Service.audioContext s) (Service.localStream s)
                 (<[r := f call]> (Service.store s))
                 (Service.timers s)
  end.

Definition emitCall (event : string) (r : nat) (s : Service.t) : list Effect :=
  match Service.store s !! r with
  | None => []
  | Some call => [Emit event (PCall call)]
  end.

(** The body of a callback, run at time [now]. The two callbacks of
    [simulateCallConnection] write to the captured call whatever its
    state; the one of [simulateIncomingCall] hangs up only a call that is
    still in the map and still ringing. *)
Definition runCallback (cb : Callback) (now : Z) (s : Service.t)
  : Service.t * list Effect :=
  match cb with
  | CbRinging r =>
      let s' := mutate r (Call.set_status ringing) s in
      (s', emitCall "call-ringing" r s')
  | CbConnected r =>
      let s' :=
        mutate r (fun c => Call.set_connectTime (Some now)
                             (Call.set_status connected c)) s in
      (s', emitCall "call-connected" r s')
  | CbAutoHangup callId r =>
      if map_has callId (Service.activeCalls s)
         && match Service.store s !! r with
            | Some call => CallStatus_eqb (Call.status call) ringing
            | None => false
            end
      then let '(s', _, e) := hangupCall callId now s in (s', e)
      else (s, [])
  end.

Definition dropTimer (i : nat) (s : Service.t) : Service.t :=
  Service.mk (Service.isConnected s) (Service.currentConfig s)
             (Service.registrationState s)
             (Service.activeCalls s) (Service.callHistory s)
             (Service.audioContext s) (Service.localStream s)
             (Service.store s) (delete i (Service.timers s)).

(** The event loop runs the [i]-th pending timer, if it is due. *)
Definition fireTimer (i : nat) (now : Z) (s : Service.t)
  : Service.t * list Effect :=
  match Service.timers s !! i with
  | None => (s, [])
  | Some timer =>
      if Z.leb (Timer.due timer) now
      then runCallback (Timer.callback timer) now (dropTimer i s)
      else (s, [])
  end.

(** *** Runs of the service *)

Inductive Op :=
| OpInitialize (hasAudioContext : bool)
| OpConnectBegin (config : Config.t)
| OpConnectFinish (k : SipConfig.t * Provider.t)
| OpDisconnect (now : Z)
| OpMakeCall (number : string) (options : list (string * string))
             (randomBytes : list Byte.byte) (now : Z)
| OpAnswerCall (callId : string) (media : option bool) (now : Z)
| OpHangupCall (callId : string) (now : Z)
| OpSendDTMF (digits : string)
| OpIncomingCall (fromNumber : string) (fromName : option string)
                 (randomBytes : list Byte.byte) (now : Z)
| OpFireTimer (i : nat) (now : Z)
| OpGetCallHistory (limit : Z).

Definition exec (op : Op) (s : Service.t) : Service.t * list Effect :=
  match op with
  | OpInitialize a => (initialize a s, [])
  | OpConnectBegin config =>
      match connect_begin config s with
      | (s', inl (_, e)) => (s', e)
      | (s', inr _) => (s', [])
      end
  | OpConnectFinish k => let '(s', _, e) := connect_finish k s in (s', e)
  | OpDisconnect now => let '(s', _, e) := disconnect now s in (s', e)
  | OpMakeCall number options rnd now =>
      let '(s', _, e) := makeCall number options rnd now s in (s', e)
  | OpAnswerCall callId media now =>
      let '(s', _, e) := answerCall callId media now s in (s', e)
  | OpHangupCall callId now =>
      let '(s', _, e) := hangupCall callId now s in (s', e)
  | OpSendDTMF digits => let '(s', _, e) := sendDTMF digits s in (s', e)
  | OpIncomingCall fromNumber fromName rnd now =>
      let '(s', _, e) := simulateIncomingCall fromNumber fromName rnd now s in
      (s', e)
  | OpFireTimer i now => fireTimer i now s
  | OpGetCallHistory limit => ((getCallHistory limit s).1, [])
  end.

(** The clock reading an operation takes, if it takes one. *)
Definition op_time (op : Op) : option Z :=
  match op with
  | OpDisconnect now | OpMakeCall _ _ _ now | OpAnswerCall _ _ now
  | OpHangupCall _ now | OpIncomingCall _ _ _ now | OpFireTimer _ now =>
      Some now
  | OpInitialize _ | OpConnectBegin _ | OpConnectFinish _ | OpSendDTMF _
  | OpGetCallHistory _ =>
      None
  end.

(** [reachable t s]: the service can be in state [s] when the clock
    shows [t], the clock never running backwards. *)
Inductive reachable : Z -> Service.t -> Prop :=
| reachable_initial (t : Z) : reachable t initial
| reachable_exec (t t' : Z) (s : Service.t) (op : Op) :
    reachable t s ->
    t <= t' ->
    (forall now, op_time op = Some now -> now = t') ->
    reachable t' (exec op s).1.

(** A run from a given state, for concrete scenarios. *)
Fixpoint run (ops : list Op) (s : Service.t) : Service.t :=
  match ops with
  | [] => s
  | op :: ops' => run ops' (exec op s).1
  end.
(** *** Queries *)

Module Status.
(** The object returned by [getStatus]; [None] is [null]. *)
Record t := mk {
  isConnected : bool;
  registrationState : RegistrationState;
  provider : option string;
  server : option string;
  username : option string;
  activeCalls : nat;
  totalCalls : nat;
  features : list string
}.
End Status.

(** [x || null] *)
Definition or_null (x : option string) : option string :=
  if truthy_str x then x else None.

Definition getStatus (s : Service.t) : Status.t :=
  Status.mk
    (Service.isConnected s)
    (Service.registrationState s)
    (or_null (Service.currentConfig s ≫= SipConfig.provider))
    (or_null (Service.currentConfig s ≫= SipConfig.server))
    (or_null (Service.currentConfig s ≫= SipConfig.username))
    (map_size (Service.activeCalls s))
    (length (Service.callHistory s))
    (default [] (Service.currentConfig s ≫= SipConfig.features)).

(** [Array.from(this.activeCalls.values())]: the call objects, in the
    order of the map. *)
Definition getActiveCalls (s : Service.t) : list Call.t :=
  omap (fun r => Service.store s !! r) (map_values (Service.activeCalls s)).

Module ProviderInfo.
(** An element of the array returned by [getSupportedProviders]. *)
Record t := mk {
  id : string;
  name : option string;
  defaultServer : option string;
  defaultPort : option Z;
  transport : option string;
  features : option (list string)
}.
End ProviderInfo.

(** [Object.entries] lists the own properties only. *)
Definition getSupportedProviders : list ProviderInfo.t :=
  map (fun '(key, provider) =>
         ProviderInfo.mk key (Provider.name provider)
                         (Provider.defaultServer provider)
                         (Provider.defaultPort provider)
                         (Provider.transport provider)
                         (Provider.features provider))
      sipProviders.
End SIPService.

(** ** [EnhancedSIPService.sendDTMF]

    The SIP.js based service keeps the same call records with one more
    property, [sipCall], the session object of the transport library. Of
    that object only [sendDTMF(digit)] is used here, which resolves or
    throws; [accepts] says which. *)

Module EnhancedSIPService.
Import JS.

Module Session.
Record t := mk { accepts : ascii -> bool }.
End Session.

Module ECall.
Record t := mk { call : Call.t; sipCall : option Session.t }.
End ECall.

Inductive EEffect :=
| SipDtmf (digit : ascii) (accepted : bool)
| EmitDtmfSent (callId : string) (digits : string) (method : string).

(** [sendDTMF] reads no field of the service but [activeCalls], and
    writes none. *)
Definition sendDTMF (digits : string) (activeCalls : list (string * ECall.t))
  : Result.t * list EEffect :=
  if Nat.eqb (map_size activeCalls) 0 then
    (Result.failure "No active calls", [])
  else
    match map_values activeCalls with
    | [] => (Result.failure "No active calls", [])
    | activeCall :: _ =>
        match ECall.sipCall activeCall with
        | None => (Result.failure "No connected call for DTMF", [])
        | Some sipCall =>
            if negb (CallStatus_eqb (Call.status (ECall.call activeCall))
                                    connected)
            then (Result.failure "No connected call for DTMF", [])
            else
              (Result.mk true None
                         (Some ("DTMF sent via RFC 2833: " ++ digits))
                         None None None,
               (map (fun digit => SipDtmf digit (Session.accepts sipCall digit))
                    (list_ascii_of_string digits)
                  ++ [EmitDtmfSent (Call.id (ECall.call activeCall)) digits
                                   "RFC 2833"])%list)
        end
    end.
Module EProvider.
(** An entry of the provider table of the SIP.js based service. *)
Record t := mk {
  name : option string;
  defaultServer : option string;
  defaultPort : option Z;
  transport : option string;
  webSocketServer : option string;
  features : option (list string)
}.
End EProvider.

Definition sipProviders : list (string * EProvider.t) :=
  [ ("FLEXPBX",
     EProvider.mk (Some "FlexPBX") (Some "flexpbx.local") (Some 5070)
                  (Some "WSS") (Some "wss://flexpbx.local:8089/ws")
                  (Some ["calls"; "sms"; "presence"; "conference"; "dtmf"]));
    ("CALLCENTRIC",
     EProvider.mk (Some "CallCentric") (Some "callcentric.com") (Some 5060)
                  (Some "WSS") (Some "wss://callcentric.com:8089/ws")
                  (Some ["calls"; "sms"; "dtmf"])) ].

(** [this.sipProviders[key]], with the keys that every object inherits. *)
Definition getProvider (key : option string) : option EProvider.t :=
  match key with
  | None => None
  | Some k =>
      match map_get k sipProviders with
      | Some p => Some p
      | None =>
          (fun p => EProvider.mk (Provider.name p) None None None None None)
            <$> map_get k SIPService.objectPrototype
      end
  end.

Definition validateConfig (config : Config.t) : Validation.t :=
  if negb (truthy_str (Config.provider config))
     || negb (bool_decide (is_Some (getProvider (Config.provider config))))
  then Validation.mk false (Some "Valid provider is required")
  else if negb (truthy_str (Config.username config))
          || negb (truthy_str (Config.password config))
  then Validation.mk false (Some "Username and password are required")
  else Validation.mk true None.
End EnhancedSIPService.

(** ** [DTMFService]

    The tone generator of the dialer. The state of the Web Audio context
    and whether its calls throw belong to the environment: [resume_ok]
    says that [audioContext.resume()] resolves, [oscillators_ok] that
    creating and starting the oscillators does not throw. Volume and tone
    duration are JavaScript numbers; [Math.max] and [Math.min] return one
    of their arguments, so rationals carry them exactly. *)

Module DTMFService.

Inductive ContextState := running | suspended.

Record t := mk {
  audioContext : option ContextState;
  enabled : bool;
  volume : JS.Num;
  toneDuration : JS.Num
}.

Module Tone.
(** One tone: the two frequencies, the gain and the length in ms. *)
Record t := mk { low : Z; high : Z; gain : JS.Num; length : JS.Num }.
End Tone.

(** The fields set by the constructor, before [initializeAudioContext]
    has run. *)
Definition constructed : t :=
  mk None true (JS.Finite (1 # 10)) (JS.Finite (200 # 1)).

(** [env] is [None] when the [AudioContext] constructor throws, and
    otherwise the state of the new context and whether [resume] works. *)
Definition initializeAudioContext (env : option (ContextState * bool))
           (s : t) : t :=
  match env with
  | None => mk (audioContext s) false (volume s) (toneDuration s)
  | Some (running, _) => mk (Some running) (enabled s) (volume s) (toneDuration s)
  | Some (suspended, true) =>
      mk (Some running) (enabled s) (volume s) (toneDuration s)
  | Some (suspended, false) =>
      mk (Some suspended) false (volume s) (toneDuration s)
  end.

(** [this.dtmfFrequencies[key]]: the keys are the sixteen one-character
    strings. *)
Definition dtmfFrequencies (key : string) : option (Z * Z) :=
  match key with
  | String c EmptyString =>
      match c with
      | "1" => Some (697, 1209) | "2" => Some (697, 1336)
      | "3" => Some (697, 1477) | "A" => Some (697, 1633)
      | "4" => Some (770, 1209) | "5" => Some (770, 1336)
      | "6" => Some (770, 1477) | "B" => Some (770, 1633)
      | "7" => Some (852, 1209) | "8" => Some (852, 1336)
      | "9" => Some (852, 1477) | "C" => Some (852, 1633)
      | "*" => Some (941, 1209) | "0" => Some (941, 1336)
      | "#" => Some (941, 1477) | "D" => Some (941, 1633)
      | _ => None
      end%char
  | _ => None
  end.

(** [toUpperCase], on the bytes of the string: the letters a to z are
    the only bytes it changes. *)
Definition upper (c : ascii) : ascii :=
  let n := nat_of_ascii c in
  if (Nat.leb 97 n && Nat.leb n 122)%bool then ascii_of_nat (n - 32) else c.

Fixpoint toUpperCase (s : string) : string :=
  match s with
  | EmptyString => EmptyString
  | String c s' => String (upper c) (toUpperCase s')
  end.

Definition playDTMFTone (digit : string) (resume_ok oscillators_ok : bool)
           (s : t) : t * bool * list Tone.t :=
  match audioContext s with
  | None => (s, false, [])
  | Some state =>
      if negb (enabled s) then (s, false, [])
      else
        match dtmfFrequencies (toUpperCase digit) with
        | None => (s, false, [])
        | Some (low, high) =>
            let resumed :=
              match state with
              | running => Some s
              | suspended =>
                  if resume_ok
                  then Some (mk (Some running) (enabled s) (volume s)
                                (toneDuration s))
                  else None
              end in
            match resumed with
            | None => (s, false, [])
            | Some s' =>
                if oscillators_ok
                then (s', true,
                      [Tone.mk low high (volume s') (toneDuration s')])
                else (s', false, [])
            end
        end
  end.

(** [playDialSequence]: one [playDTMFTone] for each character, results
    ignored; the delay between them only spaces the tones in time. [env]
    gives the environment of the [i]-th call. *)
Fixpoint playFrom (i : nat) (digits : list ascii) (env : nat -> bool * bool)
         (s : t) : t * list Tone.t :=
  match digits with
  | [] => (s, [])
  | c :: rest =>
      let '(s1, _, tones1) :=
        playDTMFTone (String c EmptyString) (env i).1 (env i).2 s in
      let '(s2, tones2) := playFrom (S i) rest env s1 in
      (s2, (tones1 ++ tones2)%list)
  end.

Definition playDialSequence (digits : string) (env : nat -> bool * bool)
           (s : t) : t * list Tone.t :=
  playFrom 0 (list_ascii_of_string digits) env s.

(** [Math.max(0, Math.min(1, volume))] *)
Definition setVolume (v : JS.Num) (s : t) : t :=
  mk (audioContext s) (enabled s)
     (JS.Math_max (JS.Finite 0) (JS.Math_min (JS.Finite 1) v))
     (toneDuration s).

(** [Math.max(50, Math.min(1000, duration))] *)
Definition setToneDuration (d : JS.Num) (s : t) : t :=
  mk (audioContext s) (enabled s) (volume s)
     (JS.Math_max (JS.Finite (50 # 1)) (JS.Math_min (JS.Finite (1000 # 1)) d)).

Definition setEnabled (b : bool) (s : t) : t :=
  mk (audioContext s) b (volume s) (toneDuration s).

Inductive Op :=
| OpInitialize (env : option (ContextState * bool))
| OpPlay (digit : string) (resume_ok oscillators_ok : bool)
| OpDial (digits : string) (env : nat -> bool * bool)
| OpSetVolume (v : JS.Num)
| OpSetToneDuration (d : JS.Num)
| OpSetEnabled (b : bool).

Definition exec (op : Op) (s : t) : t * list Tone.t :=
  match op with
  | OpInitialize env => (initializeAudioContext env s, [])
  | OpPlay digit resume_ok oscillators_ok =>
      let '(s', _, tones) := playDTMFTone digit resume_ok oscillators_ok s in
      (s', tones)
  | OpDial digits env => playDialSequence digits env s
  | OpSetVolume v => (setVolume v s, [])
  | OpSetToneDuration d => (setToneDuration d s, [])
  | OpSetEnabled b => (setEnabled b s, [])
  end.

(** A run of the generator, with the tones it played. *)
Fixpoint run (ops : list Op) (s : t) : t * list Tone.t :=
  match ops with
  | [] => (s, [])
  | op :: ops' =>
      let '(s1, tones1) := exec op s in
      let '(s2, tones2) := run ops' s1 in
      (s2, (tones1 ++ tones2)%list)
  end.

End DTMFService.

(** ** Concrete scenarios *)

Module Scenario.
Import JS SIPService.

Definition alice : Config.t :=
  Config.mk (Some "FLEXPBX") None None (Some "alice") (Some "secret")
            None None.

(** A config without a provider. *)
Definition anonymous : Config.t :=
  Config.mk None None None (Some "alice") (Some "secret") None None.

(** A listener of [connected] that throws, as [webContents.send] does on
    a window that has been destroyed; the other listeners do not. *)
Definition window_destroyed : Listeners :=
  fun event =>
    if String.eqb event "connected" then Some "Object has been destroyed"
    else None.

Definition bytes1 : list Byte.byte :=
  [Byte.x01; Byte.x02; Byte.x03; Byte.x04;
   Byte.x05; Byte.x06; Byte.x07; Byte.x08].

Definition bytes2 : list Byte.byte :=
  [Byte.xa1; Byte.xb2; Byte.xc3; Byte.xd4;
   Byte.xe5; Byte.xf6; Byte.x07; Byte.x18].

Definition id1 : string := "call_0102030405060708".
Definition id2 : string := "call_a1b2c3d4e5f60718".

(** Constructed, initialised where there is an audio context, and
    connected as alice. *)
Definition s_registered : Service.t :=
  (connect alice (initialize true initial)).1.1.

(** An outbound call placed at time 0: it is [connecting]. *)
Definition s_dialing : Service.t :=
  (makeCall "5551234" [] bytes1 0 s_registered).1.1.

(** The first timer of the call fires after one second: [ringing]. *)
Definition s_ringing : Service.t := (fireTimer 0 1000 s_dialing).1.

(** The second timer fires after three seconds: [connected]. *)
Definition s_connected : Service.t := (fireTimer 0 3000 s_ringing).1.

(** Or else the ringing outbound call is answered after two seconds,
    and its second timer fires after three. *)
Definition s_answered : Service.t :=
  (answerCall id1 None 2000 s_ringing).1.1.

Definition s_answered_then_timer : Service.t :=
  (fireTimer 0 3000 s_answered).1.

(** An inbound call arriving at time 0 on the registered service. *)
Definition s_incoming : Service.t :=
  (simulateIncomingCall "+1 (336) 462-6141" (Some "Test Caller")
                        bytes1 0 s_registered).1.1.

(** An outbound call placed five seconds later, the inbound call still
    ringing. *)
Definition s_incoming_then_dialing : Service.t :=
  (makeCall "5559876" [] bytes2 5000 s_incoming).1.1.

(** A second outbound call placed while the first is connected. *)
Definition s_two_calls : Service.t :=
  (makeCall "5559876" [] bytes2 3200 s_connected).1.1.
End Scenario.

(** ** Observations used in the statements *)

Import JS SIPService.

(** The registration fields of a state. *)
Definition registration (s : Service.t)
  : bool * RegistrationState * option SipConfig.t :=
  (Service.isConnected s, Service.registrationState s, Service.currentConfig s).

(** The digits handed to [simulateDTMFTone], and those that sounded. *)
Fixpoint dispatched (effects : list Effect) : list ascii :=
  match effects with
  | [] => []
  | Tone digit _ :: rest => digit :: dispatched rest
  | Emit _ _ :: rest => dispatched rest
  end.

Fixpoint sounded (effects : list Effect) : list ascii :=
  match effects with
  | [] => []
  | Tone digit (Some _) :: rest => digit :: sounded rest
  | _ :: rest => sounded rest
  end.

(** [connectTime_kept s s']: every call object of [s] is still there in
    [s'], with the connect time it had. *)
Definition connectTime_kept (s s' : Service.t) : Prop :=
  forall r c, Service.store s !! r = Some c ->
              exists c', Service.store s' !! r = Some c'
                         /\ Call.connectTime c' = Call.connectTime c.

(** The bookkeeping that every run of the service maintains, at clock
    reading [t]: the map holds distinct references to allocated objects,
    an active call has no duration yet, and no connect time lies in the
    future. *)
Definition calls_ok (t : Z) (s : Service.t) : Prop :=
  NoDup (map_values (Service.activeCalls s))
  /\ (forall r, In r (map_values (Service.activeCalls s)) ->
                (r < length (Service.store s))%nat)
  /\ (forall r c, In r (map_values (Service.activeCalls s)) ->
                  Service.store s !! r = Some c -> Call.duration c = 0)
  /\ (forall r c ct, Service.store s !! r = Some c ->
                     Call.connectTime c = Some ct -> ct <= t).

(** What is expected of a history entry at clock reading [t]. *)
Definition entry_ok (t : Z) (entry : Call.t) : Prop :=
  exists e,
    Call.endTime entry = Some e
    /\ e <= t
    /\ Call.status entry = ended
    /\ Call.duration entry
       = match Call.connectTime entry with
         | Some ct => e - ct
         | None => 0
         end
    /\ 0 <= Call.duration entry.

Definition service_ok (t : Z) (s : Service.t) : Prop :=
  calls_ok t s /\ Forall (entry_ok t) (Service.callHistory s).

(** An active call as a user of [getActiveCalls] finds it: filed under
    its own id, not ended, without end time or duration. *)
Definition live (callId : string) (c : Call.t) : Prop :=
  Call.id c = callId
  /\ Call.status c <> ended
  /\ Call.endTime c = None
  /\ Call.duration c = 0.

Definition active_ok (s : Service.t) : Prop :=
  NoDup (map_keys (Service.activeCalls s))
  /\ forall callId r,
       map_get callId (Service.activeCalls s) = Some r ->
       exists c, Service.store s !! r = Some c /\ live callId c.

(** The order of the three time stamps of a history entry. *)
Definition entry_times_ok (entry : Call.t) : Prop :=
  exists e,
    Call.endTime entry = Some e
    /\ Call.startTime entry <= e
    /\ forall ct, Call.connectTime entry = Some ct ->
                  Call.startTime entry <= ct /\ ct <= e.

Definition times_ok (t : Z) (s : Service.t) : Prop :=
  (forall r c, Service.store s !! r = Some c ->
               Call.startTime c <= t
               /\ forall ct, Call.connectTime c = Some ct ->
                             Call.startTime c <= ct)
  /\ Forall entry_times_ok (Service.callHistory s).

Definition more_ok (t : Z) (s : Service.t) : Prop :=
  active_ok s /\ times_ok t s.

(** Most recent start first. *)
Definition newer_first (a b : Call.t) : Prop :=
  Call.startTime b <= Call.startTime a.

(** The value of a hexadecimal digit. *)
Definition unhex (c : ascii) : N :=
  match c with
  | "0" => 0 | "1" => 1 | "2" => 2 | "3" => 3 | "4" => 4 | "5" => 5
  | "6" => 6 | "7" => 7 | "8" => 8 | "9" => 9 | "a" => 10 | "b" => 11
  | "c" => 12 | "d" => 13 | "e" => 14 | _ => 15
  end%char%N.

(** The characters that [DTMFService.playDTMFTone] takes for a key of
    the keypad. *)
Definition keypad_char (c : ascii) : bool :=
  existsb (Ascii.eqb c) (list_ascii_of_string "0123456789*#ABCDabcd").

(** A number between two bounds; [NaN] and the infinities are not. *)
Definition within (lo hi : Q) (x : Num) : Prop :=
  match x with
  | Finite q => (lo <= q)%Q /\ (q <= hi)%Q
  | _ => False
  end.

(** The ranges of the settings of the tone generator: a gain between 0
    and 1, a length between 50 and 1000 milliseconds. *)
Definition settings_in_range (gain length : Num) : Prop :=
  within 0 1 gain /\ within (50 # 1) (1000 # 1) length.

(** An operation of the tone generator whose argument, if it sets the
    volume or the duration, is a number. *)
Definition numeric (op : DTMFService.Op) : Prop :=
  match op with
  | DTMFService.OpSetVolume v => v <> NaN
  | DTMFService.OpSetToneDuration d => d <> NaN
  | _ => True
  end.

(** The digits that [EnhancedSIPService.sendDTMF] handed to the session,
    with the outcome of each. *)
Fixpoint attempted (effects : list EnhancedSIPService.EEffect)
  : list (ascii * bool) :=
  match effects with
  | [] => []
  | EnhancedSIPService.SipDtmf digit accepted :: rest =>
      (digit, accepted) :: attempted rest
  | EnhancedSIPService.EmitDtmfSent _ _ _ :: rest => attempted rest
  end.

(** * Properties *)

(** ** Facts about the map operations *)

Section MapFacts.
Context {V : Type}.
Implicit Types (m : list (string * V)) (k : string) (v : V).

Lemma map_get_delete_same k m : map_get k (map_delete k m) = None.
Proof.
  induction m as [|[k' v'] m IH]; simpl; [reflexivity|].
  destruct (String.eqb k k') eqn:E; [exact IH|].
  simpl. rewrite E. exact IH.
Qed.

Lemma map_get_set_same k v m : map_get k (map_set k v m) = Some v.
Proof.
  induction m as [|[k' v'] m IH]; simpl.
  - rewrite String.eqb_refl. reflexivity.
  - destruct (String.eqb k k') eqn:E; simpl; rewrite E; [reflexivity|exact IH].
Qed.

Lemma map_size_set_fresh k v m :
  map_get k m = None -> map_size (map_set k v m) = S (map_size m).
Proof.
  unfold map_size. induction m as [|[k' v'] m IH]; simpl; [reflexivity|].
  destruct (String.eqb k k') eqn:E; [discriminate|].
  intros H. simpl. rewrite (IH H). reflexivity.
Qed.

Lemma map_values_delete_incl k m x :
  In x (map_values (map_delete k m)) -> In x (map_values m).
Proof.
  unfold map_values. induction m as [|[k' v'] m IH]; simpl; [tauto|].
  destruct (String.eqb k k'); simpl; intuition.
Qed.

Lemma map_get_In k m v : map_get k m = Some v -> In v (map_values m).
Proof.
  unfold map_values. induction m as [|[k' v'] m IH]; simpl; [discriminate|].
  destruct (String.eqb k k'); [intros [= ->]; now left|].
  intros H. right. exact (IH H).
Qed.
End MapFacts.

(** ** What each operation leaves alone *)

Lemma hangupCall_registration callId now s :
  registration (hangupCall callId now s).1.1 = registration s.
Proof. unfold hangupCall. repeat case_match; reflexivity. Qed.

Lemma hangupAll_registration callIds now s :
  registration (hangupAll callIds now s).1 = registration s.
Proof.
  revert s. induction callIds as [|callId rest IH]; intros s; simpl; [reflexivity|].
  pose proof (hangupCall_registration callId now s) as H1.
  destruct (hangupCall callId now s) as [[s1 r1] e1]. simpl in H1.
  pose proof (IH s1) as H2.
  destruct (hangupAll rest now s1) as [s2 e2]. simpl in *. congruence.
Qed.

Lemma fireTimer_registration i now s :
  registration (fireTimer i now s).1 = registration s.
Proof.
  unfold fireTimer. destruct (Service.timers s !! i) as [timer|]; [|reflexivity].
  destruct (Z.leb (Timer.due timer) now); [|reflexivity].
  destruct (Timer.callback timer) as [r|r|callId r]; simpl.
  - unfold mutate. case_match; reflexivity.
  - unfold mutate. case_match; reflexivity.
  - case_match; [|reflexivity].
    pose proof (hangupCall_registration callId now (dropTimer i s)) as H1.
    destruct (hangupCall callId now (dropTimer i s)) as [[s1 r1] e1].
    simpl in *. exact H1.
Qed.

(** The two flags of the registration agree in every reachable state:
    the service is connected exactly when it is registered. *)
Lemma reachable_connected_iff_registered t s :
  reachable t s ->
  Service.isConnected s = true <-> Service.registrationState s = registered.
Proof.
  induction 1 as [t|t t' s op Hr IH Hle Hnow].
  - simpl. split; discriminate.
  - destruct op; simpl.
    + unfold initialize. destruct hasAudioContext; simpl; exact IH.
    + unfold connect_begin, connect_catch.
      repeat case_match; simplify_eq; simpl; try exact IH; split; discriminate.
    + destruct k as [c p]. simpl. split; reflexivity.
    + unfold disconnect. destruct (Service.isConnected s) eqn:E; simpl.
      * destruct (hangupAll _ now s) as [s1 e1]. simpl. split; discriminate.
      * rewrite E. exact IH.
    + unfold makeCall. repeat case_match; simplify_eq; simpl; exact IH.
    + unfold answerCall. repeat case_match; simplify_eq; simpl; exact IH.
    + pose proof (hangupCall_registration callId now s) as H1.
      destruct (hangupCall callId now s) as [[s1 r1] e1].
      unfold registration in H1. simpl in *. simplify_eq. congruence.
    + unfold sendDTMF. repeat case_match; simplify_eq; simpl; exact IH.
    + unfold simulateIncomingCall.
      repeat case_match; simplify_eq; simpl; exact IH.
    + pose proof (fireTimer_registration i now s) as H1.
      unfold registration in H1. simplify_eq. congruence.
    + exact IH.
Qed.

(** ** Placing a call without a registration *)

(** C1. A [makeCall] made while the service is not connected (in a
    reachable state: while its registration state is not [registered])
    fails with the error "Not connected to SIP server"; it returns no call
    id, and the whole state, so the active calls, the history and the
    stored call objects, is what it was. *)
Theorem makeCall_not_registered
        (number : string) (options : list (string * string))
        (randomBytes : list Byte.byte) (now : Z) (s : Service.t) :
  Service.isConnected s = false
  \/ (exists t, reachable t s /\ Service.registrationState s <> registered) ->
  let '(s', result, effects) := makeCall number options randomBytes now s in
  Result.success result = false
  /\ Result.error result = Some "Not connected to SIP server"
  /\ Result.callId result = None
  /\ s' = s
  /\ Service.activeCalls s' = Service.activeCalls s
  /\ Service.callHistory s' = Service.callHistory s
  /\ Service.store s' = Service.store s
  /\ effects = [].
Proof.
  intros H.
  assert (Hc : Service.isConnected s = false).
  { destruct H as [H|(t & Hr & Hn)]; [exact H|].
    destruct (Service.isConnected s) eqn:E; [|reflexivity].
    exfalso. apply Hn. apply (reachable_connected_iff_registered t s Hr).
    exact E. }
  unfold makeCall. rewrite Hc. simpl. repeat split; reflexivity.
Qed.

Lemma makeCall_not_registered_witness :
  let '(s', result, effects) :=
    makeCall "5551234" [] [] 0 initial in
  Result.success result = false
  /\ Result.error result = Some "Not connected to SIP server"
  /\ Result.callId result = None
  /\ s' = initial
  /\ Service.activeCalls s' = Service.activeCalls initial
  /\ Service.callHistory s' = Service.callHistory initial
  /\ Service.store s' = Service.store initial
  /\ effects = [].
Proof.
  apply (makeCall_not_registered "5551234" [] [] 0 initial).
  left. reflexivity.
Defined.

(** ** DTMF *)

Lemma dispatched_app e1 e2 :
  dispatched (e1 ++ e2) = (dispatched e1 ++ dispatched e2)%list.
Proof.
  induction e1 as [|x e1 IH]; [reflexivity|].
  destruct x as [ev p|d f]; simpl; [exact IH|]. rewrite IH. reflexivity.
Qed.

Lemma sounded_app e1 e2 :
  sounded (e1 ++ e2) = (sounded e1 ++ sounded e2)%list.
Proof.
  induction e1 as [|x e1 IH]; [reflexivity|].
  destruct x as [ev p|d [f|]]; simpl; try exact IH. rewrite IH. reflexivity.
Qed.

Lemma dispatched_tones audio (digits : list ascii) :
  dispatched (map (simulateDTMFTone audio) digits) = digits.
Proof.
  induction digits as [|d ds IH]; simpl; [reflexivity|]. rewrite IH. reflexivity.
Qed.

Lemma sounded_tones audio (digits : list ascii) :
  sounded (map (simulateDTMFTone audio) digits)
  = filter (fun d => audio && bool_decide (is_Some (dtmfFreqs d))) digits.
Proof.
  induction digits as [|d ds IH]; simpl; [reflexivity|].
  destruct audio; simpl.
  - destruct (dtmfFreqs d) as [f|] eqn:E; simpl.
    + rewrite IH. simpl. rewrite filter_cons_True; [reflexivity|].
      simpl. rewrite E. rewrite bool_decide_eq_true_2; [exact I|eauto].
    + rewrite IH. simpl. rewrite filter_cons_False; [reflexivity|].
      simpl. rewrite E. rewrite bool_decide_eq_false_2; [tauto|].
      intros [x Hx]. discriminate.
  - rewrite IH. rewrite filter_cons_False; [reflexivity|]. simpl. tauto.
Qed.

(** C2. In [SIPService], [sendDTMF] checks only that some call is active.
    On the service that has just placed an outbound call, still in state
    [connecting], sending "12" succeeds and both digits are dispatched
    and sound: the guard on the call state that the SIP.js based service
    has is missing here. *)
Theorem sendDTMF_while_connecting :
  (exists r call, getCall Scenario.id1 Scenario.s_dialing = Some (r, call)
                  /\ Call.status call = connecting)
  /\ map_keys (Service.activeCalls Scenario.s_dialing) = [Scenario.id1]
  /\ let '(s', result, effects) := sendDTMF "12" Scenario.s_dialing in
     Result.success result = true
     /\ Result.message result = Some "DTMF sent: 12"
     /\ dispatched effects = ["1"; "2"]%char
     /\ sounded effects = ["1"; "2"]%char.
Proof.
  split.
  - eexists _, _. split; [vm_compute; reflexivity|reflexivity].
  - vm_compute. repeat split; reflexivity.
Qed.

(** The SIP.js based service does have the guard: unless the first
    active call is connected, nothing is dispatched. *)
Lemma enhanced_sendDTMF_requires_connected
      (digits : string) (activeCalls : list (string * EnhancedSIPService.ECall.t)) :
  (forall c, head (map_values activeCalls) = Some c ->
             Call.status (EnhancedSIPService.ECall.call c) <> connected) ->
  let '(result, effects) := EnhancedSIPService.sendDTMF digits activeCalls in
  Result.success result = false /\ effects = [].
Proof.
  intros H. unfold EnhancedSIPService.sendDTMF.
  destruct (Nat.eqb (map_size activeCalls) 0); [split; reflexivity|].
  destruct (map_values activeCalls) as [|c cs]; [split; reflexivity|].
  destruct (EnhancedSIPService.ECall.sipCall c); [|split; reflexivity].
  specialize (H c eq_refl).
  destruct (Call.status (EnhancedSIPService.ECall.call c)); simpl;
    try (split; reflexivity).
  congruence.
Qed.

(** The tone table of [simulateDTMFTone] holds the digits and the two
    keys [*] and [#]; the letters A to D are not in it. *)
Lemma dtmfFreqs_table (d : ascii) :
  bool_decide (is_Some (dtmfFreqs d))
  = existsb (Ascii.eqb d) (list_ascii_of_string "0123456789*#").
Proof. destruct d as [[] [] [] [] [] [] [] []]; reflexivity. Qed.

(** C3, as the code has it. On a connected call, the first of the
    active calls, which is the one [sendDTMF] addresses, [sendDTMF] does
    not look at the characters of [digits]: it succeeds, changes nothing,
    and hands every character, in order, to [simulateDTMFTone]; those in
    the tone table sound (where there is an audio context), the others
    are passed over, and the characters after them are still sent. *)
Theorem sendDTMF_no_validation
        (digits : string) (s : Service.t) (callId : string) (r : nat)
        (others : list (string * nat)) (call : Call.t) :
  Service.activeCalls s = (callId, r) :: others ->
  Service.store s !! r = Some call ->
  Call.status call = connected ->
  let '(s', result, effects) := sendDTMF digits s in
  s' = s
  /\ Result.success result = true
  /\ Result.error result = None
  /\ Result.message result = Some ("DTMF sent: " ++ digits)
  /\ dispatched effects = list_ascii_of_string digits
  /\ sounded effects
     = filter (fun d => Service.audioContext s
                        && existsb (Ascii.eqb d)
                                   (list_ascii_of_string "0123456789*#"))
              (list_ascii_of_string digits)
  /\ In (Emit "dtmf-sent" (PDtmf (Some (Call.id call)) digits)) effects.
Proof.
  intros Ha Hs Hst. unfold sendDTMF. rewrite Ha. simpl. rewrite Hs.
  repeat split.
  - rewrite dispatched_app, dispatched_tones. simpl. apply app_nil_r.
  - rewrite sounded_app, sounded_tones. simpl. rewrite app_nil_r.
    apply list_filter_iff. intros d. rewrite dtmfFreqs_table. reflexivity.
  - apply in_app_iff. right. left. reflexivity.
Qed.

Lemma sendDTMF_no_validation_witness :
  let '(s', result, effects) := sendDTMF "1A#" Scenario.s_connected in
  s' = Scenario.s_connected
  /\ Result.success result = true
  /\ Result.error result = None
  /\ Result.message result = Some ("DTMF sent: " ++ "1A#")
  /\ dispatched effects = list_ascii_of_string "1A#"
  /\ sounded effects
     = filter (fun d => Service.audioContext Scenario.s_connected
                        && existsb (Ascii.eqb d)
                                   (list_ascii_of_string "0123456789*#"))
              (list_ascii_of_string "1A#")
  /\ In (Emit "dtmf-sent"
              (PDtmf (Some (Call.id
                              (Call.mk Scenario.id1 outbound "5551234" None
                                       (Some "alice") connected 0 (Some 3000)
                                       None 0 (Some "FLEXPBX") [])))
                     "1A#")) effects.
Proof.
  apply (sendDTMF_no_validation
           "1A#" Scenario.s_connected Scenario.id1 0%nat []
           (Call.mk Scenario.id1 outbound "5551234" None (Some "alice")
                    connected 0 (Some 3000) None 0 (Some "FLEXPBX") [])).
  - vm_compute. reflexivity.
  - vm_compute. reflexivity.
  - reflexivity.
Defined.

(** C3 as stated fails: on a connected call, [sendDTMF('1X2')] succeeds,
    all three characters are dispatched, and '1' and '2' sound. *)
Lemma sendDTMF_1X2_is_sent :
  (exists r call, getCall Scenario.id1 Scenario.s_connected = Some (r, call)
                  /\ Call.status call = connected)
  /\ let '(s', result, effects) := sendDTMF "1X2" Scenario.s_connected in
     Result.success result = true
     /\ dispatched effects = ["1"; "X"; "2"]%char
     /\ sounded effects = ["1"; "2"]%char.
Proof.
  split.
  - eexists _, _. split; [vm_compute; reflexivity|reflexivity].
  - vm_compute. repeat split; reflexivity.
Qed.

(** ** Hanging up *)

(** [hangupCall] on an id that is not active: a failure result, and
    nothing changes. *)
Lemma hangupCall_unknown callId now s :
  getCall callId s = None ->
  hangupCall callId now s = (s, Result.failure "Call not found", []).
Proof. intros H. unfold hangupCall. rewrite H. reflexivity. Qed.

(** [hangupCall] on an active call, written out. *)
Lemma hangupCall_active callId now s r call :
  getCall callId s = Some (r, call) ->
  let ended_call :=
    Call.mk (Call.id call) (Call.direction call) (Call.remoteNumber call)
            (Call.remoteName call) (Call.localNumber call) ended
            (Call.startTime call) (Call.connectTime call) (Some now)
            (match Call.connectTime call with
             | Some connectTime => now - connectTime
             | None => Call.duration call
             end)
            (Call.provider call) (Call.options call) in
  hangupCall callId now s
  = (Service.mk (Service.isConnected s) (Service.currentConfig s)
                (Service.registrationState s)
                (map_delete callId (Service.activeCalls s))
                (Service.callHistory s ++ [ended_call])
                (Service.audioContext s) false
                (<[r := ended_call]> (Service.store s))
                (Service.timers s),
     Result.mk true None None (Some callId) (Some (Call.duration ended_call)) None,
     [Emit "call-ended" (PCall ended_call)]).
Proof.
  intros H. unfold hangupCall. rewrite H.
  destruct call as [i d rn rna ln st stt [ct|] et du pr op]; reflexivity.
Qed.

Lemma getCall_after_hangup callId now s :
  getCall callId (hangupCall callId now s).1.1 = None.
Proof.
  destruct (getCall callId s) as [[r call]|] eqn:E.
  - rewrite (hangupCall_active _ now _ _ _ E). unfold getCall. simpl.
    rewrite map_get_delete_same. reflexivity.
  - rewrite (hangupCall_unknown _ now _ E). exact E.
Qed.

(** C4, as the code has it. The first [hangupCall] of an active call
    succeeds, stamps [endTime], appends one copy of the call to the
    history and removes it from the active calls. A second [hangupCall] of
    the same id, like the [hangupCall] of any id that is not active, does
    not throw but returns a failure result with the error "Call not found";
    it changes nothing, so the history gets no second entry. *)
Theorem hangupCall_twice (callId : string) (now1 now2 : Z) (s : Service.t)
        (r : nat) (call : Call.t) :
  getCall callId s = Some (r, call) ->
  let '(s1, result1, effects1) := hangupCall callId now1 s in
  let '(s2, result2, effects2) := hangupCall callId now2 s1 in
  Result.success result1 = true
  /\ Result.callId result1 = Some callId
  /\ (exists entry,
         Service.callHistory s1 = (Service.callHistory s ++ [entry])%list
         /\ Call.id entry = Call.id call
         /\ Call.status entry = ended
         /\ Call.endTime entry = Some now1)
  /\ map_get callId (Service.activeCalls s1) = None
  /\ Result.success result2 = false
  /\ Result.error result2 = Some "Call not found"
  /\ s2 = s1
  /\ Service.callHistory s2 = Service.callHistory s1
  /\ effects2 = []
  /\ (forall other now,
         getCall other s1 = None ->
         hangupCall other now s1 = (s1, Result.failure "Call not found", [])).
Proof.
  intros H.
  pose proof (getCall_after_hangup callId now1 s) as Hgone.
  rewrite (hangupCall_active _ now1 _ _ _ H) in *. simpl in Hgone.
  rewrite (hangupCall_unknown _ now2 _ Hgone).
  simpl. repeat split.
  - eexists. repeat split.
  - apply map_get_delete_same.
  - intros other now Ho. apply hangupCall_unknown. exact Ho.
Qed.

Lemma hangupCall_twice_witness :
  let '(s1, result1, effects1) :=
    hangupCall Scenario.id1 5000 Scenario.s_connected in
  let '(s2, result2, effects2) := hangupCall Scenario.id1 6000 s1 in
  Result.success result1 = true
  /\ Result.callId result1 = Some Scenario.id1
  /\ (exists entry,
         Service.callHistory s1
         = (Service.callHistory Scenario.s_connected ++ [entry])%list
         /\ Call.id entry
            = Call.id (Call.mk Scenario.id1 outbound "5551234" None
                               (Some "alice") connected 0 (Some 3000) None 0
                               (Some "FLEXPBX") [])
         /\ Call.status entry = ended
         /\ Call.endTime entry = Some 5000)
  /\ map_get Scenario.id1 (Service.activeCalls s1) = None
  /\ Result.success result2 = false
  /\ Result.error result2 = Some "Call not found"
  /\ s2 = s1
  /\ Service.callHistory s2 = Service.callHistory s1
  /\ effects2 = []
  /\ (forall other now,
         getCall other s1 = None ->
         hangupCall other now s1 = (s1, Result.failure "Call not found", [])).
Proof.
  apply (hangupCall_twice Scenario.id1 5000 6000 Scenario.s_connected 0
           (Call.mk Scenario.id1 outbound "5551234" None (Some "alice")
                    connected 0 (Some 3000) None 0 (Some "FLEXPBX") [])).
  vm_compute. reflexivity.
Defined.

(** C4 as stated fails: the second [hangupCall] of the same id reports
    [success: false]. *)
Lemma second_hangupCall_is_a_failure :
  let s1 := (hangupCall Scenario.id1 5000 Scenario.s_connected).1.1 in
  let result2 := (hangupCall Scenario.id1 6000 s1).1.2 in
  Result.success (hangupCall Scenario.id1 5000 Scenario.s_connected).1.2 = true
  /\ Result.success result2 = false
  /\ Result.error result2 = Some "Call not found"
  /\ Result.message result2 = None.
Proof. vm_compute. repeat split; reflexivity. Qed.

(** ** Placing a call on a registered service *)

(** [makeCall] on a connected service with a stored config, written out:
    no property of the number or of the calls already active is tested. *)
Lemma makeCall_connected number options randomBytes now s cfg :
  Service.isConnected s = true ->
  Service.currentConfig s = Some cfg ->
  let callId := generateCallId randomBytes in
  let call :=
    Call.mk callId outbound number None (SipConfig.username cfg) connecting
            now None None 0 (SipConfig.provider cfg) options in
  makeCall number options randomBytes now s
  = (Service.mk true (Some cfg) (Service.registrationState s)
                (map_set callId (length (Service.store s)) (Service.activeCalls s))
                (Service.callHistory s)
                (Service.audioContext s) (Service.localStream s)
                (Service.store s ++ [call])
                (Service.timers s
                   ++ [Timer.mk (now + 1000) (CbRinging (length (Service.store s)));
                       Timer.mk (now + 3000) (CbConnected (length (Service.store s)))]),
     Result.mk true None (Some ("Calling " ++ number ++ "...")) (Some callId)
               None None,
     [Emit "call-initiated" (PCall call)]).
Proof.
  intros Hc Hcfg. unfold makeCall. rewrite Hc, Hcfg. reflexivity.
Qed.

Lemma getCall_new_call callId (call : Call.t) active (store : list Call.t) s' :
  Service.activeCalls s' = map_set callId (length store) active ->
  Service.store s' = (store ++ [call])%list ->
  getCall callId s' = Some (length store, call).
Proof.
  intros Ha Hs. unfold getCall. rewrite Ha, Hs, map_get_set_same.
  rewrite lookup_app_r by lia. rewrite Nat.sub_diag. reflexivity.
Qed.

(** C5, as the code has it. [makeCall] has no limit on concurrent calls:
    on a connected service with a stored config it succeeds however many
    calls are active; the new call is active, in state [connecting], and
    when its id is new the number of active calls grows by one. *)
Theorem makeCall_no_concurrency_limit
        (number : string) (options : list (string * string))
        (randomBytes : list Byte.byte) (now : Z) (s : Service.t)
        (cfg : SipConfig.t) :
  Service.isConnected s = true ->
  Service.currentConfig s = Some cfg ->
  let '(s', result, effects) := makeCall number options randomBytes now s in
  Result.success result = true
  /\ Result.error result = None
  /\ Result.callId result = Some (generateCallId randomBytes)
  /\ (exists r call,
         getCall (generateCallId randomBytes) s' = Some (r, call)
         /\ Call.status call = connecting
         /\ Call.remoteNumber call = number)
  /\ (map_get (generateCallId randomBytes) (Service.activeCalls s) = None ->
      map_size (Service.activeCalls s') = S (map_size (Service.activeCalls s))).
Proof.
  intros Hc Hcfg.
  rewrite (makeCall_connected number options randomBytes now s cfg Hc Hcfg).
  repeat split.
  - eexists _, _. split; [|split].
    + eapply getCall_new_call; reflexivity.
    + reflexivity.
    + reflexivity.
  - simpl. apply map_size_set_fresh.
Qed.

Lemma makeCall_no_concurrency_limit_witness :
  let '(s', result, effects) :=
    makeCall "5551234" [] Scenario.bytes2 100 Scenario.s_dialing in
  Result.success result = true
  /\ Result.error result = None
  /\ Result.callId result = Some (generateCallId Scenario.bytes2)
  /\ (exists r call,
         getCall (generateCallId Scenario.bytes2) s' = Some (r, call)
         /\ Call.status call = connecting
         /\ Call.remoteNumber call = "5551234")
  /\ (map_get (generateCallId Scenario.bytes2)
              (Service.activeCalls Scenario.s_dialing) = None ->
      map_size (Service.activeCalls s')
      = S (map_size (Service.activeCalls Scenario.s_dialing))).
Proof.
  apply (makeCall_no_concurrency_limit
           "5551234" [] Scenario.bytes2 100 Scenario.s_dialing
           (sipConfig_of Scenario.alice
              (own "FlexPBX" "flexpbx.local" 5070 "UDP"
                   ["calls"; "sms"; "presence"; "conference"]))).
  - vm_compute. reflexivity.
  - vm_compute. reflexivity.
Defined.

(** C5 as stated fails: with one call already active, a second [makeCall]
    is accepted and two calls are active. *)
Lemma second_makeCall_is_accepted :
  map_size (Service.activeCalls Scenario.s_dialing) = 1%nat
  /\ let '(s', result, effects) :=
       makeCall "5551234" [] Scenario.bytes2 100 Scenario.s_dialing in
     Result.success result = true
     /\ Result.error result = None
     /\ map_size (Service.activeCalls s') = 2%nat.
Proof. vm_compute. repeat split; reflexivity. Qed.

(** C6, as the code has it. [makeCall] does not test the number: with the
    empty string, on a connected service with a stored config, it
    succeeds, returns the id of a new call, and that call is active with
    an empty [remoteNumber]. *)
Theorem makeCall_empty_number
        (options : list (string * string)) (randomBytes : list Byte.byte)
        (now : Z) (s : Service.t) (cfg : SipConfig.t) :
  Service.isConnected s = true ->
  Service.currentConfig s = Some cfg ->
  let '(s', result, effects) := makeCall "" options randomBytes now s in
  Result.success result = true
  /\ Result.error result = None
  /\ Result.message result = Some "Calling ..."
  /\ Result.callId result = Some (generateCallId randomBytes)
  /\ getCall (generateCallId randomBytes) s'
     = Some (length (Service.store s),
             Call.mk (generateCallId randomBytes) outbound "" None
                     (SipConfig.username cfg) connecting now None None 0
                     (SipConfig.provider cfg) options)
  /\ Service.store s'
     = (Service.store s
          ++ [Call.mk (generateCallId randomBytes) outbound "" None
                      (SipConfig.username cfg) connecting now None None 0
                      (SipConfig.provider cfg) options])%list.
Proof.
  intros Hc Hcfg.
  rewrite (makeCall_connected "" options randomBytes now s cfg Hc Hcfg).
  repeat split. eapply getCall_new_call; reflexivity.
Qed.

Lemma makeCall_empty_number_witness :
  let cfg :=
    sipConfig_of Scenario.alice
      (own "FlexPBX" "flexpbx.local" 5070 "UDP"
           ["calls"; "sms"; "presence"; "conference"]) in
  let '(s', result, effects) :=
    makeCall "" [] Scenario.bytes1 0 Scenario.s_registered in
  Result.success result = true
  /\ Result.error result = None
  /\ Result.message result = Some "Calling ..."
  /\ Result.callId result = Some (generateCallId Scenario.bytes1)
  /\ getCall (generateCallId Scenario.bytes1) s'
     = Some (length (Service.store Scenario.s_registered),
             Call.mk (generateCallId Scenario.bytes1) outbound "" None
                     (SipConfig.username cfg) connecting 0 None None 0
                     (SipConfig.provider cfg) [])
  /\ Service.store s'
     = (Service.store Scenario.s_registered
          ++ [Call.mk (generateCallId Scenario.bytes1) outbound "" None
                      (SipConfig.username cfg) connecting 0 None None 0
                      (SipConfig.provider cfg) []])%list.
Proof.
  apply (makeCall_empty_number [] Scenario.bytes1 0 Scenario.s_registered
           (sipConfig_of Scenario.alice
              (own "FlexPBX" "flexpbx.local" 5070 "UDP"
                   ["calls"; "sms"; "presence"; "conference"]))).
  - vm_compute. reflexivity.
  - vm_compute. reflexivity.
Defined.

(** C6 as stated fails: the empty number is accepted and a call exists. *)
Lemma empty_number_is_accepted :
  let '(s', result, effects) :=
    makeCall "" [] Scenario.bytes1 0 Scenario.s_registered in
  Result.success result = true
  /\ Result.error result = None
  /\ Result.callId result = Some Scenario.id1
  /\ map_size (Service.activeCalls Scenario.s_registered) = 0%nat
  /\ map_size (Service.activeCalls s') = 1%nat
  /\ (Call.remoteNumber <$> Service.store s' !! 0%nat) = Some "".
Proof. vm_compute. repeat split; reflexivity. Qed.

(** ** Connecting *)

(** What [validateConfig] rejects: a missing or empty provider, a provider
    key that the table does not answer, a missing or empty user name or
    password, and the CUSTOM provider without a server. *)
Lemma validateConfig_rejects_iff (config : Config.t) :
  Validation.valid (validateConfig config) = false
  <-> truthy_str (Config.provider config) = false
      \/ getProvider (Config.provider config) = None
      \/ truthy_str (Config.username config) = false
      \/ truthy_str (Config.password config) = false
      \/ (Config.provider config = Some "CUSTOM"
          /\ truthy_str (Config.server config) = false).
Proof.
  unfold validateConfig.
  destruct (truthy_str (Config.provider config)) eqn:Ep; simpl; [|tauto].
  destruct (getProvider (Config.provider config)) as [p|] eqn:Eg; simpl;
    [|tauto].
  destruct (truthy_str (Config.username config)) eqn:Eu; simpl; [|tauto].
  destruct (truthy_str (Config.password config)) eqn:Ew; simpl; [|tauto].
  destruct (Config.provider config) as [k|] eqn:Ek; [|discriminate].
  destruct (String.eqb k "CUSTOM") eqn:Ec; simpl.
  - apply String.eqb_eq in Ec. subst k.
    destruct (truthy_str (Config.server config)); simpl.
    + split; [discriminate|]. intros [H|[H|[H|[H|[_ H]]]]]; discriminate.
    + split; [|reflexivity]. intros _. do 4 right. split; reflexivity.
  - split; [discriminate|].
    intros [H|[H|[H|[H|[H _]]]]]; try discriminate.
    injection H as ->. rewrite String.eqb_refl in Ec. discriminate.
Qed.

(** A rejected config always comes with an error text. *)
Lemma validateConfig_error (config : Config.t) :
  Validation.valid (validateConfig config) = false ->
  exists reason, Validation.error (validateConfig config) = Some reason.
Proof.
  unfold validateConfig. repeat case_match; simpl; eauto; discriminate.
Qed.

(** C7, as the code has it. For a config that [validateConfig] rejects,
    [connect] returns at once a failure result whose error is
    "Invalid config: " followed by the reason; the current config, the
    active calls, the history, the call objects and the timers are what
    they were, while the [catch] block sets [isConnected] to false and the
    registration state to [failed] and emits [connection-failed]. *)
Theorem connect_rejected_config (config : Config.t) (s : Service.t) :
  Validation.valid (validateConfig config) = false ->
  let '(s', result, effects) := connect config s in
  Result.success result = false
  /\ (exists reason,
         Validation.error (validateConfig config) = Some reason
         /\ Result.error result = Some ("Invalid config: " ++ reason)
         /\ effects = [Emit "connection-failed"
                            (PError ("Invalid config: " ++ reason))])
  /\ Result.config result = None
  /\ Service.currentConfig s' = Service.currentConfig s
  /\ Service.activeCalls s' = Service.activeCalls s
  /\ Service.callHistory s' = Service.callHistory s
  /\ Service.store s' = Service.store s
  /\ Service.timers s' = Service.timers s
  /\ Service.isConnected s' = false
  /\ Service.registrationState s' = failed.
Proof.
  intros Hv. destruct (validateConfig_error config Hv) as [reason Hr].
  unfold connect, connect_begin. rewrite Hv. simpl. rewrite Hr. simpl.
  repeat split. exists reason. repeat split.
Qed.

Lemma connect_rejected_config_witness :
  let '(s', result, effects) := connect Scenario.anonymous initial in
  Result.success result = false
  /\ (exists reason,
         Validation.error (validateConfig Scenario.anonymous) = Some reason
         /\ Result.error result = Some ("Invalid config: " ++ reason)
         /\ effects = [Emit "connection-failed"
                            (PError ("Invalid config: " ++ reason))])
  /\ Result.config result = None
  /\ Service.currentConfig s' = Service.currentConfig initial
  /\ Service.activeCalls s' = Service.activeCalls initial
  /\ Service.callHistory s' = Service.callHistory initial
  /\ Service.store s' = Service.store initial
  /\ Service.timers s' = Service.timers initial
  /\ Service.isConnected s' = false
  /\ Service.registrationState s' = failed.
Proof.
  apply (connect_rejected_config Scenario.anonymous initial).
  vm_compute. reflexivity.
Defined.

(** C7 as stated fails: a rejected [connect] on a fresh service moves the
    registration state from [unregistered] to [failed], and on a
    registered service it drops the connection. *)
Lemma rejected_connect_changes_registration_state :
  Validation.valid (validateConfig Scenario.anonymous) = false
  /\ Service.registrationState initial = unregistered
  /\ Service.registrationState (connect Scenario.anonymous initial).1.1 = failed
  /\ Service.isConnected Scenario.s_registered = true
  /\ Service.isConnected
       (connect Scenario.anonymous Scenario.s_registered).1.1 = false.
Proof. vm_compute. repeat split; reflexivity. Qed.

(** However the service got to the resumption of a [connect], the
    resumption registers it. *)
Lemma connect_finish_registers (k : SipConfig.t * Provider.t) (s : Service.t) :
  let '(s', result, effects) := connect_finish k s in
  Service.isConnected s' = true
  /\ Service.registrationState s' = registered
  /\ Result.success result = true.
Proof. destruct k as [c p]. simpl. repeat split. Qed.

Lemma map_get_In_entry {V : Type} (k : string) (m : list (string * V))
      (v : V) :
  map_get k m = Some v -> In (k, v) m.
Proof.
  induction m as [|[k' v'] m IH]; simpl; [discriminate|].
  destruct (String.eqb k k') eqn:E.
  - apply String.eqb_eq in E. subst k'. intros [= ->]. now left.
  - intros H. right. exact (IH H).
Qed.

(** [connect] with listeners that do not throw is [connect]. *)
Lemma connect_with_quiet (config : Config.t) (s : Service.t) :
  connect_with quiet config s
  = let '(s', r, e) := connect config s in (s', Returned r, e).
Proof.
  unfold connect_with, connect.
  destruct (connect_begin config s) as [s' [[r e]|[c p]]]; reflexivity.
Qed.

(** C10, as the code has it. For a config that [validateConfig] accepts:
    the config names a provider that is filed in the table (or inherited
    by it), and the effective config takes server, port and transport
    from the user where they are given and not empty (not zero for the
    port) and from the provider's preset otherwise. [connect] stores the
    effective config and waits; the wait itself never fails. When
    [connect] resumes, in whatever state [s2] the operations that ran
    during the wait have left, it keeps the stored config of [s2] as it
    is, and
    - if no listener of [connected] throws, it sets [isConnected] and
      [registered] and returns a success carrying the effective config,
      with no [connection-failed] event;
    - if a listener of [connected] throws, the [catch] block runs: the
      service ends not connected and [failed], and [connection-failed]
      is emitted with the listener's message.
    With no listener of [connected] throwing and nothing run during the
    wait, the stored config at the end is the effective one. *)
Theorem connect_accepted_config
        (throws : Listeners) (config : Config.t) (s : Service.t) :
  Validation.valid (validateConfig config) = true ->
  exists key provider effective,
    Config.provider config = Some key
    /\ (In (key, provider) sipProviders
        \/ In (key, provider) objectPrototype)
    /\ (forall x, Config.server config = Some x -> x <> "" ->
                  SipConfig.server effective = Some x)
    /\ (Config.server config = None \/ Config.server config = Some "" ->
        SipConfig.server effective = Provider.defaultServer provider)
    /\ (forall n, Config.port config = Some n -> n <> 0 ->
                  SipConfig.port effective = Some n)
    /\ (Config.port config = None \/ Config.port config = Some 0 ->
        SipConfig.port effective = Provider.defaultPort provider)
    /\ (forall x, Config.transport config = Some x -> x <> "" ->
                  SipConfig.transport effective = Some x)
    /\ (Config.transport config = None
        \/ Config.transport config = Some "" ->
        SipConfig.transport effective = Provider.transport provider)
    /\ SipConfig.provider effective = Some key
    /\ SipConfig.username effective = Config.username config
    /\ SipConfig.password effective = Config.password config
    /\ SipConfig.features effective = Provider.features provider
    /\ (exists s1,
          connect_begin config s = (s1, inr (effective, provider))
          /\ Service.currentConfig s1 = Some effective
          /\ Service.isConnected s1 = Service.isConnected s
          /\ Service.registrationState s1 = Service.registrationState s
          /\ Service.activeCalls s1 = Service.activeCalls s
          /\ Service.callHistory s1 = Service.callHistory s)
    /\ (forall s2,
          let '(s', outcome, effects) :=
            connect_finish_with throws (effective, provider) s2 in
          Service.currentConfig s' = Service.currentConfig s2
          /\ Service.activeCalls s' = Service.activeCalls s2
          /\ Service.callHistory s' = Service.callHistory s2
          /\ match throws "connected" with
             | None =>
                 (exists result,
                    outcome = Returned result
                    /\ Result.success result = true
                    /\ Result.error result = None
                    /\ Result.config result = Some effective)
                 /\ Service.isConnected s' = true
                 /\ Service.registrationState s' = registered
                 /\ (forall payload,
                       ~ In (Emit "connection-failed" payload) effects)
             | Some msg =>
                 Service.isConnected s' = false
                 /\ Service.registrationState s' = failed
                 /\ In (Emit "connection-failed" (PError msg)) effects
                 /\ (throws "connection-failed" = None ->
                     outcome = Returned (Result.failure msg))
             end)
    /\ (throws "connected" = None ->
        let '(s', outcome, effects) := connect_with throws config s in
        (exists result,
           outcome = Returned result
           /\ Result.success result = true
           /\ Result.config result = Some effective)
        /\ Service.isConnected s' = true
        /\ Service.registrationState s' = registered
        /\ Service.currentConfig s' = Some effective
        /\ (forall payload,
              ~ In (Emit "connection-failed" payload) effects)).
Proof.
  intros Hv.
  assert (Hk : exists key, Config.provider config = Some key).
  { destruct (Config.provider config) as [key|] eqn:Ek; [eauto|].
    assert (Hf : Validation.valid (validateConfig config) = false).
    { apply validateConfig_rejects_iff. left. rewrite Ek. reflexivity. }
    congruence. }
  destruct Hk as [key Hk].
  assert (Hg : exists p, getProvider (Config.provider config) = Some p).
  { destruct (getProvider (Config.provider config)) as [p|] eqn:Eg; [eauto|].
    assert (Hf : Validation.valid (validateConfig config) = false).
    { apply validateConfig_rejects_iff. tauto. }
    congruence. }
  destruct Hg as [p Hp].
  exists key, p, (sipConfig_of config p).
  split; [exact Hk|]. split.
  { rewrite Hk in Hp. unfold getProvider in Hp.
    destruct (map_get key sipProviders) as [p'|] eqn:Eown.
    - left. injection Hp as <-. exact (map_get_In_entry _ _ _ Eown).
    - right. exact (map_get_In_entry _ _ _ Hp). }
  assert (Hs : forall (a b : option string) x,
             a = Some x -> x <> "" -> or_str a b = Some x).
  { intros a b x -> Hx. unfold or_str, truthy_str.
    destruct (String.eqb x "") eqn:E; [|reflexivity].
    apply String.eqb_eq in E. contradiction. }
  assert (Hs' : forall (a b : option string),
             a = None \/ a = Some "" -> or_str a b = b).
  { intros a b [-> | ->]; reflexivity. }
  assert (Hn : forall (a b : option Z) n,
             a = Some n -> n <> 0 -> or_num a b = Some n).
  { intros a b n -> Hx. unfold or_num, truthy_num.
    destruct (Z.eqb n 0) eqn:E; [|reflexivity].
    apply Z.eqb_eq in E. contradiction. }
  assert (Hn' : forall (a b : option Z),
             a = None \/ a = Some 0 -> or_num a b = b).
  { intros a b [-> | ->]; reflexivity. }
  assert (Hb : connect_begin config s
               = (Service.mk (Service.isConnected s)
                             (Some (sipConfig_of config p))
                             (Service.registrationState s)
                             (Service.activeCalls s) (Service.callHistory s)
                             (Service.audioContext s) (Service.localStream s)
                             (Service.store s) (Service.timers s),
                  inr (sipConfig_of config p, p))).
  { unfold connect_begin. rewrite Hv, Hp. reflexivity. }
  split; [intros x; apply Hs|]. split; [apply Hs'|].
  split; [intros n; apply Hn|]. split; [apply Hn'|].
  split; [intros x; apply Hs|]. split; [apply Hs'|].
  split; [exact Hk|]. do 3 (split; [reflexivity|]).
  split; [eexists; split; [exact Hb|]; repeat split|].
  split.
  - intros s2. unfold connect_finish_with, connect_catch_with. simpl.
    destruct (throws "connected") as [msg|] eqn:Ec.
    + destruct (throws "connection-failed") as [msg'|] eqn:Ef; simpl;
        repeat split; auto; discriminate.
    + repeat split.
      * eexists. repeat split.
      * intros payload [H|[]]. discriminate.
  - intros Ec. unfold connect_with. rewrite Hb.
    unfold connect_finish_with. simpl. rewrite Ec.
    repeat split.
    + eexists. repeat split.
    + intros payload [H|[]]. discriminate.
Qed.

Lemma connect_accepted_config_witness :
  exists key provider effective,
    Config.provider Scenario.alice = Some key
    /\ (In (key, provider) sipProviders
        \/ In (key, provider) objectPrototype)
    /\ (forall x, Config.server Scenario.alice = Some x -> x <> "" ->
                  SipConfig.server effective = Some x)
    /\ (Config.server Scenario.alice = None
        \/ Config.server Scenario.alice = Some "" ->
        SipConfig.server effective = Provider.defaultServer provider)
    /\ (forall n, Config.port Scenario.alice = Some n -> n <> 0 ->
                  SipConfig.port effective = Some n)
    /\ (Config.port Scenario.alice = None
        \/ Config.port Scenario.alice = Some 0 ->
        SipConfig.port effective = Provider.defaultPort provider)
    /\ (forall x, Config.transport Scenario.alice = Some x -> x <> "" ->
                  SipConfig.transport effective = Some x)
    /\ (Config.transport Scenario.alice = None
        \/ Config.transport Scenario.alice = Some "" ->
        SipConfig.transport effective = Provider.transport provider)
    /\ SipConfig.provider effective = Some key
    /\ SipConfig.username effective = Config.username Scenario.alice
    /\ SipConfig.password effective = Config.password Scenario.alice
    /\ SipConfig.features effective = Provider.features provider
    /\ (exists s1,
          connect_begin Scenario.alice initial
          = (s1, inr (effective, provider))
          /\ Service.currentConfig s1 = Some effective
          /\ Service.isConnected s1 = Service.isConnected initial
          /\ Service.registrationState s1 = Service.registrationState initial
          /\ Service.activeCalls s1 = Service.activeCalls initial
          /\ Service.callHistory s1 = Service.callHistory initial)
    /\ (forall s2,
          let '(s', outcome, effects) :=
            connect_finish_with quiet (effective, provider) s2 in
          Service.currentConfig s' = Service.currentConfig s2
          /\ Service.activeCalls s' = Service.activeCalls s2
          /\ Service.callHistory s' = Service.callHistory s2
          /\ match quiet "connected" with
             | None =>
                 (exists result,
                    outcome = Returned result
                    /\ Result.success result = true
                    /\ Result.error result = None
                    /\ Result.config result = Some effective)
                 /\ Service.isConnected s' = true
                 /\ Service.registrationState s' = registered
                 /\ (forall payload,
                       ~ In (Emit "connection-failed" payload) effects)
             | Some msg =>
                 Service.isConnected s' = false
                 /\ Service.registrationState s' = failed
                 /\ In (Emit "connection-failed" (PError msg)) effects
                 /\ (quiet "connection-failed" = None ->
                     outcome = Returned (Result.failure msg))
             end)
    /\ (quiet "connected" = None ->
        let '(s', outcome, effects) :=
          connect_with quiet Scenario.alice initial in
        (exists result,
           outcome = Returned result
           /\ Result.success result = true
           /\ Result.config result = Some effective)
        /\ Service.isConnected s' = true
        /\ Service.registrationState s' = registered
        /\ Service.currentConfig s' = Some effective
        /\ (forall payload,
              ~ In (Emit "connection-failed" payload) effects)).
Proof.
  apply (connect_accepted_config quiet Scenario.alice initial).
  vm_compute. reflexivity.
Defined.

(** C10 as stated fails. The config [alice] is valid, and
    - with a listener of [connected] that throws, [connect] reaches its
      [catch] block: it returns a failure, emits [connection-failed], and
      leaves the service not connected and [failed];
    - with listeners that do not throw, a [disconnect] of the previous
      registration that runs during the wait clears the stored config:
      [connect] returns a success and the service is [registered], with
      no config stored. *)
Lemma accepted_connect_can_fail :
  Validation.valid (validateConfig Scenario.alice) = true
  /\ (let '(s', outcome, effects) :=
        connect_with Scenario.window_destroyed Scenario.alice initial in
      outcome = Returned (Result.failure "Object has been destroyed")
      /\ In (Emit "connection-failed" (PError "Object has been destroyed"))
            effects
      /\ Service.isConnected s' = false
      /\ Service.registrationState s' = failed)
  /\ (exists s1 k,
        connect_begin Scenario.alice Scenario.s_registered = (s1, inr k)
        /\ let s2 := (disconnect 10 s1).1.1 in
           let '(s', outcome, effects) := connect_finish_with quiet k s2 in
           (exists result,
              outcome = Returned result /\ Result.success result = true)
           /\ Service.registrationState s' = registered
           /\ Service.currentConfig s' = None).
Proof.
  split; [vm_compute; reflexivity|]. split.
  - vm_compute. repeat split. right. left. reflexivity.
  - eexists. eexists. split; [vm_compute; reflexivity|].
    vm_compute. repeat split. eexists. split; reflexivity.
Qed.

(** ** Answering *)

Lemma getCall_Some callId s r call :
  getCall callId s = Some (r, call) ->
  map_get callId (Service.activeCalls s) = Some r
  /\ Service.store s !! r = Some call.
Proof.
  unfold getCall. destruct (map_get callId (Service.activeCalls s)) as [r0|];
    [|discriminate].
  destruct (Service.store s !! r0) as [c0|] eqn:E; [|discriminate].
  intros [= <- <-]. split; [reflexivity|exact E].
Qed.

(** [answerCall] on a ringing call, written out. *)
Lemma answerCall_ringing callId media now s r call :
  getCall callId s = Some (r, call) ->
  Call.status call = ringing ->
  let call' :=
    Call.mk (Call.id call) (Call.direction call) (Call.remoteNumber call)
            (Call.remoteName call) (Call.localNumber call) connected
            (Call.startTime call) (Some now) (Call.endTime call)
            (Call.duration call) (Call.provider call) (Call.options call) in
  answerCall callId media now s
  = (Service.mk (Service.isConnected s) (Service.currentConfig s)
                (Service.registrationState s)
                (Service.activeCalls s) (Service.callHistory s)
                (Service.audioContext s)
                (match media with
                 | Some true => true
                 | _ => Service.localStream s
                 end)
                (<[r := call']> (Service.store s))
                (Service.timers s),
     Result.mk true None (Some "Call answered") (Some callId) None None,
     [Emit "call-answered" (PCall call')]).
Proof.
  intros H Hst. unfold answerCall. rewrite H, Hst. reflexivity.
Qed.

Lemma answerCall_not_ringing callId media now s r call :
  getCall callId s = Some (r, call) ->
  Call.status call <> ringing ->
  answerCall callId media now s
  = (s, Result.failure ("Cannot answer call in state: "
                          ++ status_text (Call.status call)), []).
Proof.
  intros H Hst. unfold answerCall. rewrite H.
  destruct (Call.status call); try reflexivity. congruence.
Qed.

Lemma answerCall_unknown callId media now s :
  getCall callId s = None ->
  answerCall callId media now s = (s, Result.failure "Call not found", []).
Proof. intros H. unfold answerCall. rewrite H. reflexivity. Qed.

(** *** Which steps write [connectTime] *)

Lemma connectTime_kept_refl s : connectTime_kept s s.
Proof. intros r c H. eauto. Qed.

Lemma connectTime_kept_trans s1 s2 s3 :
  connectTime_kept s1 s2 -> connectTime_kept s2 s3 -> connectTime_kept s1 s3.
Proof.
  intros H12 H23 r c H.
  destruct (H12 r c H) as (c2 & Hc2 & E2).
  destruct (H23 r c2 Hc2) as (c3 & Hc3 & E3).
  exists c3. split; [exact Hc3|congruence].
Qed.

Lemma connectTime_kept_store s s' :
  Service.store s' = Service.store s -> connectTime_kept s s'.
Proof. intros E r c H. rewrite E. eauto. Qed.

Lemma connectTime_kept_grow s s' call :
  Service.store s' = (Service.store s ++ [call])%list -> connectTime_kept s s'.
Proof.
  intros E r c H. rewrite E. exists c. split; [|reflexivity].
  apply lookup_app_l_Some. exact H.
Qed.

(** Overwriting one object by one with the same connect time. *)
Lemma connectTime_kept_insert s s' r0 c0 c0' :
  Service.store s !! r0 = Some c0 ->
  Call.connectTime c0' = Call.connectTime c0 ->
  Service.store s' = <[r0 := c0']> (Service.store s) ->
  connectTime_kept s s'.
Proof.
  intros H0 Hct E r c H. rewrite E.
  destruct (decide (r = r0)) as [->|Hne].
  - exists c0'. split.
    + apply list_lookup_insert_eq. eapply lookup_lt_Some. exact H0.
    + congruence.
  - exists c. split; [|reflexivity].
    rewrite list_lookup_insert_ne by congruence. exact H.
Qed.

Lemma hangupCall_connectTime_kept callId now s :
  connectTime_kept s (hangupCall callId now s).1.1.
Proof.
  destruct (getCall callId s) as [[r0 call]|] eqn:E.
  - rewrite (hangupCall_active _ now _ _ _ E).
    apply getCall_Some in E. destruct E as [_ E].
    eapply connectTime_kept_insert; [exact E| |reflexivity]. reflexivity.
  - rewrite (hangupCall_unknown _ now _ E). apply connectTime_kept_refl.
Qed.

Lemma hangupAll_connectTime_kept callIds now s :
  connectTime_kept s (hangupAll callIds now s).1.
Proof.
  revert s. induction callIds as [|callId rest IH]; intros s; simpl.
  - apply connectTime_kept_refl.
  - pose proof (hangupCall_connectTime_kept callId now s) as H1.
    destruct (hangupCall callId now s) as [[s1 r1] e1]. simpl in H1.
    pose proof (IH s1) as H2.
    destruct (hangupAll rest now s1) as [s2 e2]. simpl in *.
    eapply connectTime_kept_trans; eassumption.
Qed.

Lemma mutate_lookup r0 f s r :
  Service.store (mutate r0 f s) !! r
  = if decide (r = r0) then f <$> Service.store s !! r
    else Service.store s !! r.
Proof.
  unfold mutate. destruct (Service.store s !! r0) as [c0|] eqn:E; simpl.
  - destruct (decide (r = r0)) as [->|Hne].
    + rewrite list_lookup_insert_eq by (eapply lookup_lt_Some; exact E).
      rewrite E. reflexivity.
    + rewrite list_lookup_insert_ne by congruence. reflexivity.
  - destruct (decide (r = r0)) as [->|Hne]; [|reflexivity].
    rewrite E. reflexivity.
Qed.

Lemma mutate_connectTime_kept r0 f s :
  (forall c, Call.connectTime (f c) = Call.connectTime c) ->
  connectTime_kept s (mutate r0 f s).
Proof.
  intros Hf r c H. rewrite mutate_lookup.
  destruct (decide (r = r0)) as [->|Hne].
  - rewrite H. simpl. eauto.
  - eauto.
Qed.

Lemma dropTimer_connectTime_kept i s : connectTime_kept s (dropTimer i s).
Proof. apply connectTime_kept_store. reflexivity. Qed.

(** A step that keeps connect times cannot be seen to change one. *)
Lemma connectTime_kept_same s s' r c c' :
  connectTime_kept s s' ->
  Service.store s !! r = Some c ->
  Service.store s' !! r = Some c' ->
  Call.connectTime c' = Call.connectTime c.
Proof.
  intros K H H'. destruct (K r c H) as (c2 & Hc2 & E). congruence.
Qed.

Lemma disconnect_connectTime_kept now s :
  connectTime_kept s (disconnect now s).1.1.
Proof.
  unfold disconnect. destruct (Service.isConnected s); simpl.
  - pose proof (hangupAll_connectTime_kept
                  (map_keys (Service.activeCalls s)) now s) as K.
    destruct (hangupAll _ now s) as [s1 e1]. simpl in *.
    eapply connectTime_kept_trans; [exact K|].
    apply connectTime_kept_store. reflexivity.
  - apply connectTime_kept_refl.
Qed.

Lemma makeCall_connectTime_kept number options randomBytes now s :
  connectTime_kept s (makeCall number options randomBytes now s).1.1.
Proof.
  unfold makeCall. destruct (Service.isConnected s); simpl;
    [|apply connectTime_kept_refl].
  destruct (Service.currentConfig s); simpl; [|apply connectTime_kept_refl].
  eapply connectTime_kept_grow. reflexivity.
Qed.

Lemma simulateIncomingCall_connectTime_kept fromNumber fromName randomBytes now s :
  connectTime_kept s
    (simulateIncomingCall fromNumber fromName randomBytes now s).1.1.
Proof.
  unfold simulateIncomingCall.
  destruct (Service.currentConfig s); simpl; [|apply connectTime_kept_refl].
  eapply connectTime_kept_grow. reflexivity.
Qed.

Lemma sendDTMF_connectTime_kept digits s :
  connectTime_kept s (sendDTMF digits s).1.1.
Proof.
  unfold sendDTMF. destruct (Nat.eqb _ _); apply connectTime_kept_refl.
Qed.

Lemma exec_connect_begin_store config s :
  Service.store (exec (OpConnectBegin config) s).1 = Service.store s.
Proof.
  simpl. unfold connect_begin, connect_catch.
  destruct (negb (Validation.valid (validateConfig config))); [reflexivity|].
  destruct (getProvider (Config.provider config)); reflexivity.
Qed.

Lemma exec_connectTime_written (op : Op) (s : Service.t) (r : nat)
      (c c' : Call.t) :
  Service.store s !! r = Some c ->
  Service.store (exec op s).1 !! r = Some c' ->
  Call.connectTime c' <> Call.connectTime c ->
  Call.status c' = connected
  /\ exists now,
       Call.connectTime c' = Some now
       /\ op_time op = Some now
       /\ ((exists callId media, op = OpAnswerCall callId media now)
           \/ (exists i timer,
                  op = OpFireTimer i now
                  /\ Service.timers s !! i = Some timer
                  /\ Timer.callback timer = CbConnected r)).
Proof.
  intros H H' Hne.
  assert (Kept : forall s', connectTime_kept s s' ->
                            Service.store s' !! r = Some c' -> False).
  { intros s' K Hs'. apply Hne. eapply connectTime_kept_same; eassumption. }
  destruct op; simpl in H'.
  - exfalso. revert H'. apply Kept. apply connectTime_kept_store.
    unfold initialize. destruct hasAudioContext; reflexivity.
  - exfalso. revert H'. apply Kept. apply connectTime_kept_store.
    apply exec_connect_begin_store.
  - exfalso. revert H'. destruct k as [cfg p]. apply Kept.
    apply connectTime_kept_store. reflexivity.
  - exfalso. pose proof (disconnect_connectTime_kept now s) as K.
    destruct (disconnect now s) as [[s1 r1] e1]. exact (Kept s1 K H').
  - exfalso.
    pose proof (makeCall_connectTime_kept number options randomBytes now s) as K.
    destruct (makeCall number options randomBytes now s) as [[s1 r1] e1].
    exact (Kept s1 K H').
  - destruct (getCall callId s) as [[r0 call]|] eqn:E.
    + destruct (decide (Call.status call = ringing)) as [Hst|Hst].
      * rewrite (answerCall_ringing _ media now _ _ _ E Hst) in H'.
        simpl in H'. apply getCall_Some in E. destruct E as [_ E].
        destruct (decide (r = r0)) as [->|Hr].
        -- rewrite list_lookup_insert_eq in H'
             by (eapply lookup_lt_Some; exact E).
           injection H' as <-. simpl. split; [reflexivity|].
           exists now. repeat split. left. eauto.
        -- rewrite list_lookup_insert_ne in H' by congruence.
           exfalso. apply Hne. congruence.
      * rewrite (answerCall_not_ringing _ media now _ _ _ E Hst) in H'.
        exfalso. revert H'. apply Kept, connectTime_kept_refl.
    + rewrite (answerCall_unknown _ media now _ E) in H'.
      exfalso. revert H'. apply Kept, connectTime_kept_refl.
  - exfalso. revert H'.
    pose proof (hangupCall_connectTime_kept callId now s) as K.
    destruct (hangupCall callId now s) as [[s1 r1] e1]. apply Kept. exact K.
  - exfalso. pose proof (sendDTMF_connectTime_kept digits s) as K.
    destruct (sendDTMF digits s) as [[s1 r1] e1]. exact (Kept s1 K H').
  - exfalso.
    pose proof (simulateIncomingCall_connectTime_kept
                  fromNumber fromName randomBytes now s) as K.
    destruct (simulateIncomingCall fromNumber fromName randomBytes now s)
      as [[s1 r1] e1].
    exact (Kept s1 K H').
  - unfold fireTimer in H'.
    destruct (Service.timers s !! i) as [timer|] eqn:Et;
      [|exfalso; revert H'; apply Kept, connectTime_kept_refl].
    destruct (Z.leb (Timer.due timer) now);
      [|exfalso; revert H'; apply Kept, connectTime_kept_refl].
    destruct (Timer.callback timer) as [r0|r0|callId r0] eqn:Ecb; simpl in H'.
    + exfalso. revert H'. apply Kept.
      eapply connectTime_kept_trans; [apply (dropTimer_connectTime_kept i)|].
      apply mutate_connectTime_kept. reflexivity.
    + rewrite mutate_lookup in H'. simpl in H'.
      destruct (decide (r = r0)) as [->|Hr].
      * rewrite H in H'. injection H' as <-. simpl. split; [reflexivity|].
        exists now. repeat split. right. exists i, timer. repeat split.
        -- exact Et.
        -- exact Ecb.
      * exfalso. apply Hne. congruence.
    + exfalso. revert H'. case_match.
      * pose proof (hangupCall_connectTime_kept callId now (dropTimer i s)) as K.
        destruct (hangupCall callId now (dropTimer i s)) as [[s1 r1] e1].
        apply Kept.
        eapply connectTime_kept_trans; [apply (dropTimer_connectTime_kept i)|].
        exact K.
      * apply Kept, dropTimer_connectTime_kept.
  - exfalso. revert H'. apply Kept. apply connectTime_kept_store. reflexivity.
Qed.

(** C8, as the code has it. [answerCall] succeeds exactly when the id
    names an active call that is [ringing]. Otherwise it returns a failure
    result, "Call not found" for an id that is not active and "Cannot
    answer call in state: ..." for a call in another state, and changes
    nothing. On success the call is [connected] and its [connectTime] is
    the time of the answer; the other fields of the call, the active calls
    and the history are what they were. A step of the service gives a call
    a different [connectTime] only by making it [connected] at the time of
    the step, and the only such steps are a successful [answerCall] and
    the second timer of [simulateCallConnection] on that call. *)
Theorem answerCall_requires_ringing
        (callId : string) (media : option bool) (now : Z) (s : Service.t) :
  let '(s', result, effects) := answerCall callId media now s in
  (Result.success result = true
   <-> exists r call, getCall callId s = Some (r, call)
                      /\ Call.status call = ringing)
  /\ (Result.success result = false ->
      s' = s /\ effects = []
      /\ Result.error result
         = Some (match getCall callId s with
                 | None => "Call not found"
                 | Some (_, call) =>
                     "Cannot answer call in state: "
                       ++ status_text (Call.status call)
                 end))
  /\ (Result.success result = true ->
      exists r call,
        getCall callId s = Some (r, call)
        /\ getCall callId s'
           = Some (r, Call.set_connectTime (Some now)
                        (Call.set_status connected call))
        /\ Service.activeCalls s' = Service.activeCalls s
        /\ Service.callHistory s' = Service.callHistory s
        /\ Result.callId result = Some callId)
  /\ (forall op r c c',
         Service.store s !! r = Some c ->
         Service.store (exec op s).1 !! r = Some c' ->
         Call.connectTime c' <> Call.connectTime c ->
         Call.status c' = connected
         /\ exists t,
              Call.connectTime c' = Some t
              /\ op_time op = Some t
              /\ ((exists callId' media', op = OpAnswerCall callId' media' t)
                  \/ (exists i timer,
                         op = OpFireTimer i t
                         /\ Service.timers s !! i = Some timer
                         /\ Timer.callback timer = CbConnected r))).
Proof.
  destruct (getCall callId s) as [[r0 call]|] eqn:E.
  - destruct (decide (Call.status call = ringing)) as [Hst|Hst].
    + rewrite (answerCall_ringing _ media now _ _ _ E Hst). simpl.
      split; [|split; [|split]].
      * split; [eauto|reflexivity].
      * discriminate.
      * intros _. exists r0, call. split; [reflexivity|].
        pose proof (getCall_Some _ _ _ _ E) as [Hm Hs].
        split; [|repeat split].
        unfold getCall. simpl. rewrite Hm.
        rewrite list_lookup_insert_eq by (eapply lookup_lt_Some; exact Hs).
        reflexivity.
      * intros op r c c'. apply exec_connectTime_written.
    + rewrite (answerCall_not_ringing _ media now _ _ _ E Hst). simpl.
      split; [|split; [|split]].
      * split; [discriminate|]. intros (r & call' & [= <- <-] & Hr). congruence.
      * intros _. repeat split.
      * discriminate.
      * intros op r c c'. apply exec_connectTime_written.
  - rewrite (answerCall_unknown _ media now _ E). simpl.
    split; [|split; [|split]].
    + split; [discriminate|]. intros (r & call' & [=] & _).
    + intros _. repeat split.
    + discriminate.
    + intros op r c c'. apply exec_connectTime_written.
Qed.

(** C8 as stated fails. An outbound call is placed at 0 and rings at
    1000; [answerCall] at 2000 succeeds and stamps [connectTime] 2000; the
    second timer of [simulateCallConnection] fires at 3000 and stamps it
    again. On the run without the answer the timer alone connects the
    call, so [connectTime] is set where no [answerCall] was made. *)
Lemma connectTime_written_by_timer :
  (Call.connectTime <$> Service.store Scenario.s_ringing !! 0%nat) = Some None
  /\ Result.success (answerCall Scenario.id1 None 2000 Scenario.s_ringing).1.2
     = true
  /\ (Call.connectTime <$> Service.store Scenario.s_answered !! 0%nat)
     = Some (Some 2000)
  /\ Scenario.s_answered_then_timer = (fireTimer 0 3000 Scenario.s_answered).1
  /\ (Call.connectTime <$> Service.store Scenario.s_answered_then_timer !! 0%nat)
     = Some (Some 3000)
  /\ Scenario.s_connected = (fireTimer 0 3000 Scenario.s_ringing).1
  /\ (Call.connectTime <$> Service.store Scenario.s_connected !! 0%nat)
     = Some (Some 3000)
  /\ (Call.status <$> Service.store Scenario.s_connected !! 0%nat)
     = Some connected.
Proof. vm_compute. repeat split; reflexivity. Qed.

(** ** Durations *)

Section MapValues.
Context {V : Type}.
Implicit Types (m : list (string * V)) (k : string) (v : V).

Lemma map_values_set_In k v m x :
  In x (map_values (map_set k v m)) -> x = v \/ In x (map_values m).
Proof.
  unfold map_values. induction m as [|[k' v'] m IH]; simpl.
  - intros [<-|[]]. now left.
  - destruct (String.eqb k k'); simpl.
    + intros [<-|H]; [now left|right; now right].
    + intros [<-|H]; [right; now left|].
      destruct (IH H) as [->|H']; [now left|right; now right].
Qed.

Lemma NoDup_map_values_set k v m :
  NoDup (map_values m) -> ~ In v (map_values m) ->
  NoDup (map_values (map_set k v m)).
Proof.
  unfold map_values. induction m as [|[k' v'] m IH]; simpl; intros Hnd Hv.
  - apply NoDup_singleton.
  - apply NoDup_cons in Hnd. destruct Hnd as [Hnotin Hnd].
    rewrite list_elem_of_In in Hnotin.
    destruct (String.eqb k k'); simpl.
    + apply NoDup_cons. rewrite list_elem_of_In. split; [tauto|exact Hnd].
    + apply NoDup_cons. rewrite list_elem_of_In. split.
      * intros H. apply map_values_set_In in H. unfold map_values in H.
        destruct H as [->|H]; tauto.
      * apply IH; tauto.
Qed.

Lemma NoDup_map_values_delete k m :
  NoDup (map_values m) -> NoDup (map_values (map_delete k m)).
Proof.
  unfold map_values. induction m as [|[k' v'] m IH]; simpl; intros Hnd.
  - constructor.
  - apply NoDup_cons in Hnd. destruct Hnd as [Hnotin Hnd].
    rewrite list_elem_of_In in Hnotin.
    destruct (String.eqb k k'); simpl; [exact (IH Hnd)|].
    apply NoDup_cons. rewrite list_elem_of_In. split; [|exact (IH Hnd)].
    intros H. apply Hnotin. exact (map_values_delete_incl k m v' H).
Qed.

Lemma map_values_delete_got k m v :
  NoDup (map_values m) -> map_get k m = Some v ->
  ~ In v (map_values (map_delete k m)).
Proof.
  unfold map_values. induction m as [|[k' v'] m IH]; simpl; intros Hnd Hg.
  - discriminate.
  - apply NoDup_cons in Hnd. destruct Hnd as [Hnotin Hnd].
    rewrite list_elem_of_In in Hnotin.
    destruct (String.eqb k k'); simpl.
    + injection Hg as ->. intros H. apply Hnotin.
      exact (map_values_delete_incl k m v H).
    + intros [->|H].
      * apply Hnotin. exact (map_get_In k m v Hg).
      * exact (IH Hnd Hg H).
Qed.
End MapValues.

Lemma entry_ok_mono t t' entry : t <= t' -> entry_ok t entry -> entry_ok t' entry.
Proof.
  intros Hle (e & He & Het & Hrest). exists e. split; [exact He|].
  split; [lia|exact Hrest].
Qed.

Lemma service_ok_mono t t' s : t <= t' -> service_ok t s -> service_ok t' s.
Proof.
  intros Hle [(Hnd & Hb & Hd & Hc) Hh]. split.
  - repeat split; try assumption.
    intros r c ct H1 H2. specialize (Hc r c ct H1 H2). lia.
  - eapply Forall_impl; [exact Hh|]. intros x. apply entry_ok_mono. exact Hle.
Qed.

(** The invariant reads the active calls, the objects and the history. *)
Lemma service_ok_same t s s' :
  Service.activeCalls s' = Service.activeCalls s ->
  Service.store s' = Service.store s ->
  Service.callHistory s' = Service.callHistory s ->
  service_ok t s -> service_ok t s'.
Proof.
  unfold service_ok, calls_ok. intros -> -> ->. tauto.
Qed.

(** Allocating a call and entering it in the map. *)
Lemma service_ok_add t s s' callId call :
  Service.activeCalls s'
  = map_set callId (length (Service.store s)) (Service.activeCalls s) ->
  Service.store s' = (Service.store s ++ [call])%list ->
  Service.callHistory s' = Service.callHistory s ->
  Call.duration call = 0 ->
  Call.connectTime call = None ->
  service_ok t s -> service_ok t s'.
Proof.
  intros Ea Es Eh Hdur Hct [(Hnd & Hb & Hd & Hc) Hh].
  assert (Hfresh : ~ In (length (Service.store s))
                        (map_values (Service.activeCalls s))).
  { intros H. specialize (Hb _ H). lia. }
  split; [|rewrite Eh; exact Hh].
  unfold calls_ok. rewrite Ea, Es. repeat split.
  - apply NoDup_map_values_set; assumption.
  - intros r H. rewrite length_app. simpl.
    apply map_values_set_In in H. destruct H as [->|H]; [lia|].
    specialize (Hb r H). lia.
  - intros r c H Hl. apply map_values_set_In in H. destruct H as [->|H].
    + rewrite lookup_app_r in Hl by lia. rewrite Nat.sub_diag in Hl.
      injection Hl as <-. exact Hdur.
    + rewrite lookup_app_l in Hl by (apply Hb; exact H).
      exact (Hd r c H Hl).
  - intros r c ct Hl Hc'.
    destruct (decide (r < length (Service.store s))%nat) as [Hlt|Hge].
    + rewrite lookup_app_l in Hl by exact Hlt. exact (Hc r c ct Hl Hc').
    + rewrite lookup_app_r in Hl by lia.
      destruct (r - length (Service.store s))%nat as [|n]; simpl in Hl.
      * injection Hl as <-. congruence.
      * rewrite lookup_nil in Hl. discriminate.
Qed.

(** Overwriting an object by one with the same duration whose connect
    time, if any, is not in the future. *)
Lemma service_ok_update t s s' r0 c0 c0' :
  Service.activeCalls s' = Service.activeCalls s ->
  Service.store s !! r0 = Some c0 ->
  Service.store s' = <[r0 := c0']> (Service.store s) ->
  Service.callHistory s' = Service.callHistory s ->
  Call.duration c0' = Call.duration c0 ->
  (forall ct, Call.connectTime c0' = Some ct -> ct <= t) ->
  service_ok t s -> service_ok t s'.
Proof.
  intros Ea H0 Es Eh Hdur Hct [(Hnd & Hb & Hd & Hc) Hh].
  split; [|rewrite Eh; exact Hh].
  unfold calls_ok. rewrite Ea, Es. repeat split.
  - exact Hnd.
  - intros r H. rewrite length_insert. exact (Hb r H).
  - intros r c H Hl. destruct (decide (r = r0)) as [->|Hne].
    + rewrite list_lookup_insert_eq in Hl by (eapply lookup_lt_Some; exact H0).
      injection Hl as <-. rewrite Hdur. exact (Hd r0 c0 H H0).
    + rewrite list_lookup_insert_ne in Hl by congruence. exact (Hd r c H Hl).
  - intros r c ct Hl Hc'. destruct (decide (r = r0)) as [->|Hne].
    + rewrite list_lookup_insert_eq in Hl by (eapply lookup_lt_Some; exact H0).
      injection Hl as <-. exact (Hct ct Hc').
    + rewrite list_lookup_insert_ne in Hl by congruence. exact (Hc r c ct Hl Hc').
Qed.

Lemma hangupCall_service_ok now callId s :
  service_ok now s -> service_ok now (hangupCall callId now s).1.1.
Proof.
  intros Hok. destruct (getCall callId s) as [[r call]|] eqn:E;
    [|rewrite (hangupCall_unknown _ now _ E); exact Hok].
  rewrite (hangupCall_active _ now _ _ _ E). simpl.
  destruct (getCall_Some _ _ _ _ E) as [Hm Hs].
  destruct Hok as [(Hnd & Hb & Hd & Hc) Hh].
  pose proof (map_get_In _ _ _ Hm) as Hin.
  split.
  - unfold calls_ok. simpl. repeat split.
    + apply NoDup_map_values_delete. exact Hnd.
    + intros r' H. rewrite length_insert. apply Hb.
      exact (map_values_delete_incl _ _ _ H).
    + intros r' c H Hl.
      assert (Hne : r' <> r).
      { intros ->. exact (map_values_delete_got _ _ _ Hnd Hm H). }
      rewrite list_lookup_insert_ne in Hl by congruence.
      exact (Hd r' c (map_values_delete_incl _ _ _ H) Hl).
    + intros r' c ct Hl Hct. destruct (decide (r' = r)) as [->|Hne].
      * rewrite list_lookup_insert_eq in Hl by (eapply lookup_lt_Some; exact Hs).
        injection Hl as <-. simpl in Hct. exact (Hc r call ct Hs Hct).
      * rewrite list_lookup_insert_ne in Hl by congruence.
        exact (Hc r' c ct Hl Hct).
  - simpl. apply Forall_app. split; [exact Hh|].
    apply Forall_singleton. exists now. simpl. repeat split; try lia.
    + destruct (Call.connectTime call); [reflexivity|exact (Hd r call Hin Hs)].
    + destruct (Call.connectTime call) as [ct|] eqn:Ect.
      * specialize (Hc r call ct Hs Ect). lia.
      * rewrite (Hd r call Hin Hs). lia.
Qed.

Lemma hangupAll_service_ok now callIds s :
  service_ok now s -> service_ok now (hangupAll callIds now s).1.
Proof.
  revert s. induction callIds as [|callId rest IH]; intros s Hok; simpl;
    [exact Hok|].
  pose proof (hangupCall_service_ok now callId s Hok) as H1.
  destruct (hangupCall callId now s) as [[s1 r1] e1]. simpl in H1.
  pose proof (IH s1 H1) as H2.
  destruct (hangupAll rest now s1) as [s2 e2]. exact H2.
Qed.

Lemma mutate_service_ok t r0 f s :
  (forall c, Call.duration (f c) = Call.duration c) ->
  (forall c ct, Call.connectTime (f c) = Some ct ->
                Call.connectTime c = Some ct \/ ct = t) ->
  service_ok t s -> service_ok t (mutate r0 f s).
Proof.
  intros Hdur Hct Hok. unfold mutate.
  destruct (Service.store s !! r0) as [c0|] eqn:E; [|exact Hok].
  eapply (service_ok_update t s _ r0 c0 (f c0)); try reflexivity;
    try assumption.
  - apply Hdur.
  - intros ct H. destruct (Hct c0 ct H) as [H'| ->]; [|lia].
    destruct Hok as [(_ & _ & _ & Hc) _]. exact (Hc r0 c0 ct E H').
Qed.

Lemma fireTimer_service_ok now i s :
  service_ok now s -> service_ok now (fireTimer i now s).1.
Proof.
  intros Hok. unfold fireTimer.
  destruct (Service.timers s !! i) as [timer|]; [|exact Hok].
  destruct (Z.leb (Timer.due timer) now); [|exact Hok].
  assert (Hdrop : service_ok now (dropTimer i s)).
  { eapply service_ok_same; [..|exact Hok]; reflexivity. }
  destruct (Timer.callback timer) as [r0|r0|callId r0]; simpl.
  - apply mutate_service_ok; [reflexivity| |exact Hdrop].
    intros c ct H. left. exact H.
  - apply mutate_service_ok; [reflexivity| |exact Hdrop].
    intros c ct H. right. simpl in H. congruence.
  - case_match; [|exact Hdrop].
    pose proof (hangupCall_service_ok now callId _ Hdrop) as H1.
    destruct (hangupCall callId now (dropTimer i s)) as [[s1 r1] e1].
    exact H1.
Qed.

Lemma Forall_insertByStart (P : Call.t -> Prop) c l :
  P c -> Forall P l -> Forall P (insertByStart c l).
Proof.
  intros Hc Hl. induction Hl as [|x l Hx Hl IH]; simpl.
  - constructor; [exact Hc|constructor].
  - destruct (Z.leb (Call.startTime x) (Call.startTime c)).
    + constructor; [exact Hc|]. constructor; assumption.
    + constructor; assumption.
Qed.

Lemma Forall_sortByStart (P : Call.t -> Prop) l :
  Forall P l -> Forall P (sortByStart l).
Proof.
  induction 1 as [|x l Hx Hl IH]; simpl; [constructor|].
  apply Forall_insertByStart; assumption.
Qed.

Lemma exec_service_ok t op s :
  service_ok t s ->
  (forall now, op_time op = Some now -> now = t) ->
  service_ok t (exec op s).1.
Proof.
  intros Hok Hnow. destruct op; simpl in Hnow;
    try (specialize (Hnow _ eq_refl); subst now).
  - simpl. eapply service_ok_same; [..|exact Hok];
      unfold initialize; destruct hasAudioContext; reflexivity.
  - eapply service_ok_same; [..|exact Hok]; simpl;
      unfold connect_begin, connect_catch;
      destruct (negb (Validation.valid (validateConfig config)));
      try reflexivity;
      destruct (getProvider (Config.provider config)); reflexivity.
  - destruct k as [cfg p]. eapply service_ok_same; [..|exact Hok]; reflexivity.
  - simpl. unfold disconnect. destruct (Service.isConnected s); simpl;
      [|exact Hok].
    pose proof (hangupAll_service_ok t (map_keys (Service.activeCalls s)) s Hok)
      as H1.
    destruct (hangupAll _ t s) as [s1 e1]. simpl in *.
    eapply service_ok_same; [..|exact H1]; reflexivity.
  - simpl. unfold makeCall. destruct (Service.isConnected s); simpl;
      [|exact Hok].
    destruct (Service.currentConfig s); simpl; [|exact Hok].
    eapply service_ok_add; [..|exact Hok]; reflexivity.
  - simpl. destruct (getCall callId s) as [[r0 call]|] eqn:E.
    + destruct (decide (Call.status call = ringing)) as [Hst|Hst].
      * rewrite (answerCall_ringing _ media t _ _ _ E Hst). simpl.
        destruct (getCall_Some _ _ _ _ E) as [_ Hs].
        eapply service_ok_update; [| exact Hs | | | | | exact Hok];
          try reflexivity.
        simpl. intros ct [= <-]. lia.
      * rewrite (answerCall_not_ringing _ media t _ _ _ E Hst). exact Hok.
    + rewrite (answerCall_unknown _ media t _ E). exact Hok.
  - simpl. pose proof (hangupCall_service_ok t callId s Hok) as H1.
    destruct (hangupCall callId t s) as [[s1 r1] e1]. exact H1.
  - simpl. unfold sendDTMF. destruct (Nat.eqb _ _); exact Hok.
  - simpl. unfold simulateIncomingCall.
    destruct (Service.currentConfig s); simpl; [|exact Hok].
    eapply service_ok_add; [..|exact Hok]; reflexivity.
  - simpl. apply fireTimer_service_ok. exact Hok.
  - simpl. destruct Hok as [Hc Hh]. split; [exact Hc|].
    simpl. apply Forall_sortByStart. exact Hh.
Qed.

(** Every reachable state is well kept. *)
Lemma reachable_service_ok t s : reachable t s -> service_ok t s.
Proof.
  induction 1 as [t|t t' s op Hr IH Hle Hnow].
  - split; [|constructor]. unfold calls_ok. simpl. repeat split.
    + constructor.
    + intros r [].
    + intros r c [].
    + intros r c ct H. rewrite lookup_nil in H. discriminate.
  - apply exec_service_ok; [|exact Hnow].
    eapply service_ok_mono; eassumption.
Qed.

(** The scenario states are states of a run. *)
Lemma s_connected_reachable : reachable 3000 Scenario.s_connected.
Proof.
  change Scenario.s_connected
    with (exec (OpFireTimer 0 3000) Scenario.s_ringing).1.
  apply (reachable_exec 1000); [|lia|intros now [= <-]; reflexivity].
  change Scenario.s_ringing
    with (exec (OpFireTimer 0 1000) Scenario.s_dialing).1.
  apply (reachable_exec 0); [|lia|intros now [= <-]; reflexivity].
  change Scenario.s_dialing
    with (exec (OpMakeCall "5551234" [] Scenario.bytes1 0)
               Scenario.s_registered).1.
  apply (reachable_exec 0); [|lia|intros now [= <-]; reflexivity].
  change Scenario.s_registered
    with (exec (OpConnectFinish
                  (sipConfig_of Scenario.alice
                     (own "FlexPBX" "flexpbx.local" 5070 "UDP"
                          ["calls"; "sms"; "presence"; "conference"]),
                   own "FlexPBX" "flexpbx.local" 5070 "UDP"
                       ["calls"; "sms"; "presence"; "conference"]))
               (exec (OpConnectBegin Scenario.alice)
                     (exec (OpInitialize true) initial).1).1).1.
  apply (reachable_exec 0); [|lia|discriminate].
  apply (reachable_exec 0); [|lia|discriminate].
  apply (reachable_exec 0); [|lia|discriminate].
  apply reachable_initial.
Qed.

(** C9. In every run of the service with a clock that does not run
    backwards, a call that is hung up gets its [endTime], and its duration
    is [endTime - connectTime] when it has a connect time and 0 when it
    has none; the duration is never negative. This holds of the entry
    that [hangupCall] appends to the history and reports in its result,
    and so of every entry of the history. *)
Theorem hangup_duration (t : Z) (s : Service.t) :
  reachable t s ->
  Forall (fun entry =>
            exists e,
              Call.endTime entry = Some e
              /\ Call.duration entry
                 = match Call.connectTime entry with
                   | Some ct => e - ct
                   | None => 0
                   end
              /\ 0 <= Call.duration entry)
         (Service.callHistory s)
  /\ forall callId now r call,
       t <= now ->
       getCall callId s = Some (r, call) ->
       let '(s', result, effects) := hangupCall callId now s in
       exists entry,
         Service.callHistory s' = (Service.callHistory s ++ [entry])%list
         /\ Call.endTime entry = Some now
         /\ Call.connectTime entry = Call.connectTime call
         /\ Call.duration entry
            = match Call.connectTime call with
              | Some ct => now - ct
              | None => 0
              end
         /\ 0 <= Call.duration entry
         /\ Result.duration result = Some (Call.duration entry).
Proof.
  intros Hr. pose proof (reachable_service_ok t s Hr) as Hok. split.
  - destruct Hok as [_ Hh]. eapply Forall_impl; [exact Hh|].
    intros entry (e & He & _ & _ & Hd & Hpos). exists e. tauto.
  - intros callId now r call Hle E.
    pose proof (service_ok_mono t now s Hle Hok) as Hok'.
    destruct Hok' as [(_ & _ & Hd & Hc) _].
    destruct (getCall_Some _ _ _ _ E) as [Hm Hs].
    pose proof (Hd r call (map_get_In _ _ _ Hm) Hs) as Hzero.
    rewrite (hangupCall_active _ now _ _ _ E). simpl.
    eexists. split; [reflexivity|]. simpl.
    destruct (Call.connectTime call) as [ct|] eqn:Ect.
    + specialize (Hc r call ct Hs Ect). repeat split. lia.
    + rewrite Hzero. repeat split. lia.
Qed.

Lemma hangup_duration_witness :
  Forall (fun entry =>
            exists e,
              Call.endTime entry = Some e
              /\ Call.duration entry
                 = match Call.connectTime entry with
                   | Some ct => e - ct
                   | None => 0
                   end
              /\ 0 <= Call.duration entry)
         (Service.callHistory Scenario.s_connected)
  /\ forall callId now r call,
       3000 <= now ->
       getCall callId Scenario.s_connected = Some (r, call) ->
       let '(s', result, effects) :=
         hangupCall callId now Scenario.s_connected in
       exists entry,
         Service.callHistory s'
         = (Service.callHistory Scenario.s_connected ++ [entry])%list
         /\ Call.endTime entry = Some now
         /\ Call.connectTime entry = Call.connectTime call
         /\ Call.duration entry
            = match Call.connectTime call with
              | Some ct => now - ct
              | None => 0
              end
         /\ 0 <= Call.duration entry
         /\ Result.duration result = Some (Call.duration entry).
Proof.
  apply (hangup_duration 3000 Scenario.s_connected).
  exact s_connected_reachable.
Defined.

(** The scenario of the specification, on the simulated service: alice
    connects, dials, the call rings after one second and is connected
    after three; hung up at five seconds it lasted two, and the history has
    that one entry. A call hung up while still [connecting] has no connect
    time and duration 0. *)
Example hangup_after_two_seconds :
  let '(s', result, effects) :=
    hangupCall Scenario.id1 5000 Scenario.s_connected in
  Result.success result = true
  /\ Result.duration result = Some 2000
  /\ Service.activeCalls s' = []
  /\ (Call.status <$> Service.callHistory s') = [ended]
  /\ (Call.endTime <$> Service.callHistory s') = [Some 5000]
  /\ (Call.duration <$> Service.callHistory s') = [2000].
Proof. vm_compute. repeat split; reflexivity. Qed.

Example hangup_while_connecting :
  let '(s', result, effects) :=
    hangupCall Scenario.id1 500 Scenario.s_dialing in
  Result.success result = true
  /\ Result.duration result = Some 0
  /\ (Call.connectTime <$> Service.callHistory s') = [None]
  /\ (Call.duration <$> Service.callHistory s') = [0].
Proof. vm_compute. repeat split; reflexivity. Qed.

(** ** The scenarios as runs *)

Example generated_ids :
  generateCallId Scenario.bytes1 = Scenario.id1
  /\ generateCallId Scenario.bytes2 = Scenario.id2.
Proof. split; reflexivity. Qed.

Example s_connected_as_run :
  run [OpInitialize true;
       OpConnectBegin Scenario.alice;
       OpConnectFinish
         (sipConfig_of Scenario.alice
            (own "FlexPBX" "flexpbx.local" 5070 "UDP"
                 ["calls"; "sms"; "presence"; "conference"]),
          own "FlexPBX" "flexpbx.local" 5070 "UDP"
              ["calls"; "sms"; "presence"; "conference"]);
       OpMakeCall "5551234" [] Scenario.bytes1 0;
       OpFireTimer 0 1000;
       OpFireTimer 0 3000] initial
  = Scenario.s_connected.
Proof. vm_compute. reflexivity. Qed.

(** An inbound call that nobody answers is hung up by its timer after
    thirty seconds, with duration 0; answered in time, the timer finds it
    connected and leaves it alone. *)
Example incoming_call_times_out :
  let s := (fireTimer 0 30000 Scenario.s_incoming).1 in
  (Call.status <$> Service.store Scenario.s_incoming !! 0%nat) = Some ringing
  /\ Service.activeCalls s = []
  /\ (Call.status <$> Service.callHistory s) = [ended]
  /\ (Call.connectTime <$> Service.callHistory s) = [None]
  /\ (Call.duration <$> Service.callHistory s) = [0].
Proof. vm_compute. repeat split; reflexivity. Qed.

Example incoming_call_answered :
  let '(s1, result, _) :=
    answerCall Scenario.id1 (Some true) 4000 Scenario.s_incoming in
  let s2 := (fireTimer 0 30000 s1).1 in
  Result.success result = true
  /\ Service.localStream s1 = true
  /\ map_keys (Service.activeCalls s2) = [Scenario.id1]
  /\ (Call.status <$> Service.store s2 !! 0%nat) = Some connected
  /\ (Call.connectTime <$> Service.store s2 !! 0%nat) = Some (Some 4000)
  /\ Service.callHistory s2 = [].
Proof. vm_compute. repeat split; reflexivity. Qed.

(** [connect] waits on timers, so another operation can run before it
    resumes. A [disconnect] of the previous registration that runs in
    between clears the config that [connect] has just stored; the
    resumption registers the service all the same, and [makeCall] then
    fails on the missing config. *)
Example disconnect_while_connecting :
  let s1 := (connect_begin Scenario.alice Scenario.s_registered).1 in
  let s2 := (disconnect 10 s1).1.1 in
  let s3 :=
    (connect_finish
       (sipConfig_of Scenario.alice
          (own "FlexPBX" "flexpbx.local" 5070 "UDP"
               ["calls"; "sms"; "presence"; "conference"]),
        own "FlexPBX" "flexpbx.local" 5070 "UDP"
            ["calls"; "sms"; "presence"; "conference"]) s2).1.1 in
  Service.isConnected s3 = true
  /\ Service.registrationState s3 = registered
  /\ Service.currentConfig s3 = None
  /\ (makeCall "5551234" [] Scenario.bytes1 20 s3).1.2
     = Result.failure "Cannot read properties of null (reading 'username')".
Proof. vm_compute. repeat split; reflexivity. Qed.

(** * Further properties of the services *)

(** ** More facts about the map operations *)

Section MapKeys.
Context {V : Type}.
Implicit Types (m : list (string * V)) (k : string) (v : V).

Lemma map_get_delete_other k k' m :
  k <> k' -> map_get k' (map_delete k m) = map_get k' m.
Proof.
  intros Hne. induction m as [|[k0 v0] m IH]; simpl; [reflexivity|].
  destruct (String.eqb k k0) eqn:E.
  - apply String.eqb_eq in E. subst k0.
    destruct (String.eqb k' k) eqn:E'; [|exact IH].
    apply String.eqb_eq in E'. congruence.
  - simpl. destruct (String.eqb k' k0); [reflexivity|exact IH].
Qed.

Lemma map_get_set_other k k' v m :
  k <> k' -> map_get k' (map_set k v m) = map_get k' m.
Proof.
  intros Hne. induction m as [|[k0 v0] m IH]; simpl.
  - destruct (String.eqb k' k) eqn:E; [|reflexivity].
    apply String.eqb_eq in E. congruence.
  - destruct (String.eqb k k0) eqn:E; simpl.
    + apply String.eqb_eq in E. subst k0.
      destruct (String.eqb k' k) eqn:E'; [|reflexivity].
      apply String.eqb_eq in E'. congruence.
    + destruct (String.eqb k' k0); [reflexivity|exact IH].
Qed.

Lemma map_get_In_keys k m v : map_get k m = Some v -> In k (map_keys m).
Proof.
  unfold map_keys. induction m as [|[k0 v0] m IH]; simpl; [discriminate|].
  destruct (String.eqb k k0) eqn:E.
  - apply String.eqb_eq in E. intros _. left. congruence.
  - intros H. right. exact (IH H).
Qed.

Lemma map_get_None_keys k m : map_get k m = None -> ~ In k (map_keys m).
Proof.
  unfold map_keys. induction m as [|[k0 v0] m IH]; simpl; [tauto|].
  destruct (String.eqb k k0) eqn:E; [discriminate|].
  intros H [Heq|Hin]; [|exact (IH H Hin)].
  subst k0. rewrite String.eqb_refl in E. discriminate.
Qed.

Lemma map_keys_set k v m :
  map_keys (map_set k v m)
  = if map_has k m then map_keys m else (map_keys m ++ [k])%list.
Proof.
  unfold map_keys, map_has. induction m as [|[k0 v0] m IH]; simpl;
    [reflexivity|].
  destruct (String.eqb k k0) eqn:E; simpl; [reflexivity|].
  rewrite IH. destruct (map_get k m); reflexivity.
Qed.

Lemma NoDup_map_keys_set k v m :
  NoDup (map_keys m) -> NoDup (map_keys (map_set k v m)).
Proof.
  intros Hnd. rewrite map_keys_set. unfold map_has.
  destruct (map_get k m) eqn:E; [exact Hnd|].
  apply NoDup_app. split; [exact Hnd|]. split; [|apply NoDup_singleton].
  intros x Hx Hx'. apply list_elem_of_In in Hx, Hx'.
  destruct Hx' as [<-|[]]. exact (map_get_None_keys _ _ E Hx).
Qed.

Lemma map_keys_delete_incl k m x :
  In x (map_keys (map_delete k m)) -> In x (map_keys m).
Proof.
  unfold map_keys. induction m as [|[k0 v0] m IH]; simpl; [tauto|].
  destruct (String.eqb k k0); simpl; intuition.
Qed.

Lemma NoDup_map_keys_delete k m :
  NoDup (map_keys m) -> NoDup (map_keys (map_delete k m)).
Proof.
  unfold map_keys. induction m as [|[k0 v0] m IH]; simpl; intros Hnd.
  - constructor.
  - apply NoDup_cons in Hnd. destruct Hnd as [Hnotin Hnd].
    rewrite list_elem_of_In in Hnotin.
    destruct (String.eqb k k0); simpl; [exact (IH Hnd)|].
    apply NoDup_cons. rewrite list_elem_of_In. split; [|exact (IH Hnd)].
    intros H. apply Hnotin. exact (map_keys_delete_incl k m k0 H).
Qed.

(** Deleting a key that is not there changes nothing. *)
Lemma map_delete_absent k m : ~ In k (map_keys m) -> map_delete k m = m.
Proof.
  unfold map_keys. induction m as [|[k0 v0] m IH]; simpl; [reflexivity|].
  intros H. destruct (String.eqb k k0) eqn:E.
  - apply String.eqb_eq in E. exfalso. apply H. left. congruence.
  - rewrite IH; [reflexivity|]. intros Hin. apply H. right. exact Hin.
Qed.

(** With distinct values, a value is filed under one key only. *)
Lemma map_get_same_value k k' m v :
  NoDup (map_values m) -> map_get k m = Some v -> map_get k' m = Some v ->
  k = k'.
Proof.
  intros Hnd Hk Hk'. destruct (String.eqb k k') eqn:E;
    [apply String.eqb_eq; exact E|].
  exfalso. apply (map_values_delete_got k m v Hnd Hk).
  apply (map_get_In k'). rewrite map_get_delete_other; [exact Hk'|].
  intros ->. rewrite String.eqb_refl in E. discriminate.
Qed.
End MapKeys.

(** ** Two more invariants of a run *)

Lemma more_ok_mono t t' s : t <= t' -> more_ok t s -> more_ok t' s.
Proof.
  intros Hle [Ha [Hs Hh]]. split; [exact Ha|]. split; [|exact Hh].
  intros r c H. destruct (Hs r c H) as [H1 H2]. split; [lia|exact H2].
Qed.

Lemma more_ok_same t s s' :
  Service.activeCalls s' = Service.activeCalls s ->
  Service.store s' = Service.store s ->
  Service.callHistory s' = Service.callHistory s ->
  more_ok t s -> more_ok t s'.
Proof.
  unfold more_ok, active_ok, times_ok. intros -> -> ->. tauto.
Qed.

Lemma more_ok_add t s s' callId call :
  Service.activeCalls s'
  = map_set callId (length (Service.store s)) (Service.activeCalls s) ->
  Service.store s' = (Service.store s ++ [call])%list ->
  Service.callHistory s' = Service.callHistory s ->
  live callId call ->
  Call.startTime call <= t ->
  Call.connectTime call = None ->
  more_ok t s -> more_ok t s'.
Proof.
  intros Ea Es Eh Hlive Hst Hct [[Hnd Hact] [Hs Hh]].
  split; [split|split].
  - rewrite Ea. apply NoDup_map_keys_set. exact Hnd.
  - rewrite Ea, Es. intros k r Hk.
    destruct (String.eqb callId k) eqn:E.
    + apply String.eqb_eq in E. subst k. rewrite map_get_set_same in Hk.
      injection Hk as <-. exists call. split; [|exact Hlive].
      rewrite lookup_app_r by lia. rewrite Nat.sub_diag. reflexivity.
    + rewrite map_get_set_other in Hk
        by (intros ->; rewrite String.eqb_refl in E; discriminate).
      destruct (Hact k r Hk) as (c & Hc & Hl). exists c. split; [|exact Hl].
      apply lookup_app_l_Some. exact Hc.
  - rewrite Es. intros r c H. apply lookup_app_Some in H.
    destruct H as [H|[_ H]]; [exact (Hs r c H)|].
    destruct (r - length (Service.store s))%nat; simpl in H;
      [|rewrite lookup_nil in H; discriminate].
    injection H as <-. split; [exact Hst|]. intros ct H. congruence.
  - rewrite Eh. exact Hh.
Qed.

Lemma more_ok_update t s s' r0 c0 c0' :
  Service.activeCalls s' = Service.activeCalls s ->
  Service.store s !! r0 = Some c0 ->
  Service.store s' = <[r0 := c0']> (Service.store s) ->
  Service.callHistory s' = Service.callHistory s ->
  Call.id c0' = Call.id c0 ->
  Call.status c0' <> ended ->
  Call.endTime c0' = Call.endTime c0 ->
  Call.duration c0' = Call.duration c0 ->
  Call.startTime c0' = Call.startTime c0 ->
  (forall ct, Call.connectTime c0' = Some ct ->
              Call.connectTime c0 = Some ct \/ ct = t) ->
  more_ok t s -> more_ok t s'.
Proof.
  intros Ea H0 Es Eh Hid Hstat Hend Hdur Hstart Hct [[Hnd Hact] [Hs Hh]].
  pose proof (lookup_lt_Some _ _ _ H0) as Hlt.
  split; [split|split].
  - rewrite Ea. exact Hnd.
  - rewrite Ea, Es. intros k r Hk. destruct (Hact k r Hk) as (c & Hc & Hl).
    destruct (decide (r = r0)) as [->|Hne].
    + exists c0'. split; [apply list_lookup_insert_eq; exact Hlt|].
      assert (c = c0) as -> by congruence.
      destruct Hl as (L1 & L2 & L3 & L4). repeat split; congruence.
    + exists c. split; [|exact Hl].
      rewrite list_lookup_insert_ne by congruence. exact Hc.
  - rewrite Es. intros r c H. destruct (decide (r = r0)) as [->|Hne].
    + rewrite list_lookup_insert_eq in H by exact Hlt. injection H as <-.
      destruct (Hs r0 c0 H0) as [H1 H2]. rewrite Hstart. split; [exact H1|].
      intros ct Hc. destruct (Hct ct Hc) as [H | ->]; [exact (H2 ct H)|exact H1].
    + rewrite list_lookup_insert_ne in H by congruence. exact (Hs r c H).
  - rewrite Eh. exact Hh.
Qed.

Lemma hangupCall_more_ok now callId s :
  service_ok now s -> more_ok now s ->
  more_ok now (hangupCall callId now s).1.1.
Proof.
  intros Hok Hmore. destruct (getCall callId s) as [[r call]|] eqn:E;
    [|rewrite (hangupCall_unknown _ now _ E); exact Hmore].
  rewrite (hangupCall_active _ now _ _ _ E). simpl.
  destruct (getCall_Some _ _ _ _ E) as [Hm Hs].
  destruct Hok as [(Hndv & _ & _ & Hstamp) _].
  destruct Hmore as [[Hnd Hact] [Hst Hh]].
  pose proof (lookup_lt_Some _ _ _ Hs) as Hlt.
  split; [split|split]; simpl.
  - apply NoDup_map_keys_delete. exact Hnd.
  - intros k r' Hk.
    assert (Hne : callId <> k).
    { intros <-. rewrite map_get_delete_same in Hk. discriminate. }
    rewrite map_get_delete_other in Hk by exact Hne.
    destruct (Hact k r' Hk) as (c & Hc & Hl). exists c. split; [|exact Hl].
    rewrite list_lookup_insert_ne; [exact Hc|].
    intros <-. apply Hne. exact (map_get_same_value _ _ _ _ Hndv Hm Hk).
  - intros r' c H. destruct (decide (r' = r)) as [->|Hne].
    + rewrite list_lookup_insert_eq in H by exact Hlt. injection H as <-.
      simpl. exact (Hst r call Hs).
    + rewrite list_lookup_insert_ne in H by congruence. exact (Hst r' c H).
  - apply Forall_app. split; [exact Hh|]. apply Forall_singleton.
    exists now. simpl. destruct (Hst r call Hs) as [H1 H2].
    split; [reflexivity|]. split; [exact H1|].
    intros ct Hct. split; [exact (H2 ct Hct)|exact (Hstamp r call ct Hs Hct)].
Qed.

Lemma hangupAll_more_ok now callIds s :
  service_ok now s -> more_ok now s ->
  more_ok now (hangupAll callIds now s).1.
Proof.
  revert s. induction callIds as [|callId rest IH]; intros s Hok Hmore; simpl;
    [exact Hmore|].
  pose proof (hangupCall_service_ok now callId s Hok) as H1.
  pose proof (hangupCall_more_ok now callId s Hok Hmore) as H1'.
  destruct (hangupCall callId now s) as [[s1 r1] e1]. simpl in H1, H1'.
  pose proof (IH s1 H1 H1') as H2.
  destruct (hangupAll rest now s1) as [s2 e2]. exact H2.
Qed.

Lemma mutate_more_ok t r0 f s :
  (forall c, Call.id (f c) = Call.id c) ->
  (forall c, Call.status (f c) <> ended) ->
  (forall c, Call.endTime (f c) = Call.endTime c) ->
  (forall c, Call.duration (f c) = Call.duration c) ->
  (forall c, Call.startTime (f c) = Call.startTime c) ->
  (forall c ct, Call.connectTime (f c) = Some ct ->
                Call.connectTime c = Some ct \/ ct = t) ->
  more_ok t s -> more_ok t (mutate r0 f s).
Proof.
  intros F1 F2 F3 F4 F5 F6 Hmore. unfold mutate.
  destruct (Service.store s !! r0) as [c0|] eqn:E; [|exact Hmore].
  eapply (more_ok_update t s _ r0 c0 (f c0)); try reflexivity; auto.
Qed.

Lemma fireTimer_more_ok now i s :
  service_ok now s -> more_ok now s -> more_ok now (fireTimer i now s).1.
Proof.
  intros Hok Hmore. unfold fireTimer.
  destruct (Service.timers s !! i) as [timer|]; [|exact Hmore].
  destruct (Z.leb (Timer.due timer) now); [|exact Hmore].
  assert (Hdrop : more_ok now (dropTimer i s)).
  { eapply more_ok_same; [..|exact Hmore]; reflexivity. }
  assert (Hdrop' : service_ok now (dropTimer i s)).
  { eapply service_ok_same; [..|exact Hok]; reflexivity. }
  destruct (Timer.callback timer) as [r0|r0|callId r0]; simpl.
  - apply mutate_more_ok; try reflexivity; try discriminate; [|exact Hdrop].
    intros c ct H. left. exact H.
  - apply mutate_more_ok; try reflexivity; try discriminate; [|exact Hdrop].
    intros c ct H. right. simpl in H. congruence.
  - case_match; [|exact Hdrop].
    pose proof (hangupCall_more_ok now callId _ Hdrop' Hdrop) as H1.
    destruct (hangupCall callId now (dropTimer i s)) as [[s1 r1] e1].
    exact H1.
Qed.

Lemma exec_more_ok t op s :
  service_ok t s -> more_ok t s ->
  (forall now, op_time op = Some now -> now = t) ->
  more_ok t (exec op s).1.
Proof.
  intros Hok Hmore Hnow. destruct op; simpl in Hnow;
    try (specialize (Hnow _ eq_refl); subst now).
  - simpl. eapply more_ok_same; [..|exact Hmore];
      unfold initialize; destruct hasAudioContext; reflexivity.
  - eapply more_ok_same; [..|exact Hmore]; simpl;
      unfold connect_begin, connect_catch;
      destruct (negb (Validation.valid (validateConfig config)));
      try reflexivity;
      destruct (getProvider (Config.provider config)); reflexivity.
  - destruct k as [cfg p]. eapply more_ok_same; [..|exact Hmore]; reflexivity.
  - simpl. unfold disconnect. destruct (Service.isConnected s); simpl;
      [|exact Hmore].
    pose proof (hangupAll_more_ok t (map_keys (Service.activeCalls s)) s
                  Hok Hmore) as H1.
    destruct (hangupAll _ t s) as [s1 e1]. simpl in *.
    eapply more_ok_same; [..|exact H1]; reflexivity.
  - simpl. unfold makeCall. destruct (Service.isConnected s); simpl;
      [|exact Hmore].
    destruct (Service.currentConfig s); simpl; [|exact Hmore].
    eapply more_ok_add; [..|exact Hmore]; try reflexivity.
    repeat split. discriminate.
  - simpl. destruct (getCall callId s) as [[r0 call]|] eqn:E.
    + destruct (decide (Call.status call = ringing)) as [Hst|Hst].
      * rewrite (answerCall_ringing _ media t _ _ _ E Hst). simpl.
        destruct (getCall_Some _ _ _ _ E) as [_ Hs].
        eapply (more_ok_update t s _ r0 call);
          [reflexivity|exact Hs|reflexivity|reflexivity|..|exact Hmore];
          try reflexivity.
        -- discriminate.
        -- simpl. intros ct [= <-]. right. reflexivity.
      * rewrite (answerCall_not_ringing _ media t _ _ _ E Hst). exact Hmore.
    + rewrite (answerCall_unknown _ media t _ E). exact Hmore.
  - simpl. pose proof (hangupCall_more_ok t callId s Hok Hmore) as H1.
    destruct (hangupCall callId t s) as [[s1 r1] e1]. exact H1.
  - simpl. unfold sendDTMF. destruct (Nat.eqb _ _); exact Hmore.
  - simpl. unfold simulateIncomingCall.
    destruct (Service.currentConfig s); simpl; [|exact Hmore].
    eapply more_ok_add; [..|exact Hmore]; try reflexivity.
    repeat split. discriminate.
  - simpl. apply fireTimer_more_ok; assumption.
  - simpl. destruct Hmore as [Ha [Hs Hh]]. split; [exact Ha|].
    split; [exact Hs|]. simpl. apply Forall_sortByStart. exact Hh.
Qed.

Lemma reachable_more_ok t s : reachable t s -> more_ok t s.
Proof.
  induction 1 as [t|t t' s op Hr IH Hle Hnow].
  - split; [split|split]; simpl.
    + constructor.
    + intros k r H. discriminate.
    + intros r c H. rewrite lookup_nil in H. discriminate.
    + constructor.
  - apply exec_more_ok; [| |exact Hnow].
    + eapply service_ok_mono; [exact Hle|]. apply reachable_service_ok.
      exact Hr.
    + eapply more_ok_mono; eassumption.
Qed.

Lemma s_two_calls_reachable : reachable 3200 Scenario.s_two_calls.
Proof.
  change Scenario.s_two_calls
    with (exec (OpMakeCall "5559876" [] Scenario.bytes2 3200)
               Scenario.s_connected).1.
  apply (reachable_exec 3000); [|lia|intros now [= <-]; reflexivity].
  exact s_connected_reachable.
Qed.

(** ** The active calls *)

Lemma active_objects (m : list (string * nat)) (store : list Call.t) :
  NoDup (map_keys m) ->
  (forall k r, map_get k m = Some r ->
               exists c, store !! r = Some c /\ live k c) ->
  map Call.id (omap (fun r => store !! r) (map_values m)) = map_keys m
  /\ Forall (fun c => exists r, map_get (Call.id c) m = Some r
                                /\ store !! r = Some c
                                /\ live (Call.id c) c)
            (omap (fun r => store !! r) (map_values m)).
Proof.
  induction m as [|[k0 r0] m IH]; intros Hnd H.
  - split; constructor.
  - unfold map_keys in Hnd. simpl in Hnd. apply NoDup_cons in Hnd.
    destruct Hnd as [Hnotin Hnd]. rewrite list_elem_of_In in Hnotin.
    assert (Hother : forall k, In k (map_keys m) -> String.eqb k k0 = false).
    { intros k Hk. destruct (String.eqb k k0) eqn:E; [|reflexivity].
      apply String.eqb_eq in E. subst k. contradiction. }
    destruct (H k0 r0) as (c0 & Hc0 & Hl0).
    { simpl. rewrite String.eqb_refl. reflexivity. }
    destruct IH as [IH1 IH2]; [exact Hnd| |].
    { intros k r Hk. apply H. simpl.
      rewrite (Hother k (map_get_In_keys _ _ _ Hk)). exact Hk. }
    unfold map_values, map_keys in *. simpl. rewrite Hc0. simpl. split.
    + destruct Hl0 as [Hid _]. f_equal; [exact Hid|exact IH1].
    + constructor.
      * exists r0. destruct Hl0 as (Hid & Hrest). rewrite Hid.
        rewrite String.eqb_refl. repeat split; tauto.
      * eapply Forall_impl; [exact IH2|]. intros c (r & Hr & Hs & Hl).
        exists r. rewrite (Hother _ (map_get_In_keys _ _ _ Hr)). tauto.
Qed.

(** X1. In every run of the service, [getActiveCalls] returns one call
    object for each key of the map, filed under its own id; the ids are
    distinct, and none of the calls is ended or has an end time or a
    duration. *)
Theorem active_calls_are_live (t : Z) (s : Service.t) :
  reachable t s ->
  map Call.id (getActiveCalls s) = map_keys (Service.activeCalls s)
  /\ NoDup (map Call.id (getActiveCalls s))
  /\ Forall (fun c =>
               Call.status c <> ended
               /\ Call.endTime c = None
               /\ Call.duration c = 0
               /\ exists r, getCall (Call.id c) s = Some (r, c))
            (getActiveCalls s).
Proof.
  intros Hr. destruct (reachable_more_ok t s Hr) as [[Hnd Hact] _].
  destruct (active_objects _ _ Hnd Hact) as [H1 H2].
  split; [exact H1|]. split.
  - unfold getActiveCalls. rewrite H1. exact Hnd.
  - eapply Forall_impl; [exact H2|].
    intros c (r & Hm & Hs & (_ & L2 & L3 & L4)). repeat split; try assumption.
    exists r. unfold getCall. rewrite Hm, Hs. reflexivity.
Qed.

Lemma active_calls_are_live_witness :
  map Call.id (getActiveCalls Scenario.s_connected)
  = map_keys (Service.activeCalls Scenario.s_connected)
  /\ NoDup (map Call.id (getActiveCalls Scenario.s_connected))
  /\ Forall (fun c =>
               Call.status c <> ended
               /\ Call.endTime c = None
               /\ Call.duration c = 0
               /\ exists r, getCall (Call.id c) Scenario.s_connected
                            = Some (r, c))
            (getActiveCalls Scenario.s_connected).
Proof.
  apply (active_calls_are_live 3000 Scenario.s_connected).
  exact s_connected_reachable.
Defined.

(** X2. In every run with a clock that does not run backwards, no call
    starts in the future, a connect time is never before the start time,
    and in every history entry the start time, the connect time if there
    is one, and the end time come in this order. *)
Theorem call_times_ordered (t : Z) (s : Service.t) :
  reachable t s ->
  (forall r c, Service.store s !! r = Some c ->
               Call.startTime c <= t
               /\ forall ct, Call.connectTime c = Some ct ->
                             Call.startTime c <= ct /\ ct <= t)
  /\ Forall (fun entry =>
               exists e,
                 Call.endTime entry = Some e
                 /\ Call.startTime entry <= e
                 /\ e <= t
                 /\ forall ct, Call.connectTime entry = Some ct ->
                               Call.startTime entry <= ct /\ ct <= e)
            (Service.callHistory s).
Proof.
  intros Hr. destruct (reachable_more_ok t s Hr) as [_ [Hs Hh]].
  destruct (reachable_service_ok t s Hr) as [(_ & _ & _ & Hstamp) Hent].
  split.
  - intros r c H. destruct (Hs r c H) as [H1 H2]. split; [exact H1|].
    intros ct Hct. split; [exact (H2 ct Hct)|exact (Hstamp r c ct H Hct)].
  - rewrite Forall_forall in *. intros h Hin.
    destruct (Hh h Hin) as (e & He & H1 & H2).
    destruct (Hent h Hin) as (e' & He' & Hle & _).
    exists e. split; [exact He|]. split; [exact H1|]. split; [|exact H2].
    assert (e = e') as -> by congruence. exact Hle.
Qed.

Lemma call_times_ordered_witness :
  (forall r c, Service.store Scenario.s_connected !! r = Some c ->
               Call.startTime c <= 3000
               /\ forall ct, Call.connectTime c = Some ct ->
                             Call.startTime c <= ct /\ ct <= 3000)
  /\ Forall (fun entry =>
               exists e,
                 Call.endTime entry = Some e
                 /\ Call.startTime entry <= e
                 /\ e <= 3000
                 /\ forall ct, Call.connectTime entry = Some ct ->
                               Call.startTime entry <= ct /\ ct <= e)
            (Service.callHistory Scenario.s_connected).
Proof.
  apply (call_times_ordered 3000 Scenario.s_connected).
  exact s_connected_reachable.
Defined.

(** X3. In every run, [getStatus] never reports a connected service
    whose registration state is not [registered], or the reverse; the
    number of active calls it reports is the number of calls that
    [getActiveCalls] returns, and without a current config it reports no
    provider, server, user name or feature. *)
Theorem getStatus_consistent (t : Z) (s : Service.t) :
  reachable t s ->
  (Status.isConnected (getStatus s) = true
   <-> Status.registrationState (getStatus s) = registered)
  /\ Status.activeCalls (getStatus s) = length (getActiveCalls s)
  /\ Status.totalCalls (getStatus s) = length (Service.callHistory s)
  /\ (Service.currentConfig s = None ->
      Status.provider (getStatus s) = None
      /\ Status.server (getStatus s) = None
      /\ Status.username (getStatus s) = None
      /\ Status.features (getStatus s) = []).
Proof.
  intros Hr. split; [exact (reachable_connected_iff_registered t s Hr)|].
  split; [|split; [reflexivity|]].
  - destruct (reachable_more_ok t s Hr) as [[Hnd Hact] _].
    destruct (active_objects _ _ Hnd Hact) as [H1 _].
    simpl. unfold map_size, getActiveCalls.
    rewrite <- (length_map Call.id), H1. unfold map_keys.
    rewrite length_map. reflexivity.
  - intros E. unfold getStatus. rewrite E. repeat split.
Qed.

Lemma getStatus_consistent_witness :
  (Status.isConnected (getStatus Scenario.s_connected) = true
   <-> Status.registrationState (getStatus Scenario.s_connected) = registered)
  /\ Status.activeCalls (getStatus Scenario.s_connected)
     = length (getActiveCalls Scenario.s_connected)
  /\ Status.totalCalls (getStatus Scenario.s_connected)
     = length (Service.callHistory Scenario.s_connected)
  /\ (Service.currentConfig Scenario.s_connected = None ->
      Status.provider (getStatus Scenario.s_connected) = None
      /\ Status.server (getStatus Scenario.s_connected) = None
      /\ Status.username (getStatus Scenario.s_connected) = None
      /\ Status.features (getStatus Scenario.s_connected) = []).
Proof.
  apply (getStatus_consistent 3000 Scenario.s_connected).
  exact s_connected_reachable.
Defined.

(** ** Disconnecting *)

Lemma hangupAll_every_call now (m : list (string * nat)) :
  forall s,
    Service.activeCalls s = m ->
    service_ok now s -> more_ok now s ->
    Service.activeCalls (hangupAll (map_keys m) now s).1 = []
    /\ exists entries,
         Service.callHistory (hangupAll (map_keys m) now s).1
         = (Service.callHistory s ++ entries)%list
         /\ map Call.id entries = map_keys m
         /\ Forall (fun entry => Call.status entry = ended
                                 /\ Call.endTime entry = Some now) entries.
Proof.
  induction m as [|[k r] m IH]; intros s Em Hok Hmore.
  - simpl. split; [exact Em|]. exists []. rewrite app_nil_r.
    repeat split. constructor.
  - destruct Hmore as [[Hnd Hact] Htimes].
    destruct (Hact k r) as (c & Hc & Hl).
    { rewrite Em. simpl. rewrite String.eqb_refl. reflexivity. }
    assert (E : getCall k s = Some (r, c)).
    { unfold getCall. rewrite Em. simpl. rewrite String.eqb_refl, Hc.
      reflexivity. }
    pose proof (hangupCall_service_ok now k s Hok) as Hok1.
    pose proof (hangupCall_more_ok now k s Hok
                  (conj (conj Hnd Hact) Htimes)) as Hmore1.
    unfold map_keys. simpl.
    rewrite (hangupCall_active _ now _ _ _ E) in *. simpl in Hok1, Hmore1.
    match type of Hok1 with service_ok _ ?s1 => set (s1' := s1) in * end.
    assert (Em1 : Service.activeCalls s1' = m).
    { subst s1'. simpl. rewrite Em. simpl. rewrite String.eqb_refl.
      apply map_delete_absent. rewrite Em in Hnd. unfold map_keys in *.
      simpl in Hnd. apply NoDup_cons in Hnd. destruct Hnd as [Hn _].
      rewrite list_elem_of_In in Hn. exact Hn. }
    destruct (IH s1' Em1 Hok1 Hmore1) as [IH1 (entries & IH2 & IH3 & IH4)].
    unfold map_keys in *.
    destruct (hangupAll (map fst m) now s1') as [s2 e2]. simpl in *.
    split; [exact IH1|]. eexists (_ :: entries). split; [|split].
    + rewrite IH2. subst s1'. simpl. rewrite <- app_assoc. reflexivity.
    + simpl. rewrite IH3. destruct Hl as [-> _]. reflexivity.
    + constructor; [split; reflexivity|exact IH4].
Qed.

(** X4. In every run, [disconnect] on a connected service succeeds and
    leaves it unregistered, without a config and without any active
    call: every call that was active has been hung up at the time of the
    disconnect and has its entry at the end of the history, in the order
    of the map, and no id names a call any more. *)
Theorem disconnect_ends_every_call (t now : Z) (s : Service.t) :
  reachable t s ->
  t <= now ->
  Service.isConnected s = true ->
  let '(s', result, effects) := disconnect now s in
  Result.success result = true
  /\ Result.message result = Some "Disconnected successfully"
  /\ Service.isConnected s' = false
  /\ Service.registrationState s' = unregistered
  /\ Service.currentConfig s' = None
  /\ Service.activeCalls s' = []
  /\ (exists entries,
         Service.callHistory s' = (Service.callHistory s ++ entries)%list
         /\ map Call.id entries = map_keys (Service.activeCalls s)
         /\ Forall (fun entry => Call.status entry = ended
                                 /\ Call.endTime entry = Some now) entries)
  /\ (forall callId, getCall callId s' = None)
  /\ (exists before, effects
                     = (before ++ [Emit "disconnected" (PTimestamp now)])%list).
Proof.
  intros Hr Hle Hc.
  pose proof (service_ok_mono t now s Hle (reachable_service_ok t s Hr)) as Hok.
  pose proof (more_ok_mono t now s Hle (reachable_more_ok t s Hr)) as Hmore.
  destruct (hangupAll_every_call now (Service.activeCalls s) s eq_refl Hok Hmore)
    as [H1 (entries & H2 & H3 & H4)].
  unfold disconnect. rewrite Hc. simpl.
  destruct (hangupAll (map_keys (Service.activeCalls s)) now s) as [s1 e1].
  simpl in *. repeat split; try assumption.
  - exists entries. repeat split; assumption.
  - intros callId. unfold getCall. simpl. rewrite H1. reflexivity.
  - exists e1. reflexivity.
Qed.

Lemma disconnect_ends_every_call_witness :
  let '(s', result, effects) := disconnect 4000 Scenario.s_two_calls in
  Result.success result = true
  /\ Result.message result = Some "Disconnected successfully"
  /\ Service.isConnected s' = false
  /\ Service.registrationState s' = unregistered
  /\ Service.currentConfig s' = None
  /\ Service.activeCalls s' = []
  /\ (exists entries,
         Service.callHistory s'
         = (Service.callHistory Scenario.s_two_calls ++ entries)%list
         /\ map Call.id entries
            = map_keys (Service.activeCalls Scenario.s_two_calls)
         /\ Forall (fun entry => Call.status entry = ended
                                 /\ Call.endTime entry = Some 4000) entries)
  /\ (forall callId, getCall callId s' = None)
  /\ (exists before, effects
                     = (before ++ [Emit "disconnected" (PTimestamp 4000)])%list).
Proof.
  apply (disconnect_ends_every_call 3200 4000 Scenario.s_two_calls).
  - exact s_two_calls_reachable.
  - lia.
  - vm_compute. reflexivity.
Defined.

(** ** One call at a time *)

(** X6. In every run, hanging up or answering one call leaves every
    other active call as it was: what [activeCalls.get] finds under any
    other id is the same before and after. *)
Theorem other_calls_untouched (t : Z) (s : Service.t)
        (callId other : string) (media : option bool) (now : Z) :
  reachable t s ->
  other <> callId ->
  getCall other (hangupCall callId now s).1.1 = getCall other s
  /\ getCall other (answerCall callId media now s).1.1 = getCall other s.
Proof.
  intros Hr Hne.
  destruct (reachable_service_ok t s Hr) as [(Hndv & _) _].
  assert (Hstore : forall r0 c0 c0',
             getCall callId s = Some (r0, c0) ->
             forall active,
               map_get other active = map_get other (Service.activeCalls s) ->
               match map_get other active with
               | Some r => match <[r0 := c0']> (Service.store s) !! r with
                           | Some c => Some (r, c)
                           | None => None
                           end
               | None => None
               end = getCall other s).
  { intros r0 c0 c0' E active Ha. unfold getCall. rewrite Ha.
    destruct (map_get other (Service.activeCalls s)) as [r|] eqn:Eo;
      [|reflexivity].
    destruct (getCall_Some _ _ _ _ E) as [Hm _].
    rewrite list_lookup_insert_ne; [reflexivity|].
    intros <-. apply Hne. symmetry.
    exact (map_get_same_value _ _ _ _ Hndv Hm Eo). }
  split.
  - destruct (getCall callId s) as [[r0 c0]|] eqn:E;
      [|rewrite (hangupCall_unknown _ now _ E); reflexivity].
    rewrite (hangupCall_active _ now _ _ _ E). unfold getCall at 1. simpl.
    apply (Hstore r0 c0 _ eq_refl).
    apply map_get_delete_other. congruence.
  - destruct (getCall callId s) as [[r0 c0]|] eqn:E;
      [|rewrite (answerCall_unknown _ media now _ E); reflexivity].
    destruct (decide (Call.status c0 = ringing)) as [Hst|Hst];
      [|rewrite (answerCall_not_ringing _ media now _ _ _ E Hst); reflexivity].
    rewrite (answerCall_ringing _ media now _ _ _ E Hst).
    unfold getCall at 1. simpl. apply (Hstore r0 c0 _ eq_refl). reflexivity.
Qed.

Lemma other_calls_untouched_witness :
  getCall Scenario.id2 (hangupCall Scenario.id1 3500 Scenario.s_two_calls).1.1
  = getCall Scenario.id2 Scenario.s_two_calls
  /\ getCall Scenario.id2
       (answerCall Scenario.id1 None 3500 Scenario.s_two_calls).1.1
     = getCall Scenario.id2 Scenario.s_two_calls.
Proof.
  apply (other_calls_untouched 3200 Scenario.s_two_calls
           Scenario.id1 Scenario.id2 None 3500).
  - exact s_two_calls_reachable.
  - discriminate.
Defined.

(** ** A generated id that is already in use *)

Lemma map_size_set_present (k : string) (v : nat) (m : list (string * nat)) :
  is_Some (map_get k m) -> map_size (map_set k v m) = map_size m.
Proof.
  intros [x Hx]. unfold map_size.
  rewrite <- (length_map fst (map_set k v m)), <- (length_map fst m).
  change (map fst (map_set k v m)) with (map_keys (map_set k v m)).
  rewrite map_keys_set. unfold map_has. rewrite Hx. reflexivity.
Qed.

(** X7. [makeCall] does not test whether the generated id is in use. In
    a run where it names an active call, the new call takes its place
    under that id: the number of active calls stays the same, the old
    call object is no longer filed under any id, so that no [hangupCall]
    can reach it and it never gets a history entry, and the history is
    unchanged. *)
Theorem makeCall_reused_id_replaces
        (t : Z) (s : Service.t) (number : string)
        (options : list (string * string)) (randomBytes : list Byte.byte)
        (now : Z) (cfg : SipConfig.t) (old_ref : nat) (old_call : Call.t) :
  reachable t s ->
  Service.isConnected s = true ->
  Service.currentConfig s = Some cfg ->
  getCall (generateCallId randomBytes) s = Some (old_ref, old_call) ->
  let '(s', result, effects) := makeCall number options randomBytes now s in
  Result.success result = true
  /\ map_size (Service.activeCalls s') = map_size (Service.activeCalls s)
  /\ map_keys (Service.activeCalls s') = map_keys (Service.activeCalls s)
  /\ (exists call,
         getCall (generateCallId randomBytes) s'
         = Some (length (Service.store s), call)
         /\ Call.status call = connecting
         /\ Call.startTime call = now)
  /\ Service.store s' !! old_ref = Some old_call
  /\ (forall callId r call, getCall callId s' = Some (r, call) -> r <> old_ref)
  /\ Service.callHistory s' = Service.callHistory s.
Proof.
  intros Hr Hc Hcfg Hold.
  destruct (reachable_service_ok t s Hr) as [(Hndv & Hb & _) _].
  destruct (getCall_Some _ _ _ _ Hold) as [Hm Hs].
  rewrite (makeCall_connected number options randomBytes now s cfg Hc Hcfg).
  cbn [Result.success Service.activeCalls Service.store Service.callHistory].
  split; [reflexivity|]. split; [|split; [|split; [|split; [|split]]]].
  - apply map_size_set_present. eauto.
  - rewrite map_keys_set. unfold map_has. rewrite Hm. reflexivity.
  - eexists. split; [eapply getCall_new_call; reflexivity|]. split; reflexivity.
  - apply lookup_app_l_Some. exact Hs.
  - intros callId r call Hg ->. apply getCall_Some in Hg.
    cbn [Service.activeCalls] in Hg. destruct Hg as [Hg _].
    destruct (String.eqb (generateCallId randomBytes) callId) eqn:E.
    + apply String.eqb_eq in E. subst callId.
      rewrite map_get_set_same in Hg. injection Hg as Hg.
      pose proof (Hb old_ref (map_get_In _ _ _ Hm)). lia.
    + rewrite map_get_set_other in Hg
        by (intros Heq; rewrite Heq, String.eqb_refl in E; discriminate).
      pose proof (map_get_same_value _ _ _ _ Hndv Hm Hg) as Heq.
      rewrite Heq, String.eqb_refl in E. discriminate.
  - reflexivity.
Qed.

Lemma makeCall_reused_id_replaces_witness :
  let '(s', result, effects) :=
    makeCall "5550000" [] Scenario.bytes1 3100 Scenario.s_connected in
  Result.success result = true
  /\ map_size (Service.activeCalls s')
     = map_size (Service.activeCalls Scenario.s_connected)
  /\ map_keys (Service.activeCalls s')
     = map_keys (Service.activeCalls Scenario.s_connected)
  /\ (exists call,
         getCall (generateCallId Scenario.bytes1) s'
         = Some (length (Service.store Scenario.s_connected), call)
         /\ Call.status call = connecting
         /\ Call.startTime call = 3100)
  /\ Service.store s' !! 0%nat
     = Some (Call.mk Scenario.id1 outbound "5551234" None (Some "alice")
                     connected 0 (Some 3000) None 0 (Some "FLEXPBX") [])
  /\ (forall callId r call, getCall callId s' = Some (r, call) -> r <> 0%nat)
  /\ Service.callHistory s' = Service.callHistory Scenario.s_connected.
Proof.
  apply (makeCall_reused_id_replaces
           3000 Scenario.s_connected "5550000" [] Scenario.bytes1 3100
           (sipConfig_of Scenario.alice
              (own "FlexPBX" "flexpbx.local" 5070 "UDP"
                   ["calls"; "sms"; "presence"; "conference"]))
           0%nat
           (Call.mk Scenario.id1 outbound "5551234" None (Some "alice")
                    connected 0 (Some 3000) None 0 (Some "FLEXPBX") [])).
  - exact s_connected_reachable.
  - vm_compute. reflexivity.
  - vm_compute. reflexivity.
  - vm_compute. reflexivity.
Defined.

(** ** Timers *)

Lemma fireTimer_at (i : nat) (now : Z) (s : Service.t) (timer : Timer.t) :
  Service.timers s !! i = Some timer ->
  Timer.due timer <= now ->
  fireTimer i now s = runCallback (Timer.callback timer) now (dropTimer i s).
Proof.
  intros H Hdue. unfold fireTimer. rewrite H.
  destruct (Z.leb_spec (Timer.due timer) now); [reflexivity|lia].
Qed.

Lemma fireTimer_early (i : nat) (now : Z) (s : Service.t) (timer : Timer.t) :
  Service.timers s !! i = Some timer ->
  now < Timer.due timer ->
  fireTimer i now s = (s, []).
Proof.
  intros H Hdue. unfold fireTimer. rewrite H.
  destruct (Z.leb_spec (Timer.due timer) now); [lia|reflexivity].
Qed.

Lemma s_incoming_then_dialing_reachable :
  reachable 5000 Scenario.s_incoming_then_dialing.
Proof.
  change Scenario.s_incoming_then_dialing
    with (exec (OpMakeCall "5559876" [] Scenario.bytes2 5000)
               Scenario.s_incoming).1.
  apply (reachable_exec 0); [|lia|intros now [= <-]; reflexivity].
  change Scenario.s_incoming
    with (exec (OpIncomingCall "+1 (336) 462-6141" (Some "Test Caller")
                               Scenario.bytes1 0)
               Scenario.s_registered).1.
  apply (reachable_exec 0); [|lia|intros now [= <-]; reflexivity].
  change Scenario.s_registered
    with (exec (OpConnectFinish
                  (sipConfig_of Scenario.alice
                     (own "FlexPBX" "flexpbx.local" 5070 "UDP"
                          ["calls"; "sms"; "presence"; "conference"]),
                   own "FlexPBX" "flexpbx.local" 5070 "UDP"
                       ["calls"; "sms"; "presence"; "conference"]))
               (exec (OpConnectBegin Scenario.alice)
                     (exec (OpInitialize true) initial).1).1).1.
  apply (reachable_exec 0); [|lia|discriminate].
  apply (reachable_exec 0); [|lia|discriminate].
  apply (reachable_exec 0); [|lia|discriminate].
  apply reachable_initial.
Qed.

(** X8. An inbound call that is not answered is ended by its timer.
    [simulateIncomingCall], on a service with a config, files the call as
    [ringing] and arms a timer for thirty seconds later that captures the
    id and the call object. In any state of a run in which that timer is
    pending and the captured call is still ringing:
    - fired before it is due, the timer does nothing;
    - fired when it is due, the captured call still filed under its id,
      it hangs the call up: the call is no longer active, the timer is
      gone, and the history has one more entry, the call ended at the
      time of the firing, with duration 0 if it was never connected;
    - fired when it is due, another call filed under the id meanwhile,
      it hangs up that other call, and the captured call stays as it
      was, ringing. *)
Theorem unanswered_incoming_call_times_out
        (t : Z) (s : Service.t) (i : nat) (due fired : Z)
        (callId : string) (r : nat) (call : Call.t) :
  reachable t s ->
  Service.timers s !! i = Some (Timer.mk due (CbAutoHangup callId r)) ->
  Service.store s !! r = Some call ->
  Call.status call = ringing ->
  (forall fromNumber fromName randomBytes now s0 cfg,
      Service.currentConfig s0 = Some cfg ->
      let s1 :=
        (simulateIncomingCall fromNumber fromName randomBytes now s0).1.1 in
      Service.timers s1
      = (Service.timers s0
           ++ [Timer.mk (now + 30000)
                        (CbAutoHangup (generateCallId randomBytes)
                                      (length (Service.store s0)))])%list
      /\ getCall (generateCallId randomBytes) s1
         = Some (length (Service.store s0),
                 Call.mk (generateCallId randomBytes) inbound fromNumber
                         fromName (SipConfig.username cfg) ringing now None
                         None 0 (SipConfig.provider cfg) []))
  /\ (fired < due -> fireTimer i fired s = (s, []))
  /\ (due <= fired ->
      map_get callId (Service.activeCalls s) = Some r ->
      let entry :=
        Call.mk (Call.id call) (Call.direction call) (Call.remoteNumber call)
                (Call.remoteName call) (Call.localNumber call) ended
                (Call.startTime call) (Call.connectTime call) (Some fired)
                (match Call.connectTime call with
                 | Some connectTime => fired - connectTime
                 | None => 0
                 end)
                (Call.provider call) (Call.options call) in
      let '(s2, effects) := fireTimer i fired s in
      getCall callId s2 = None
      /\ Service.timers s2 = delete i (Service.timers s)
      /\ Service.callHistory s2 = (Service.callHistory s ++ [entry])%list
      /\ Service.store s2 !! r = Some entry
      /\ effects = [Emit "call-ended" (PCall entry)])
  /\ (due <= fired ->
      forall other,
        map_get callId (Service.activeCalls s) = Some other ->
        other <> r ->
        fireTimer i fired s
        = (let '(s2, _, effects) :=
             hangupCall callId fired (dropTimer i s) in
           (s2, effects))
        /\ Service.store (fireTimer i fired s).1 !! r = Some call).
Proof.
  intros Hr Ht Hs Hst.
  split; [|split; [|split]].
  - intros fromNumber fromName randomBytes now s0 cfg Hcfg.
    unfold simulateIncomingCall. rewrite Hcfg. cbv zeta.
    cbn [fst snd Service.timers]. split; [reflexivity|].
    eapply getCall_new_call; reflexivity.
  - intros Hearly. apply (fireTimer_early _ _ _ _ Ht). simpl. lia.
  - intros Hdue Hm. cbv zeta.
    rewrite (fireTimer_at _ _ _ _ Ht) by (simpl; lia).
    cbn [Timer.callback runCallback]. unfold map_has.
    cbn [dropTimer Service.activeCalls Service.store].
    rewrite Hm, Hs, Hst. cbn [CallStatus_eqb andb].
    assert (Hg : getCall callId (dropTimer i s) = Some (r, call)).
    { unfold getCall. cbn [dropTimer Service.activeCalls Service.store].
      rewrite Hm, Hs. reflexivity. }
    assert (Hd : Call.duration call = 0).
    { destruct (reachable_service_ok t s Hr) as [(_ & _ & Hdur & _) _].
      apply (Hdur r call); [|exact Hs].
      exact (map_get_In _ _ _ Hm). }
    pose proof (getCall_after_hangup callId fired (dropTimer i s)) as Hgone.
    rewrite (hangupCall_active _ fired _ _ _ Hg) in *.
    cbn [fst snd] in Hgone. rewrite Hd in *.
    split; [exact Hgone|].
    cbn [dropTimer Service.timers Service.callHistory Service.store].
    repeat split.
    apply list_lookup_insert_eq. apply lookup_lt_Some in Hs. exact Hs.
  - intros Hdue other Hm Hne.
    rewrite (fireTimer_at _ _ _ _ Ht) by (simpl; lia).
    cbn [Timer.callback runCallback]. unfold map_has.
    cbn [dropTimer Service.activeCalls Service.store].
    rewrite Hm, Hs, Hst. cbn [CallStatus_eqb andb].
    split; [reflexivity|].
    destruct (getCall callId (dropTimer i s)) as [[r0 c0]|] eqn:Hg.
    + rewrite (hangupCall_active _ fired _ _ _ Hg).
      cbn [fst snd Service.store dropTimer].
      destruct (getCall_Some _ _ _ _ Hg) as [Hm0 _].
      cbn [dropTimer Service.activeCalls] in Hm0.
      assert (r0 = other) by congruence. subst r0.
      rewrite list_lookup_insert_ne by exact Hne. exact Hs.
    + rewrite (hangupCall_unknown _ fired _ Hg). exact Hs.
Qed.

Lemma unanswered_incoming_call_times_out_witness :
  let call :=
    Call.mk Scenario.id1 inbound "+1 (336) 462-6141" (Some "Test Caller")
            (Some "alice") ringing 0 None None 0 (Some "FLEXPBX") [] in
  let entry :=
    Call.mk Scenario.id1 inbound "+1 (336) 462-6141" (Some "Test Caller")
            (Some "alice") ended 0 None (Some 30000) 0 (Some "FLEXPBX") [] in
  Service.store Scenario.s_incoming_then_dialing !! 0%nat = Some call
  /\ (let '(s2, effects) :=
        fireTimer 0 30000 Scenario.s_incoming_then_dialing in
      getCall Scenario.id1 s2 = None
      /\ Service.timers s2
         = delete 0%nat (Service.timers Scenario.s_incoming_then_dialing)
      /\ Service.callHistory s2
         = (Service.callHistory Scenario.s_incoming_then_dialing
              ++ [entry])%list
      /\ Service.store s2 !! 0%nat = Some entry
      /\ effects = [Emit "call-ended" (PCall entry)]).
Proof.
  intros call entry.
  assert (Hs : Service.store Scenario.s_incoming_then_dialing !! 0%nat
               = Some call) by (vm_compute; reflexivity).
  split; [exact Hs|].
  refine (proj1 (proj2 (proj2
            (unanswered_incoming_call_times_out
               5000 Scenario.s_incoming_then_dialing 0 30000 30000
               Scenario.id1 0 call
               s_incoming_then_dialing_reachable _ Hs _))) _ _).
  - vm_compute. reflexivity.
  - reflexivity.
  - lia.
  - vm_compute. reflexivity.
Defined.

Lemma mutate_last (f : Call.t -> Call.t) (s : Service.t)
      (store : list Call.t) (call : Call.t) :
  Service.store s = (store ++ [call])%list ->
  mutate (length store) f s
  = Service.mk (Service.isConnected s) (Service.currentConfig s)
               (Service.registrationState s)
               (Service.activeCalls s) (Service.callHistory s)
               (Service.audioContext s) (Service.localStream s)
               (store ++ [f call]) (Service.timers s).
Proof.
  intros E. unfold mutate. rewrite E.
  rewrite lookup_app_r by lia. rewrite Nat.sub_diag. simpl.
  rewrite insert_app_r_alt by lia. rewrite Nat.sub_diag. reflexivity.
Qed.

(** X9. The simulated progress of an outbound call. After [makeCall] on
    a connected service with a config, the first timer of the call, fired
    a second or more after the call was placed, makes it [ringing]; the
    second, fired three seconds or more after, makes it [connected] with
    the time of the firing as connect time. Both timers are then used up,
    and a [hangupCall] reports the time since that firing as duration. *)
Theorem outbound_call_connects
        (number : string) (options : list (string * string))
        (randomBytes : list Byte.byte) (now t1 t2 : Z) (s : Service.t)
        (cfg : SipConfig.t) :
  Service.isConnected s = true ->
  Service.currentConfig s = Some cfg ->
  now + 1000 <= t1 ->
  now + 3000 <= t2 ->
  let callId := generateCallId randomBytes in
  let call :=
    Call.mk callId outbound number None (SipConfig.username cfg) connecting
            now None None 0 (SipConfig.provider cfg) options in
  let r := length (Service.store s) in
  let timer := length (Service.timers s) in
  let s1 := (makeCall number options randomBytes now s).1.1 in
  let s2 := (fireTimer timer t1 s1).1 in
  let s3 := (fireTimer timer t2 s2).1 in
  getCall callId s1 = Some (r, call)
  /\ getCall callId s2 = Some (r, Call.set_status ringing call)
  /\ getCall callId s3
     = Some (r, Call.set_connectTime (Some t2) (Call.set_status connected call))
  /\ Service.timers s3 = Service.timers s
  /\ forall t3,
       Result.duration (hangupCall callId t3 s3).1.2 = Some (t3 - t2).
Proof.
  intros Hc Hcfg H1 H2.
  rewrite (makeCall_connected number options randomBytes now s cfg Hc Hcfg).
  cbv zeta.
  set (callId := generateCallId randomBytes).
  set (call := Call.mk callId outbound _ _ _ connecting _ _ _ _ _ _).
  cbn [fst snd].
  set (s1 := Service.mk _ _ _ _ _ _ _ _ _).
  assert (Ht1 : Service.timers s1 !! length (Service.timers s)
                = Some (Timer.mk (now + 1000)
                          (CbRinging (length (Service.store s))))).
  { subst s1. cbn [Service.timers]. rewrite lookup_app_r by lia.
    rewrite Nat.sub_diag. reflexivity. }
  rewrite (fireTimer_at _ _ _ _ Ht1) by (cbn [Timer.due]; lia).
  cbn [Timer.callback runCallback fst snd].
  rewrite (mutate_last _ _ (Service.store s) call) by reflexivity.
  subst s1. cbn [dropTimer Service.isConnected Service.currentConfig
                 Service.registrationState Service.activeCalls
                 Service.callHistory Service.audioContext
                 Service.localStream Service.store Service.timers].
  rewrite delete_middle.
  set (s2 := Service.mk _ _ _ _ _ _ _ (Service.store s ++ [Call.set_status _ _])
                        _).
  assert (Ht2 : Service.timers s2 !! length (Service.timers s)
                = Some (Timer.mk (now + 3000)
                          (CbConnected (length (Service.store s))))).
  { subst s2. cbn [Service.timers]. rewrite lookup_app_r by lia.
    rewrite Nat.sub_diag. reflexivity. }
  rewrite (fireTimer_at _ _ _ _ Ht2) by (cbn [Timer.due]; lia).
  cbn [Timer.callback runCallback fst snd].
  rewrite (mutate_last _ _ (Service.store s) (Call.set_status ringing call))
    by reflexivity.
  subst s2. cbn [dropTimer Service.isConnected Service.currentConfig
                 Service.registrationState Service.activeCalls
                 Service.callHistory Service.audioContext
                 Service.localStream Service.store Service.timers].
  rewrite delete_middle.
  set (s3 := Service.mk _ _ _ _ _ _ _
               (Service.store s ++ [Call.set_connectTime _ _]) _).
  assert (Hg3 : getCall callId s3
                = Some (length (Service.store s),
                        Call.set_connectTime (Some t2)
                          (Call.set_status connected call))).
  { eapply getCall_new_call; reflexivity. }
  split; [eapply getCall_new_call; reflexivity|].
  split; [eapply getCall_new_call; reflexivity|].
  split; [exact Hg3|]. split; [subst s3; apply app_nil_r|].
  intros t3. rewrite (hangupCall_active _ t3 _ _ _ Hg3). reflexivity.
Qed.

Lemma outbound_call_connects_witness :
  let callId := generateCallId Scenario.bytes1 in
  let call :=
    Call.mk callId outbound "5551234" None (Some "alice") connecting
            0 None None 0 (Some "FLEXPBX") [] in
  let r := length (Service.store Scenario.s_registered) in
  let timer := length (Service.timers Scenario.s_registered) in
  let s1 := (makeCall "5551234" [] Scenario.bytes1 0 Scenario.s_registered).1.1 in
  let s2 := (fireTimer timer 1000 s1).1 in
  let s3 := (fireTimer timer 3000 s2).1 in
  getCall callId s1 = Some (r, call)
  /\ getCall callId s2 = Some (r, Call.set_status ringing call)
  /\ getCall callId s3
     = Some (r, Call.set_connectTime (Some 3000)
                  (Call.set_status connected call))
  /\ Service.timers s3 = Service.timers Scenario.s_registered
  /\ forall t3,
       Result.duration (hangupCall callId t3 s3).1.2 = Some (t3 - 3000).
Proof.
  apply (outbound_call_connects
           "5551234" [] Scenario.bytes1 0 1000 3000 Scenario.s_registered
           (sipConfig_of Scenario.alice
              (own "FlexPBX" "flexpbx.local" 5070 "UDP"
                   ["calls"; "sms"; "presence"; "conference"]))).
  - vm_compute. reflexivity.
  - vm_compute. reflexivity.
  - lia.
  - lia.
Defined.

(** X10. An inbound call that is answered is left alone by its timer:
    after [simulateIncomingCall] and an [answerCall] at time [answered],
    the call is connected with that connect time, and whenever the
    thirty-second timer fires afterwards the call is still active and
    connected and the history is unchanged. *)
Theorem answered_incoming_call_stays
        (fromNumber : string) (fromName : option string)
        (randomBytes : list Byte.byte) (media : option bool)
        (now answered fired : Z) (s : Service.t) (cfg : SipConfig.t) :
  Service.currentConfig s = Some cfg ->
  let callId := generateCallId randomBytes in
  let call' :=
    Call.mk callId inbound fromNumber fromName (SipConfig.username cfg)
            connected now (Some answered) None 0 (SipConfig.provider cfg) [] in
  let s1 :=
    (simulateIncomingCall fromNumber fromName randomBytes now s).1.1 in
  let '(s2, result, _) := answerCall callId media answered s1 in
  let s3 := (fireTimer (length (Service.timers s)) fired s2).1 in
  Result.success result = true
  /\ getCall callId s2 = Some (length (Service.store s), call')
  /\ getCall callId s3 = Some (length (Service.store s), call')
  /\ Service.callHistory s3 = Service.callHistory s.
Proof.
  intros Hcfg. cbv zeta. unfold simulateIncomingCall. rewrite Hcfg.
  cbn [fst snd].
  set (callId := generateCallId randomBytes).
  set (call := Call.mk callId inbound _ _ _ ringing _ _ _ _ _ _).
  set (s1 := Service.mk _ _ _ _ _ _ _ _ _).
  assert (Hg1 : getCall callId s1 = Some (length (Service.store s), call)).
  { eapply getCall_new_call; reflexivity. }
  rewrite (answerCall_ringing _ media answered _ _ _ Hg1 eq_refl).
  subst s1. cbn [Service.isConnected Service.currentConfig
                 Service.registrationState Service.activeCalls
                 Service.callHistory Service.audioContext
                 Service.localStream Service.store Service.timers Call.id
                 Call.direction Call.remoteNumber Call.remoteName
                 Call.localNumber Call.startTime Call.endTime Call.duration
                 Call.provider Call.options call].
  rewrite insert_app_r_alt by lia. rewrite Nat.sub_diag.
  cbn [insert list_insert].
  set (call' := Call.mk callId inbound _ _ _ connected _ _ _ _ _ _).
  set (s2 := Service.mk _ _ _ _ _ _ _ _ _).
  assert (Hg2 : getCall callId s2 = Some (length (Service.store s), call')).
  { eapply getCall_new_call; reflexivity. }
  split; [reflexivity|]. split; [exact Hg2|].
  assert (Ht : Service.timers s2 !! length (Service.timers s)
               = Some (Timer.mk (now + 30000)
                         (CbAutoHangup callId (length (Service.store s))))).
  { subst s2. cbn [Service.timers]. rewrite lookup_app_r by lia.
    rewrite Nat.sub_diag. reflexivity. }
  destruct (Z.le_gt_cases (now + 30000) fired) as [Hdue|Hearly].
  - rewrite (fireTimer_at _ _ _ _ Ht) by (cbn [Timer.due]; lia).
    cbn [Timer.callback runCallback].
    assert (Hs : Service.store (dropTimer (length (Service.timers s)) s2)
                 !! length (Service.store s) = Some call').
    { subst s2. cbn [dropTimer Service.store]. rewrite lookup_app_r by lia.
      rewrite Nat.sub_diag. reflexivity. }
    rewrite Hs. cbn [Call.status call' CallStatus_eqb]. rewrite andb_false_r.
    cbn [fst]. split; [|reflexivity].
    eapply getCall_new_call; reflexivity.
  - rewrite (fireTimer_early _ _ _ _ Ht) by (cbn [Timer.due]; lia).
    split; [exact Hg2|reflexivity].
Qed.

Lemma answered_incoming_call_stays_witness :
  let callId := generateCallId Scenario.bytes1 in
  let call' :=
    Call.mk callId inbound "+1 (336) 462-6141" (Some "Test Caller")
            (Some "alice") connected 0 (Some 4000) None 0 (Some "FLEXPBX") [] in
  let s1 :=
    (simulateIncomingCall "+1 (336) 462-6141" (Some "Test Caller")
                          Scenario.bytes1 0 Scenario.s_registered).1.1 in
  let '(s2, result, _) := answerCall callId (Some true) 4000 s1 in
  let s3 :=
    (fireTimer (length (Service.timers Scenario.s_registered)) 30000 s2).1 in
  Result.success result = true
  /\ getCall callId s2
     = Some (length (Service.store Scenario.s_registered), call')
  /\ getCall callId s3
     = Some (length (Service.store Scenario.s_registered), call')
  /\ Service.callHistory s3 = Service.callHistory Scenario.s_registered.
Proof.
  apply (answered_incoming_call_stays
           "+1 (336) 462-6141" (Some "Test Caller") Scenario.bytes1
           (Some true) 0 4000 30000 Scenario.s_registered
           (sipConfig_of Scenario.alice
              (own "FlexPBX" "flexpbx.local" 5070 "UDP"
                   ["calls"; "sms"; "presence"; "conference"]))).
  vm_compute. reflexivity.
Defined.

(** ** The history *)

Lemma In_insertByStart (c x : Call.t) (l : list Call.t) :
  In x (insertByStart c l) <-> x = c \/ In x l.
Proof.
  induction l as [|y l IH]; simpl; [intuition|].
  destruct (Z.leb (Call.startTime y) (Call.startTime c)); simpl;
    [intuition|]. rewrite IH. intuition.
Qed.

Lemma In_sortByStart (x : Call.t) (l : list Call.t) :
  In x (sortByStart l) <-> In x l.
Proof.
  induction l as [|y l IH]; simpl; [tauto|].
  rewrite In_insertByStart, IH. intuition.
Qed.

Lemma hangupCall_history_kept callId now s h :
  In h (Service.callHistory s) ->
  In h (Service.callHistory (hangupCall callId now s).1.1).
Proof.
  intros H. destruct (getCall callId s) as [[r call]|] eqn:E.
  - rewrite (hangupCall_active _ now _ _ _ E). simpl.
    apply in_app_iff. left. exact H.
  - rewrite (hangupCall_unknown _ now _ E). exact H.
Qed.

Lemma hangupAll_history_kept callIds now s h :
  In h (Service.callHistory s) ->
  In h (Service.callHistory (hangupAll callIds now s).1).
Proof.
  revert s. induction callIds as [|callId rest IH]; intros s H; simpl;
    [exact H|].
  pose proof (hangupCall_history_kept callId now s h H) as H1.
  destruct (hangupCall callId now s) as [[s1 r1] e1]. simpl in H1.
  pose proof (IH s1 H1) as H2.
  destruct (hangupAll rest now s1) as [s2 e2]. exact H2.
Qed.

Lemma exec_history_kept op s h :
  In h (Service.callHistory s) ->
  In h (Service.callHistory (exec op s).1).
Proof.
  intros H. destruct op; simpl.
  - unfold initialize. destruct hasAudioContext; exact H.
  - unfold connect_begin, connect_catch.
    destruct (negb (Validation.valid (validateConfig config))); [exact H|].
    destruct (getProvider (Config.provider config)); exact H.
  - destruct k as [cfg p]. exact H.
  - unfold disconnect. destruct (Service.isConnected s); simpl; [|exact H].
    pose proof (hangupAll_history_kept
                  (map_keys (Service.activeCalls s)) now s h H) as H1.
    destruct (hangupAll _ now s) as [s1 e1]. exact H1.
  - unfold makeCall. destruct (Service.isConnected s); simpl; [|exact H].
    destruct (Service.currentConfig s); exact H.
  - unfold answerCall. destruct (getCall callId s) as [[r call]|]; [|exact H].
    destruct (negb _); exact H.
  - pose proof (hangupCall_history_kept callId now s h H) as H1.
    destruct (hangupCall callId now s) as [[s1 r1] e1]. exact H1.
  - unfold sendDTMF. destruct (Nat.eqb _ _); exact H.
  - unfold simulateIncomingCall. destruct (Service.currentConfig s); exact H.
  - unfold fireTimer. destruct (Service.timers s !! i) as [timer|]; [|exact H].
    destruct (Z.leb (Timer.due timer) now); [|exact H].
    destruct (Timer.callback timer) as [r0|r0|callId r0]; simpl.
    + unfold mutate. simpl. destruct (Service.store s !! r0); exact H.
    + unfold mutate. simpl. destruct (Service.store s !! r0); exact H.
    + destruct (_ && _); [|exact H].
      pose proof (hangupCall_history_kept callId now (dropTimer i s) h H) as H1.
      destruct (hangupCall callId now (dropTimer i s)) as [[s1 r1] e1].
      exact H1.
  - apply In_sortByStart. exact H.
Qed.

(** X11. No operation of the service, and no timer, removes or rewrites
    a history entry: every entry of the history is still an entry after
    any run. ([getCallHistory] may move it.) *)
Theorem history_entries_persist (ops : list Op) (s : Service.t) :
  Forall (fun entry => In entry (Service.callHistory (run ops s)))
         (Service.callHistory s).
Proof.
  apply Forall_forall. intros h Hin. apply list_elem_of_In in Hin.
  revert s Hin. induction ops as [|op ops IH]; intros s Hin; simpl;
    [exact Hin|].
  apply IH. apply exec_history_kept. exact Hin.
Qed.

Lemma insertByStart_perm (c : Call.t) (l : list Call.t) :
  Permutation (c :: l) (insertByStart c l).
Proof.
  induction l as [|y l IH]; simpl; [reflexivity|].
  destruct (Z.leb (Call.startTime y) (Call.startTime c)); [reflexivity|].
  rewrite <- IH. apply perm_swap.
Qed.

Lemma sortByStart_perm (l : list Call.t) : Permutation l (sortByStart l).
Proof.
  induction l as [|y l IH]; simpl; [reflexivity|].
  rewrite <- insertByStart_perm. apply perm_skip. exact IH.
Qed.

Lemma insertByStart_sorted (c : Call.t) (l : list Call.t) :
  StronglySorted newer_first l -> StronglySorted newer_first (insertByStart c l).
Proof.
  induction 1 as [|y l Hs IH Hy]; simpl.
  - constructor; constructor.
  - destruct (Z.leb_spec (Call.startTime y) (Call.startTime c)) as [Hle|Hgt].
    + constructor; [constructor; assumption|]. constructor; [exact Hle|].
      eapply Forall_impl; [exact Hy|]. unfold newer_first. intros x Hx. lia.
    + constructor; [exact IH|]. apply Forall_insertByStart; [|exact Hy].
      unfold newer_first. lia.
Qed.

Lemma sortByStart_sorted (l : list Call.t) :
  StronglySorted newer_first (sortByStart l).
Proof.
  induction l as [|y l IH]; simpl; [constructor|].
  apply insertByStart_sorted. exact IH.
Qed.

Lemma sortByStart_of_sorted (l : list Call.t) :
  StronglySorted newer_first l -> sortByStart l = l.
Proof.
  induction 1 as [|y l Hs IH Hy]; simpl; [reflexivity|]. rewrite IH.
  destruct l as [|x l]; simpl; [reflexivity|].
  apply Forall_cons in Hy. destruct Hy as [Hx _]. unfold newer_first in Hx.
  destruct (Z.leb_spec (Call.startTime x) (Call.startTime y)); [reflexivity|lia].
Qed.

(** X12. [getCallHistory] sorts the stored history in place: afterwards
    the history holds the same entries, most recent start first, and the
    rest of the state is unchanged. What it returns is the beginning of
    that sorted history, at most [limit] entries for a [limit] that is not
    negative, and asking again returns the same. *)
Theorem getCallHistory_sorts_in_place (limit : Z) (s : Service.t) :
  let '(s', result) := getCallHistory limit s in
  Permutation (Service.callHistory s) (Service.callHistory s')
  /\ StronglySorted newer_first (Service.callHistory s')
  /\ registration s' = registration s
  /\ Service.activeCalls s' = Service.activeCalls s
  /\ Service.store s' = Service.store s
  /\ Service.timers s' = Service.timers s
  /\ (0 <= limit ->
      result = take (Z.to_nat limit) (Service.callHistory s')
      /\ length result
         = Nat.min (Z.to_nat limit) (length (Service.callHistory s)))
  /\ getCallHistory limit s' = (s', result).
Proof.
  unfold getCallHistory. simpl.
  pose proof (sortByStart_perm (Service.callHistory s)) as Hp.
  pose proof (sortByStart_sorted (Service.callHistory s)) as Hs.
  repeat split; try assumption.
  - unfold slice0. destruct (Z.ltb_spec limit 0); [lia|reflexivity].
  - unfold slice0. destruct (Z.ltb_spec limit 0); [lia|].
    rewrite length_take. rewrite (Permutation_length Hp). reflexivity.
  - rewrite (sortByStart_of_sorted _ Hs). reflexivity.
Qed.

(** ** Call ids *)

Lemma unhex_hex_digit (n : N) : (n < 16)%N -> unhex (hex_digit n) = n.
Proof.
  intros H. destruct n as [|p]; [reflexivity|].
  do 5 (try (destruct p as [p|p|]; try reflexivity; try lia)).
Qed.

Lemma to_hex_injective (b1 b2 : list Byte.byte) :
  to_hex b1 = to_hex b2 -> b1 = b2.
Proof.
  revert b2. induction b1 as [|x b1 IH]; intros [|y b2] H; simpl in H;
    try discriminate; [reflexivity|].
  injection H as Hhi Hlo Hrest. f_equal; [|exact (IH b2 Hrest)].
  assert (Hx := Byte.to_N_bounded x). assert (Hy := Byte.to_N_bounded y).
  assert (E : Byte.to_N x = Byte.to_N y).
  { apply (f_equal unhex) in Hhi, Hlo.
    rewrite !unhex_hex_digit in Hhi, Hlo
      by (try apply N.mod_lt; try apply N.Div0.div_lt_upper_bound; lia).
    rewrite (N.div_mod (Byte.to_N x) 16), (N.div_mod (Byte.to_N y) 16) by lia.
    congruence. }
  apply (f_equal Byte.of_N) in E. rewrite !Byte.of_to_N in E. congruence.
Qed.

Lemma to_hex_length (b : list Byte.byte) :
  String.length (to_hex b) = (2 * length b)%nat.
Proof. induction b as [|x b IH]; simpl; [reflexivity|]. rewrite IH. lia. Qed.

(** X13. [generateCallId] is the text "call_" followed by two
    hexadecimal characters for each random byte, 21 characters for the
    eight bytes of the source; two ids are the same only when the bytes
    drawn are the same. *)
Theorem generateCallId_injective (b1 b2 : list Byte.byte) :
  (generateCallId b1 = generateCallId b2 <-> b1 = b2)
  /\ String.length (generateCallId b1) = (5 + 2 * length b1)%nat
  /\ (length b1 = 8%nat -> String.length (generateCallId b1) = 21%nat)
  /\ exists hex, generateCallId b1 = "call_" ++ hex.
Proof.
  unfold generateCallId. split; [split|].
  - intros H. simpl in H. apply to_hex_injective. congruence.
  - intros ->. reflexivity.
  - assert (Hl : String.length ("call_" ++ to_hex b1)
                 = (5 + 2 * length b1)%nat).
    { simpl. rewrite to_hex_length. reflexivity. }
    split; [exact Hl|]. split; [|eauto].
    intros H8. rewrite Hl, H8. reflexivity.
Qed.

(** ** Providers *)

(** X14. Every provider that [getSupportedProviders] lists can be
    connected to: with its id, a user name and a password, and a server
    of the user's where the provider is CUSTOM, [connect] succeeds, and the
    stored config has the listed default port, transport and features and
    the listed default server unless the user gave one. *)
Theorem listed_provider_connects
        (info : ProviderInfo.t) (server username password : option string)
        (s : Service.t) :
  In info getSupportedProviders ->
  truthy_str username = true ->
  truthy_str password = true ->
  ProviderInfo.id info <> "CUSTOM" \/ truthy_str server = true ->
  let config :=
    Config.mk (Some (ProviderInfo.id info)) server None username password
              None None in
  let '(s', result, effects) := connect config s in
  Result.success result = true
  /\ Service.isConnected s' = true
  /\ Service.currentConfig s'
     = Some (SipConfig.mk (Some (ProviderInfo.id info))
                          (or_str server (ProviderInfo.defaultServer info))
                          (ProviderInfo.defaultPort info)
                          username password username
                          (ProviderInfo.transport info)
                          (ProviderInfo.features info)).
Proof.
  intros Hin Hu Hp Hserver.
  assert (Hd : or_str None username = username).
  { unfold or_str. reflexivity. }
  simpl in Hin.
  destruct Hin as [<-|[<-|[<-|[<-|[<-|[<-|[]]]]]]];
    cbn [ProviderInfo.id ProviderInfo.defaultServer ProviderInfo.defaultPort
         ProviderInfo.transport ProviderInfo.features] in *;
    unfold connect, connect_begin, validateConfig;
    cbn [Config.provider Config.username Config.password Config.server
         truthy_str];
    rewrite ?Hu, ?Hp;
    try (destruct Hserver as [Hs|Hs]; [congruence|rewrite Hs]);
    cbn -[or_str]; repeat split.
Qed.

Lemma listed_provider_connects_witness :
  let info :=
    ProviderInfo.mk "TWILIO" (Some "Twilio") (Some "edge.twilio.com")
                    (Some 5060) (Some "TLS") (Some ["calls"; "sms"; "video"]) in
  let config :=
    Config.mk (Some (ProviderInfo.id info)) None None (Some "alice")
              (Some "secret") None None in
  let '(s', result, effects) := connect config initial in
  Result.success result = true
  /\ Service.isConnected s' = true
  /\ Service.currentConfig s'
     = Some (SipConfig.mk (Some (ProviderInfo.id info))
                          (or_str None (ProviderInfo.defaultServer info))
                          (ProviderInfo.defaultPort info)
                          (Some "alice") (Some "secret") (Some "alice")
                          (ProviderInfo.transport info)
                          (ProviderInfo.features info)).
Proof.
  apply (listed_provider_connects
           (ProviderInfo.mk "TWILIO" (Some "Twilio") (Some "edge.twilio.com")
                            (Some 5060) (Some "TLS")
                            (Some ["calls"; "sms"; "video"]))
           None (Some "alice") (Some "secret") initial).
  - vm_compute. tauto.
  - reflexivity.
  - reflexivity.
  - left. discriminate.
Defined.

(** ** The tone generator of the dialer *)

Lemma keypad_table (c : ascii) :
  bool_decide
    (is_Some (DTMFService.dtmfFrequencies
                (DTMFService.toUpperCase (String c EmptyString))))
  = keypad_char c.
Proof. destruct c as [[] [] [] [] [] [] [] []]; reflexivity. Qed.

Lemma dtmfFrequencies_one_char (key : string) :
  is_Some (DTMFService.dtmfFrequencies (DTMFService.toUpperCase key)) <->
  exists c, key = String c EmptyString /\ keypad_char c = true.
Proof.
  destruct key as [|c [|c' rest]].
  - split; [intros [x Hx]; discriminate|intros (c & Hc & _); discriminate].
  - split.
    + intros H. exists c. split; [reflexivity|].
      rewrite <- keypad_table. apply bool_decide_eq_true. exact H.
    + intros (c0 & [= <-] & H). rewrite <- keypad_table in H.
      apply bool_decide_eq_true in H. exact H.
  - split; [intros [x Hx]; discriminate|intros (c0 & Hc & _); discriminate].
Qed.

(** X15. [playDTMFTone] returns true, and then has played exactly one
    tone, in these cases only: the generator is enabled, it has an audio
    context that is running or can be resumed, the oscillators do not
    throw, and the digit is one character among 0-9, [*], [#], A-D and
    a-d. In every other case it returns false and plays nothing. *)
Theorem playDTMFTone_accepts
        (digit : string) (resume_ok oscillators_ok : bool) (s : DTMFService.t) :
  let '(s', played, tones) :=
    DTMFService.playDTMFTone digit resume_ok oscillators_ok s in
  (played = true
   <-> DTMFService.enabled s = true
       /\ (DTMFService.audioContext s = Some DTMFService.running
           \/ (DTMFService.audioContext s = Some DTMFService.suspended
               /\ resume_ok = true))
       /\ oscillators_ok = true
       /\ exists c, digit = String c EmptyString /\ keypad_char c = true)
  /\ length tones = (if played then 1 else 0)%nat
  /\ DTMFService.enabled s' = DTMFService.enabled s
  /\ DTMFService.volume s' = DTMFService.volume s
  /\ DTMFService.toneDuration s' = DTMFService.toneDuration s.
Proof.
  pose proof (dtmfFrequencies_one_char digit) as Hkey.
  unfold DTMFService.playDTMFTone.
  destruct (DTMFService.audioContext s) as [[]|] eqn:Ectx;
    destruct (DTMFService.enabled s) eqn:Een;
    destruct (DTMFService.dtmfFrequencies (DTMFService.toUpperCase digit))
      as [[low high]|] eqn:Ef;
    destruct resume_ok, oscillators_ok; cbn;
    (split; [|repeat split; auto]);
    (split;
     [ intros Hp; try discriminate Hp;
       repeat split; auto; apply Hkey; eauto
     | intros (A & B & C & D); try reflexivity; try discriminate;
       try (destruct B as [B|[B B']]; discriminate);
       apply Hkey in D; destruct D as [x Hx]; discriminate ]).
Qed.

Lemma playFrom_tones (env : nat -> bool * bool) (digits : list ascii) :
  (forall i, env i = (true, true)) ->
  forall i s,
    DTMFService.enabled s = true ->
    is_Some (DTMFService.audioContext s) ->
    let '(s', tones) := DTMFService.playFrom i digits env s in
    DTMFService.enabled s' = true
    /\ is_Some (DTMFService.audioContext s')
    /\ DTMFService.volume s' = DTMFService.volume s
    /\ DTMFService.toneDuration s' = DTMFService.toneDuration s
    /\ map (fun tone => (DTMFService.Tone.low tone, DTMFService.Tone.high tone))
           tones
       = omap (fun c => DTMFService.dtmfFrequencies
                          (DTMFService.toUpperCase (String c EmptyString)))
              digits
    /\ length tones = length (filter (fun c => keypad_char c = true) digits)
    /\ Forall (fun tone =>
                 DTMFService.Tone.gain tone = DTMFService.volume s
                 /\ DTMFService.Tone.length tone = DTMFService.toneDuration s)
              tones.
Proof.
  intros Henv. induction digits as [|c rest IH]; intros i s Hen [state Hctx].
  - simpl. repeat split; eauto.
  - cbn [DTMFService.playFrom]. rewrite Henv. cbn [fst snd].
    unfold DTMFService.playDTMFTone. rewrite Hctx, Hen. cbn [negb].
    pose proof (keypad_table c) as Hk.
    destruct (DTMFService.dtmfFrequencies
                (DTMFService.toUpperCase (String c EmptyString)))
      as [[low high]|] eqn:Ef.
    + rewrite bool_decide_eq_true_2 in Hk by eauto.
      destruct state; cbn [negb];
        [ specialize (IH (S i) s Hen (ex_intro _ _ Hctx))
        | specialize (IH (S i)
                         (DTMFService.mk (Some DTMFService.running)
                            true (DTMFService.volume s)
                            (DTMFService.toneDuration s))
                         eq_refl (ex_intro _ _ eq_refl)) ];
        (match goal with
         | |- context [DTMFService.playFrom ?a ?b ?c ?d] =>
             destruct (DTMFService.playFrom a b c d) as [s2 tones2]
         end);
        cbv beta iota in IH |- *;
        destruct IH as (I1 & I2 & I3 & I4 & I5 & I6 & I7);
        cbn [omap list_omap]; rewrite Ef;
        rewrite filter_cons_True by (symmetry; exact Hk);
        cbn [app map length DTMFService.Tone.low DTMFService.Tone.high
             DTMFService.volume DTMFService.toneDuration] in *;
        rewrite I5, I6; repeat split; try assumption;
        (constructor; [split; reflexivity|exact I7]).
    + rewrite bool_decide_eq_false_2 in Hk
        by (intros [x Hx]; discriminate).
      specialize (IH (S i) s Hen (ex_intro _ state Hctx)).
      destruct (DTMFService.playFrom (S i) rest env s) as [s2 tones2].
      cbn [omap list_omap]. rewrite Ef.
      rewrite filter_cons_False by (rewrite <- Hk; discriminate).
      simpl. exact IH.
Qed.

(** X16. With the generator enabled, an audio context, and nothing
    throwing, [playDialSequence] plays one tone for each character of the
    string among 0-9, [*], [#], A-D and a-d, in the order of the string,
    with the frequencies of the table (a lower-case letter sounding as
    its capital), the current volume and the current duration, and passes
    over every other character. Disabled, it plays nothing. *)
Theorem playDialSequence_plays_keypad_characters
        (digits : string) (env : nat -> bool * bool) (s : DTMFService.t) :
  (forall i, env i = (true, true)) ->
  is_Some (DTMFService.audioContext s) ->
  (DTMFService.enabled s = true ->
   let '(s', tones) := DTMFService.playDialSequence digits env s in
   map (fun tone => (DTMFService.Tone.low tone, DTMFService.Tone.high tone))
       tones
   = omap (fun c => DTMFService.dtmfFrequencies
                      (DTMFService.toUpperCase (String c EmptyString)))
          (list_ascii_of_string digits)
   /\ length tones
      = length (filter (fun c => keypad_char c = true)
                       (list_ascii_of_string digits))
   /\ Forall (fun tone =>
                DTMFService.Tone.gain tone = DTMFService.volume s
                /\ DTMFService.Tone.length tone = DTMFService.toneDuration s)
             tones)
  /\ (DTMFService.enabled s = false ->
      DTMFService.playDialSequence digits env s = (s, [])).
Proof.
  intros Henv Hctx. split.
  - intros Hen. unfold DTMFService.playDialSequence.
    pose proof (playFrom_tones env (list_ascii_of_string digits) Henv 0%nat s
                  Hen Hctx) as H.
    destruct (DTMFService.playFrom 0 (list_ascii_of_string digits) env s)
      as [s' tones].
    tauto.
  - intros Hdis. unfold DTMFService.playDialSequence.
    generalize 0%nat. induction (list_ascii_of_string digits) as [|c rest IH];
      intros i; [reflexivity|].
    cbn [DTMFService.playFrom]. unfold DTMFService.playDTMFTone.
    destruct Hctx as [state Hc]. rewrite Hc, Hdis. simpl. rewrite IH.
    reflexivity.
Qed.

Lemma playDialSequence_plays_keypad_characters_witness :
  let s :=
    DTMFService.initializeAudioContext
      (Some (DTMFService.suspended, true)) DTMFService.constructed in
  let env := fun _ : nat => (true, true) in
  (DTMFService.enabled s = true ->
   let '(s', tones) := DTMFService.playDialSequence "1a?#" env s in
   map (fun tone => (DTMFService.Tone.low tone, DTMFService.Tone.high tone))
       tones
   = omap (fun c => DTMFService.dtmfFrequencies
                      (DTMFService.toUpperCase (String c EmptyString)))
          (list_ascii_of_string "1a?#")
   /\ length tones
      = length (filter (fun c => keypad_char c = true)
                       (list_ascii_of_string "1a?#"))
   /\ Forall (fun tone =>
                DTMFService.Tone.gain tone = DTMFService.volume s
                /\ DTMFService.Tone.length tone = DTMFService.toneDuration s)
             tones)
  /\ (DTMFService.enabled s = false ->
      DTMFService.playDialSequence "1a?#" env s = (s, [])).
Proof.
  apply (playDialSequence_plays_keypad_characters
           "1a?#" (fun _ : nat => (true, true))
           (DTMFService.initializeAudioContext
              (Some (DTMFService.suspended, true)) DTMFService.constructed)).
  - intros i. reflexivity.
  - vm_compute. eauto.
Defined.

Lemma clamp_within (lo hi : Q) (x : Num) :
  (lo <= hi)%Q ->
  x <> NaN ->
  within lo hi (Math_max (Finite lo) (Math_min (Finite hi) x)).
Proof.
  intros Hle Hx. destruct x as [| |q|]; simpl.
  - congruence.
  - split; [apply Qle_refl|exact Hle].
  - split; [apply Q.le_max_l|].
    apply Q.max_lub; [exact Hle|apply Q.le_min_l].
  - split; [apply Q.le_max_l|].
    apply Q.max_lub; [exact Hle|apply Qle_refl].
Qed.

Lemma playDTMFTone_settings digit resume_ok oscillators_ok s :
  let '(s', played, tones) :=
    DTMFService.playDTMFTone digit resume_ok oscillators_ok s in
  DTMFService.volume s' = DTMFService.volume s
  /\ DTMFService.toneDuration s' = DTMFService.toneDuration s
  /\ Forall (fun tone =>
               DTMFService.Tone.gain tone = DTMFService.volume s
               /\ DTMFService.Tone.length tone = DTMFService.toneDuration s)
            tones.
Proof.
  unfold DTMFService.playDTMFTone.
  destruct (DTMFService.audioContext s) as [[]|];
    destruct (DTMFService.enabled s); simpl;
    try (repeat split; constructor);
    destruct (DTMFService.dtmfFrequencies _) as [[low high]|];
    try (repeat split; constructor);
    destruct resume_ok, oscillators_ok; simpl; repeat split;
    repeat constructor.
Qed.

Lemma playFrom_settings env digits :
  forall i s,
    let '(s', tones) := DTMFService.playFrom i digits env s in
    DTMFService.volume s' = DTMFService.volume s
    /\ DTMFService.toneDuration s' = DTMFService.toneDuration s
    /\ Forall (fun tone =>
                 DTMFService.Tone.gain tone = DTMFService.volume s
                 /\ DTMFService.Tone.length tone = DTMFService.toneDuration s)
              tones.
Proof.
  induction digits as [|c rest IH]; intros i s.
  - simpl. repeat split. constructor.
  - cbn [DTMFService.playFrom].
    pose proof (playDTMFTone_settings (String c EmptyString)
                  (env i).1 (env i).2 s) as H1.
    destruct (DTMFService.playDTMFTone _ _ _ s) as [[s1 p1] tones1].
    destruct H1 as (V1 & D1 & F1).
    specialize (IH (S i) s1).
    destruct (DTMFService.playFrom (S i) rest env s1) as [s2 tones2].
    destruct IH as (V2 & D2 & F2).
    split; [congruence|]. split; [congruence|].
    apply Forall_app. split; [exact F1|].
    eapply Forall_impl; [exact F2|]. intros tone [G L]. split; congruence.
Qed.

Lemma exec_settings_in_range op s :
  numeric op ->
  settings_in_range (DTMFService.volume s) (DTMFService.toneDuration s) ->
  let '(s', tones) := DTMFService.exec op s in
  settings_in_range (DTMFService.volume s') (DTMFService.toneDuration s')
  /\ Forall (fun tone =>
               settings_in_range (DTMFService.Tone.gain tone)
                                 (DTMFService.Tone.length tone)) tones.
Proof.
  intros Hop Hs. destruct op; simpl.
  - split; [|constructor].
    destruct env as [[[] []]|]; exact Hs.
  - pose proof (playDTMFTone_settings digit resume_ok oscillators_ok s) as H.
    destruct (DTMFService.playDTMFTone _ _ _ s) as [[s1 p1] tones1].
    destruct H as (V & D & F). rewrite V, D. split; [exact Hs|].
    eapply Forall_impl; [exact F|]. intros tone [-> ->]. exact Hs.
  - unfold DTMFService.playDialSequence.
    pose proof (playFrom_settings env (list_ascii_of_string digits) 0%nat s)
      as H.
    destruct (DTMFService.playFrom _ _ env s) as [s1 tones1].
    destruct H as (V & D & F). rewrite V, D. split; [exact Hs|].
    eapply Forall_impl; [exact F|]. intros tone [-> ->]. exact Hs.
  - split; [|constructor]. destruct Hs as [_ H2].
    split; [|exact H2]. apply clamp_within; [discriminate|exact Hop].
  - split; [|constructor]. destruct Hs as [H1 _].
    split; [exact H1|]. apply clamp_within; [discriminate|exact Hop].
  - split; [|constructor]. exact Hs.
Qed.

(** X17. As long as what [setVolume] and [setToneDuration] are given is
    a number, whatever is done with the tone generator, in whatever
    order, its volume stays between 0 and 1 and its tone duration between
    50 and 1000 milliseconds, and every tone it plays has a gain and a
    length in these ranges: the two setters clamp a number, infinite ones
    included, and nothing else writes the two settings. Given [NaN],
    which is what [undefined] or a string that is not a numeral converts
    to, each setter stores [NaN]. *)
Theorem tone_settings_stay_in_range (ops : list DTMFService.Op) :
  Forall numeric ops ->
  (let '(s, tones) := DTMFService.run ops DTMFService.constructed in
   settings_in_range (DTMFService.volume s) (DTMFService.toneDuration s)
   /\ Forall (fun tone =>
                settings_in_range (DTMFService.Tone.gain tone)
                                  (DTMFService.Tone.length tone)) tones)
  /\ (forall s,
        DTMFService.volume (DTMFService.setVolume NaN s) = NaN
        /\ DTMFService.toneDuration (DTMFService.setToneDuration NaN s)
           = NaN).
Proof.
  intros Hops. split; [|intros s; split; reflexivity].
  assert (H0 : settings_in_range (DTMFService.volume DTMFService.constructed)
                 (DTMFService.toneDuration DTMFService.constructed)).
  { repeat split; discriminate. }
  revert H0. generalize DTMFService.constructed.
  induction Hops as [|op ops Hop Hops IH]; intros s Hs.
  - simpl. split; [exact Hs|constructor].
  - cbn [DTMFService.run].
    pose proof (exec_settings_in_range op s Hop Hs) as H1.
    destruct (DTMFService.exec op s) as [s1 tones1]. destruct H1 as [Hs1 F1].
    specialize (IH s1 Hs1).
    destruct (DTMFService.run ops s1) as [s2 tones2]. destruct IH as [Hs2 F2].
    split; [exact Hs2|]. apply Forall_app. split; assumption.
Qed.

Lemma tone_settings_stay_in_range_witness :
  (let '(s, tones) :=
     DTMFService.run
       [DTMFService.OpInitialize (Some (DTMFService.suspended, true));
        DTMFService.OpSetVolume Infinity;
        DTMFService.OpSetToneDuration (Finite (10 # 1));
        DTMFService.OpDial "12" (fun _ : nat => (true, true))]
       DTMFService.constructed in
   settings_in_range (DTMFService.volume s) (DTMFService.toneDuration s)
   /\ Forall (fun tone =>
                settings_in_range (DTMFService.Tone.gain tone)
                                  (DTMFService.Tone.length tone)) tones)
  /\ (forall s,
        DTMFService.volume (DTMFService.setVolume NaN s) = NaN
        /\ DTMFService.toneDuration (DTMFService.setToneDuration NaN s)
           = NaN).
Proof.
  apply (tone_settings_stay_in_range
           [DTMFService.OpInitialize (Some (DTMFService.suspended, true));
            DTMFService.OpSetVolume Infinity;
            DTMFService.OpSetToneDuration (Finite (10 # 1));
            DTMFService.OpDial "12" (fun _ : nat => (true, true))]).
  repeat constructor; discriminate.
Defined.

(** ** The SIP.js based service *)

Lemma attempted_app e1 e2 :
  attempted (e1 ++ e2) = (attempted e1 ++ attempted e2)%list.
Proof.
  induction e1 as [|x e1 IH]; [reflexivity|].
  destruct x; simpl; [rewrite IH; reflexivity|exact IH].
Qed.

(** X18. On a first active call that is connected and has a session,
    [EnhancedSIPService.sendDTMF] hands every character of the string to
    the session, in order, whether or not the session accepts the ones
    before it, and reports success even when the session refused them
    all. *)
Theorem enhanced_sendDTMF_best_effort
        (digits : string) (activeCalls : list (string * EnhancedSIPService.ECall.t))
        (key : string) (first : EnhancedSIPService.ECall.t)
        (rest : list (string * EnhancedSIPService.ECall.t))
        (session : EnhancedSIPService.Session.t) :
  activeCalls = (key, first) :: rest ->
  EnhancedSIPService.ECall.sipCall first = Some session ->
  Call.status (EnhancedSIPService.ECall.call first) = connected ->
  let '(result, effects) := EnhancedSIPService.sendDTMF digits activeCalls in
  Result.success result = true
  /\ Result.message result = Some ("DTMF sent via RFC 2833: " ++ digits)
  /\ attempted effects
     = map (fun digit =>
              (digit, EnhancedSIPService.Session.accepts session digit))
           (list_ascii_of_string digits)
  /\ exists before,
       effects
       = (before
            ++ [EnhancedSIPService.EmitDtmfSent
                  (Call.id (EnhancedSIPService.ECall.call first)) digits
                  "RFC 2833"])%list.
Proof.
  intros -> Hs Hst. unfold EnhancedSIPService.sendDTMF. simpl.
  rewrite Hs, Hst. simpl. repeat split.
  - rewrite attempted_app. simpl. rewrite app_nil_r.
    induction (list_ascii_of_string digits) as [|d ds IH]; simpl;
      [reflexivity|]. rewrite IH. reflexivity.
  - eexists. reflexivity.
Qed.

Lemma enhanced_sendDTMF_best_effort_witness :
  let session := EnhancedSIPService.Session.mk (fun _ => false) in
  let first :=
    EnhancedSIPService.ECall.mk
      (Call.mk Scenario.id1 outbound "5551234" None (Some "alice") connected
               0 (Some 3000) None 0 (Some "FLEXPBX") [])
      (Some session) in
  let '(result, effects) :=
    EnhancedSIPService.sendDTMF "12#" [(Scenario.id1, first)] in
  Result.success result = true
  /\ Result.message result = Some ("DTMF sent via RFC 2833: " ++ "12#")
  /\ attempted effects
     = map (fun digit =>
              (digit, EnhancedSIPService.Session.accepts session digit))
           (list_ascii_of_string "12#")
  /\ exists before,
       effects
       = (before
            ++ [EnhancedSIPService.EmitDtmfSent
                  (Call.id (EnhancedSIPService.ECall.call first)) "12#"
                  "RFC 2833"])%list.
Proof.
  apply (enhanced_sendDTMF_best_effort
           "12#" _ Scenario.id1 _ [] (EnhancedSIPService.Session.mk
                                        (fun _ => false)));
    reflexivity.
Defined.

Lemma enhanced_getProvider_known (k : string) :
  is_Some (EnhancedSIPService.getProvider (Some k)) ->
  is_Some (getProvider (Some k)) /\ k <> "CUSTOM".
Proof.
  intros H. split.
  - unfold EnhancedSIPService.getProvider in H. unfold getProvider.
    destruct (map_get k sipProviders) as [p|] eqn:Es; [eauto|].
    destruct (map_get k EnhancedSIPService.sipProviders) as [p|] eqn:Ee.
    + exfalso. revert Ee Es. simpl.
      destruct (String.eqb k "FLEXPBX"); [discriminate|].
      destruct (String.eqb k "CALLCENTRIC"); discriminate.
    + destruct (map_get k objectPrototype); [eauto|].
      destruct H as [x Hx]. discriminate.
  - intros ->. destruct H as [x Hx]. vm_compute in Hx. discriminate.
Qed.

(** X19. A config that the SIP.js based service accepts is accepted by
    the simulated service too: every provider key that the smaller table
    answers is answered by the larger one, and none of them is CUSTOM,
    the one provider for which the simulated service asks for more. *)
Theorem enhanced_config_is_accepted (config : Config.t) :
  Validation.valid (EnhancedSIPService.validateConfig config) = true ->
  Validation.valid (validateConfig config) = true.
Proof.
  unfold EnhancedSIPService.validateConfig. intros H.
  destruct (truthy_str (Config.provider config)) eqn:Ep; [|discriminate].
  destruct (bool_decide (is_Some (EnhancedSIPService.getProvider
                                    (Config.provider config)))) eqn:Eg;
    [|discriminate].
  destruct (truthy_str (Config.username config)) eqn:Eu; [|discriminate].
  destruct (truthy_str (Config.password config)) eqn:Ew; [|discriminate].
  apply bool_decide_eq_true in Eg.
  destruct (Config.provider config) as [k|] eqn:Ek; [|discriminate].
  destruct (enhanced_getProvider_known k Eg) as [Hs Hne].
  destruct (Validation.valid (validateConfig config)) eqn:Ev; [reflexivity|].
  apply validateConfig_rejects_iff in Ev. rewrite Ek in Ev.
  destruct Ev as [Ev|[Ev|[Ev|[Ev|[Ev _]]]]]; try congruence.
  rewrite Ev in Hs. destruct Hs as [x Hx]. discriminate.
Qed.

Lemma enhanced_config_is_accepted_witness :
  Validation.valid (validateConfig Scenario.alice) = true.
Proof.
  apply (enhanced_config_is_accepted Scenario.alice).
  vm_compute. reflexivity.
Defined.
